(** * RAL core: a shallow embedding of the context-intelligence services

    The development follows the layout of [services/ral-core/app]:

    - [Py]        the fragment of the Python runtime the services rely on
                  (exceptions, [str] methods, JSON-like values, [float]);
    - [Calendar]  [datetime], [timedelta], [ZoneInfo] and [strftime];
    - [Config]    [app/core/config.py];
    - [Models]    [app/models/context.py];
    - [Memory]    [app/services/context_memory.py];
    - [Drift]     [app/engines/drift.py];
    - [Temporal]  [app/engines/temporal.py] with [app/schemas/temporal.py];
    - [Bus]       [app/core/event_bus.py];
    - [Composer]  [app/engines/composer.py];
    - [Samples]   concrete records, clock readings and call sequences;
    - [MemoryFacts], [DriftFacts], [TemporalFacts], [ZoneFacts],
      [BusFacts], [ComposerFacts]: the properties C1 to C10.
    - [ModelsFacts], [HistoryFacts], [StoreFacts], [DecayFacts],
      [BusMoreFacts], [SelectionFacts], [InterpretationFacts],
      [ResolutionFacts], [FastPathFacts], [DetectorFacts]: further
      properties of the same code, X1 to X30.

    Modelling choices.  Python [float] is IEEE binary64 and is embedded as
    Rocq's primitive [float], so that [0.9 - 0.2 - 0.2 - 0.2] evaluates
    here to the very value it has in the service.  Instants and durations
    are integer microsecond counts ([Z]), as in [datetime]; quotients of
    durations ([total_seconds() / 3600]) are kept exact in [Q].  Text is
    ASCII.  Code that awaits is modelled between its suspension points:
    the memory service as state passing over its two tables, the bus as a
    transition system.  What the platform supplies -- the zone database,
    [strptime], the rendering of floats, [json.dumps] -- is a parameter. *)

From Stdlib Require Import ZArith List String Ascii Bool Lia Floats QArith.
From Stdlib Require Import DecimalString.
From stdpp Require Import base option gmap strings.

Set Warnings "-inexact-float,-register-all".

(* ===================================================================== *)
(** ** The Python runtime fragment                                        *)
(* ===================================================================== *)

Module Py.

(** Exceptions the modelled code can raise. *)
Inductive exn : Type :=
| ValueError (msg : string)
| TypeError
| AttributeError
| KeyError
| IndexError
| OverflowError
| ZoneInfoNotFoundError (key : string)
| MultipleResultsFound
| IntegrityError.

(** A computation either returns or raises. *)
Inductive result (A : Type) : Type :=
| Ok (a : A)
| Raise (e : exn).
Arguments Ok {A} a.
Arguments Raise {A} e.

Definition bind {A B : Type} (m : result A) (k : A -> result B) : result B :=
  match m with
  | Ok a => k a
  | Raise e => Raise e
  end.

(** [try: m  except Exception: h] *)
Definition try_except {A : Type} (m : result A) (h : A) : A :=
  match m with Ok a => a | Raise _ => h end.

Module Notations.
  Notation "'let*' x ':=' m 'in' k" := (bind m (fun x => k))
    (at level 10, x name, m at level 100, k at level 200).
End Notations.

Import Notations.

(** *** [str] (ASCII) *)

Local Open Scope char_scope.
Local Open Scope N_scope.

Definition code (a : ascii) : N := N_of_ascii a.

Definition is_upper (a : ascii) : bool := (65 <=? code a) && (code a <=? 90).
Definition is_lower (a : ascii) : bool := (97 <=? code a) && (code a <=? 122).
Definition is_digit (a : ascii) : bool := (48 <=? code a) && (code a <=? 57).

(** [\w] of the [re] module, on ASCII text. *)
Definition is_word (a : ascii) : bool :=
  is_upper a || is_lower a || is_digit a || (code a =? 95).

(** The characters [str.strip()] removes, on ASCII text. *)
Definition is_space (a : ascii) : bool :=
  (code a =? 32) || ((9 <=? code a) && (code a <=? 13))
  || ((28 <=? code a) && (code a <=? 31)).

Definition lower_char (a : ascii) : ascii :=
  if is_upper a then ascii_of_N (code a + 32) else a.

Fixpoint lower (s : string) : string :=
  match s with
  | EmptyString => EmptyString
  | String a s' => String (lower_char a) (lower s')
  end.

Fixpoint lstrip (s : string) : string :=
  match s with
  | EmptyString => EmptyString
  | String a s' => if is_space a then lstrip s' else s
  end.

Fixpoint rev_string (s acc : string) : string :=
  match s with
  | EmptyString => acc
  | String a s' => rev_string s' (String a acc)
  end.

Definition rstrip (s : string) : string :=
  rev_string (lstrip (rev_string s EmptyString)) EmptyString.

Definition strip (s : string) : string := rstrip (lstrip s).

(** [s.startswith(p)] *)
Fixpoint startswith (p s : string) : bool :=
  match p, s with
  | EmptyString, _ => true
  | String a p', String b s' => Ascii.eqb a b && startswith p' s'
  | String _ _, EmptyString => false
  end.

(** [needle in hay] *)
Fixpoint contains (needle hay : string) : bool :=
  startswith needle hay ||
  match hay with
  | EmptyString => false
  | String _ hay' => contains needle hay'
  end.

(** [sep.join(parts)] *)
Fixpoint join (sep : string) (parts : list string) : string :=
  match parts with
  | nil => EmptyString
  | p :: nil => p
  | p :: rest => p ++ sep ++ join sep rest
  end.

(** [re.search(r"\bLIT\b", text)] for a literal pattern [LIT]: some
    occurrence of [LIT] in [text] has a word boundary on both sides.  A
    position is a boundary when exactly one of the characters around it is
    a word character (the ends of the text count as non-word). *)
Definition boundary (prev next : option ascii) : bool :=
  xorb (from_option is_word false prev) (from_option is_word false next).

Definition head_char (s : string) : option ascii :=
  match s with EmptyString => None | String a _ => Some a end.

Fixpoint last_char (s : string) : option ascii :=
  match s with
  | EmptyString => None
  | String a EmptyString => Some a
  | String _ s' => last_char s'
  end.

Fixpoint drop_prefix (p s : string) : string :=
  match p, s with
  | String _ p', String _ s' => drop_prefix p' s'
  | _, _ => s
  end.

Definition word_match_here (lit : string) (prev : option ascii) (s : string) : bool :=
  startswith lit s
  && boundary prev (head_char lit)
  && boundary (last_char lit) (head_char (drop_prefix lit s)).

Fixpoint search_word_from (lit : string) (prev : option ascii) (s : string) : bool :=
  word_match_here lit prev s ||
  match s with
  | EmptyString => false
  | String a s' => search_word_from lit (Some a) s'
  end.

Definition search_word (lit text : string) : bool :=
  search_word_from lit None text.

Local Close Scope N_scope.
Local Close Scope char_scope.

(** [x or default] for an optional string. *)
Definition str_or (x : option string) (default : string) : string :=
  match x with
  | Some s => if String.eqb s EmptyString then default else s
  | None => default
  end.

(** [str(n)] for an [int]. *)
Definition str_of_Z (n : Z) : string := NilZero.string_of_int (Z.to_int n).

(** [f"{n:02d}"] for a non-negative [n]. *)
Definition pad2 (n : Z) : string :=
  if (n <? 10)%Z then ("0" ++ str_of_Z n)%string else str_of_Z n.

(** *** [float] *)

Local Open Scope Z_scope.

(** The binary64 value nearest to an integer, ties to even (an infinity
    beyond the range of [float]). *)
Definition float_of_Z (n : Z) : float :=
  SF2Prim (binary_normalize prec emax n 0 false).

(** [float(n)] for an [int], also the conversion of an [int] operand of
    float arithmetic: [OverflowError] beyond the range of [float]. *)
Definition float_of_int (n : Z) : result float :=
  match binary_normalize prec emax n 0 false with
  | S754_infinity _ => Raise OverflowError
  | _ => Ok (float_of_Z n)
  end.

(** The built-ins [min(a, b)] and [max(a, b)]: the first argument is kept
    unless the second compares strictly below (above) it. *)
Definition py_min (a b : float) : float := if PrimFloat.ltb b a then b else a.
Definition py_max (a b : float) : float := if PrimFloat.ltb a b then b else a.

(** [n / d] rounded to the nearest integer, ties to even ([0 < d]). *)
Definition div_half_even (n d : Z) : Z :=
  let q := n / d in
  let r := n mod d in
  if 2 * r <? d then q
  else if d <? 2 * r then q + 1
  else if Z.even q then q else q + 1.

(** [f"{x:.2f}"]: the exact value of [x] rounded to hundredths. *)
Definition format_2f (x : float) : string :=
  match Prim2SF x with
  | S754_nan => "nan"
  | S754_infinity s => if s then "-inf" else "inf"
  | S754_zero s => if s then "-0.00" else "0.00"
  | S754_finite s m e =>
      let n := 100 * Z.pos m in
      let h := if 0 <=? e then n * 2 ^ e else div_half_even n (2 ^ (- e)) in
      ((if s then "-" else "") ++ str_of_Z (h / 100) ++ "." ++ pad2 (h mod 100))%string
  end.

(** Exact comparison of an [int] with a [float], as Python performs it. *)
Definition int_lt_float (n : Z) (x : float) : bool :=
  match Prim2SF x with
  | S754_nan => false
  | S754_infinity s => negb s
  | S754_zero _ => n <? 0
  | S754_finite s m e =>
      let v := if s then Z.neg m else Z.pos m in
      if 0 <=? e then n <? v * 2 ^ e else n * 2 ^ (- e) <? v
  end.

Definition float_lt_int (x : float) (n : Z) : bool :=
  match Prim2SF x with
  | S754_nan => false
  | S754_infinity s => s
  | S754_zero _ => 0 <? n
  | S754_finite s m e =>
      let v := if s then Z.neg m else Z.pos m in
      if 0 <=? e then v * 2 ^ e <? n else v <? n * 2 ^ (- e)
  end.

(** *** JSON-shaped values ([dict], [list], [str], numbers, [None]) *)

Inductive Json : Type :=
| JNull
| JBool (b : bool)
| JInt (n : Z)
| JFloat (x : float)
| JStr (s : string)
| JList (l : list Json)
| JDict (d : list (string * Json)).

(** A [dict] keeps its items in insertion order; keys are unique. *)
Definition dict : Type := list (string * Json).

Fixpoint dict_get (d : dict) (k : string) : option Json :=
  match d with
  | nil => None
  | (k', v) :: d' => if String.eqb k k' then Some v else dict_get d' k
  end.

(** [k in d] *)
Definition dict_has (d : dict) (k : string) : bool :=
  match dict_get d k with Some _ => true | None => false end.

(** [d.get(k)] and [d.get(k, default)] *)
Definition get (d : dict) (k : string) : Json := from_option id JNull (dict_get d k).
Definition get_default (d : dict) (k : string) (default : Json) : Json :=
  from_option id default (dict_get d k).

(** [x.get(k, default)] on a value that need not be a [dict]. *)
Definition attr_get (x : Json) (k : string) (default : Json) : result Json :=
  match x with
  | JDict d => Ok (get_default d k default)
  | _ => Raise AttributeError
  end.

(** Truth value testing ([if x:]). *)
Definition truthy (x : Json) : bool :=
  match x with
  | JNull => false
  | JBool b => b
  | JInt n => negb (n =? 0)
  | JFloat f => negb (PrimFloat.eqb f 0)
  | JStr s => negb (String.eqb s "")
  | JList l => match l with nil => false | _ => true end
  | JDict d => match d with nil => false | _ => true end
  end.

(** [x < y], [x > y] and [w * x] for a [float] [y], [w] and an arbitrary
    value [x]: numbers compare and multiply, anything else is a
    [TypeError]. *)
Definition lt_float (x : Json) (y : float) : result bool :=
  match x with
  | JFloat f => Ok (PrimFloat.ltb f y)
  | JInt n => Ok (int_lt_float n y)
  | JBool b => Ok (int_lt_float (if b then 1 else 0) y)
  | _ => Raise TypeError
  end.

Definition gt_int (x : Json) (n : Z) : result bool :=
  match x with
  | JFloat f => Ok (int_lt_float n f)
  | JInt m => Ok (n <? m)
  | JBool b => Ok (n <? (if b then 1 else 0))
  | _ => Raise TypeError
  end.

(** [repr(s)] for a [str] (ASCII): single quotes unless the text holds a
    single quote and no double quote; the quote, the backslash and control
    characters are escaped. *)
Definition squote : ascii := ascii_of_N 39.
Definition dquote : ascii := ascii_of_N 34.
Definition backslash : ascii := ascii_of_N 92.
Definition nl : string := String (ascii_of_N 10) EmptyString.

Definition hex_digit (n : N) : ascii :=
  if (n <? 10)%N then ascii_of_N (48 + n) else ascii_of_N (87 + n).

Definition escape_char (quote a : ascii) : string :=
  let c := N_of_ascii a in
  if Ascii.eqb a quote || Ascii.eqb a backslash then String backslash (String a "")
  else if (c =? 9)%N then String backslash "t"
  else if (c =? 10)%N then String backslash "n"
  else if (c =? 13)%N then String backslash "r"
  else if (c <? 32)%N || (c =? 127)%N
  then String backslash (String "x" (String (hex_digit (c / 16)) (String (hex_digit (c mod 16)) "")))
  else String a "".

Fixpoint escape (quote : ascii) (s : string) : string :=
  match s with
  | EmptyString => EmptyString
  | String a s' => (escape_char quote a ++ escape quote s')%string
  end.

Definition repr_str (s : string) : string :=
  let quote :=
    if contains (String squote "") s && negb (contains (String dquote "") s)
    then dquote else squote in
  String quote (escape quote s ++ String quote "")%string.

Section Str.

(** [repr(x)] for a [float]: the shortest decimal that reads back as [x].
    The statements below hold for every rendering of floats. *)
Variable float_repr : float -> string.

(** [repr(x)] *)
Fixpoint py_repr (x : Json) : string :=
  match x with
  | JNull => "None"
  | JBool b => if b then "True" else "False"
  | JInt n => str_of_Z n
  | JFloat f => float_repr f
  | JStr s => repr_str s
  | JList l => ("[" ++ join ", " (List.map py_repr l) ++ "]")%string
  | JDict d =>
      ("{" ++ join ", " (List.map (fun kv =>
                           match kv with
                           | (k, v) => (repr_str k ++ ": " ++ py_repr v)%string
                           end) d) ++ "}")%string
  end.

(** [str(x)], also what an f-string substitutes for [{x}]. *)
Definition py_str (x : Json) : string :=
  match x with
  | JStr s => s
  | _ => py_repr x
  end.

End Str.

(** [d[k] = v] *)
Fixpoint dict_set (d : dict) (k : string) (v : Json) : dict :=
  match d with
  | nil => [(k, v)]
  | (k', v') :: d' =>
      if String.eqb k k' then (k, v) :: d' else (k', v') :: dict_set d' k v
  end.

(** [float(n)] for a count. *)
Definition float_of_nat (n : nat) : float := float_of_Z (Z.of_nat n).

Definition float_mul (w : float) (x : Json) : result float :=
  match x with
  | JFloat f => Ok (w * f)%float
  | JInt n => let* f := float_of_int n in Ok (w * f)%float
  | JBool b => Ok (w * (if b then 1 else 0))%float
  | _ => Raise TypeError
  end.

End Py.

(* ===================================================================== *)
(** ** [datetime], [timedelta], [zoneinfo]                                *)
(* ===================================================================== *)

Module Calendar.
Import Py Py.Notations.
Local Open Scope string_scope.
Local Open Scope Z_scope.

(** A [timedelta] is a count of microseconds. *)
Definition timedelta : Type := Z.

Definition US_PER_SECOND : Z := 1000000.
Definition US_PER_MINUTE : Z := 60 * US_PER_SECOND.
Definition US_PER_HOUR : Z := 60 * US_PER_MINUTE.
Definition US_PER_DAY : Z := 24 * US_PER_HOUR.

Definition td_seconds (n : Z) : timedelta := n * US_PER_SECOND.
Definition td_minutes (n : Z) : timedelta := n * US_PER_MINUTE.
Definition td_hours (n : Z) : timedelta := n * US_PER_HOUR.
Definition td_days (n : Z) : timedelta := n * US_PER_DAY.

(** [td.total_seconds() / 3600] and the like are kept exact: the quotient
    of an integer microsecond count is a rational number. *)
Definition total_hours (td : timedelta) : Q := td # (Z.to_pos US_PER_HOUR).
Definition total_minutes (td : timedelta) : Q := td # (Z.to_pos US_PER_MINUTE).

Definition Qltb (a b : Q) : bool := negb (Qle_bool b a).

(** A [date] is a day number, counted from 1970-01-01. *)
Definition date : Type := Z.

(** Year, month and day of a day number (proleptic Gregorian calendar). *)
Definition civil_from_days (d : date) : Z * Z * Z :=
  let z := d + 719468 in
  let era := z / 146097 in
  let doe := z - era * 146097 in
  let yoe := (doe - doe / 1460 + doe / 36524 - doe / 146096) / 365 in
  let doy := doe - (365 * yoe + yoe / 4 - yoe / 100) in
  let mp := (5 * doy + 2) / 153 in
  let dd := doy - (153 * mp + 2) / 5 + 1 in
  let mm := if mp <? 10 then mp + 3 else mp - 9 in
  let yy := yoe + era * 400 + (if mm <=? 2 then 1 else 0) in
  (yy, mm, dd).

(** [date.weekday()]: Monday is 0.  1970-01-01 was a Thursday. *)
Definition weekday_of (d : date) : Z := (d + 3) mod 7.

Definition month_name (m : Z) : string :=
  nth (Z.to_nat (m - 1))
    ["January"; "February"; "March"; "April"; "May"; "June"; "July";
     "August"; "September"; "October"; "November"; "December"] "".

Definition day_name (w : Z) : string :=
  nth (Z.to_nat w)
    ["Monday"; "Tuesday"; "Wednesday"; "Thursday"; "Friday"; "Saturday";
     "Sunday"] "".

(** A time zone gives the UTC offset in force at a UTC instant, and the
    offset it assigns to a wall-clock reading (used when a zone is attached
    to a naive reading). *)
Record tzinfo : Type := mk_tzinfo {
  tz_key : string;
  utcoffset_at : Z -> timedelta;
  utcoffset_of_wall : Z -> timedelta;
}.

Definition utc : tzinfo := mk_tzinfo "UTC" (fun _ => 0) (fun _ => 0).

(** The IANA database installed on the host: the zones [ZoneInfo] finds. *)
Definition tzdata : Type := string -> option tzinfo.

(** [ZoneInfo(key)] *)
Definition ZoneInfo (db : tzdata) (key : string) : result tzinfo :=
  match db key with
  | Some z => Ok z
  | None => Raise (ZoneInfoNotFoundError key)
  end.

(** An aware [datetime]: an instant (microseconds since the epoch, UTC)
    viewed in a zone. *)
Record datetime : Type := mk_datetime {
  instant : Z;
  tz : tzinfo;
}.

(** What a caller may pass where a [datetime] is expected. *)
Inductive any_datetime : Type :=
| Aware (dt : datetime)
| Naive (wall : Z).

Definition astimezone (dt : datetime) (z : tzinfo) : datetime :=
  mk_datetime (instant dt) z.

(** [naive.replace(tzinfo=z)] and [datetime.combine(d, t, tzinfo=z)] *)
Definition localize (wall : Z) (z : tzinfo) : datetime :=
  mk_datetime (wall - utcoffset_of_wall z wall) z.

Definition utcoffset (dt : datetime) : timedelta := utcoffset_at (tz dt) (instant dt).

(** The wall-clock reading of an aware datetime. *)
Definition wall (dt : datetime) : Z := instant dt + utcoffset dt.

Definition date_of_wall (w : Z) : date := w / US_PER_DAY.
Definition hour_of_wall (w : Z) : Z := (w mod US_PER_DAY) / US_PER_HOUR.
Definition minute_of_wall (w : Z) : Z := (w mod US_PER_HOUR) / US_PER_MINUTE.
Definition second_of_wall (w : Z) : Z := (w mod US_PER_MINUTE) / US_PER_SECOND.

Definition dt_date (dt : datetime) : date := date_of_wall (wall dt).
Definition dt_hour (dt : datetime) : Z := hour_of_wall (wall dt).
Definition dt_minute (dt : datetime) : Z := minute_of_wall (wall dt).
Definition dt_time (dt : datetime) : Z := wall dt mod US_PER_DAY.

(** The day number of a year, month and day. *)
Definition days_from_civil (y m d : Z) : date :=
  let y' := if m <=? 2 then y - 1 else y in
  let era := y' / 400 in
  let yoe := y' - era * 400 in
  let mp := (m + 9) mod 12 in
  let doy := (153 * mp + 2) / 5 + d - 1 in
  let doe := yoe * 365 + yoe / 4 - yoe / 100 + doy in
  era * 146097 + doe - 719468.

(** [naive.replace(year=y)]: [ValueError] when the year has no such day. *)
Definition replace_year (w : Z) (y : Z) : result Z :=
  let '(_, mm, dd) := civil_from_days (date_of_wall w) in
  let d := days_from_civil y mm dd in
  if (let '(y', m', d') := civil_from_days d in (y' =? y) && (m' =? mm) && (d' =? dd))
  then Ok (d * US_PER_DAY + w mod US_PER_DAY)
  else Raise (ValueError "day is out of range for month").

Definition combine (d : date) (time_of_day : Z) (z : tzinfo) : datetime :=
  localize (d * US_PER_DAY + time_of_day) z.

Definition dt_add (dt : datetime) (td : timedelta) : datetime :=
  localize (wall dt + td) (tz dt).

(** [a - b] for two aware datetimes. *)
Definition dt_sub (a b : datetime) : timedelta := instant a - instant b.

(** [strftime]: the directives the services use. *)
Definition fmt_offset (off : timedelta) : string :=
  let sign := if off <? 0 then "-" else "+" in
  let a := Z.abs off / US_PER_SECOND in
  let hh := a / 3600 in
  let mm := (a mod 3600) / 60 in
  let ss := a mod 60 in
  sign ++ pad2 hh ++ pad2 mm ++ (if ss =? 0 then "" else pad2 ss).

Definition directive (c : ascii) (w : Z) (off : option timedelta) : string :=
  let '(yy, mm, dd) := civil_from_days (date_of_wall w) in
  let h := hour_of_wall w in
  if Ascii.eqb c "Y" then str_of_Z yy
  else if Ascii.eqb c "m" then pad2 mm
  else if Ascii.eqb c "d" then pad2 dd
  else if Ascii.eqb c "B" then month_name mm
  else if Ascii.eqb c "A" then day_name (weekday_of (date_of_wall w))
  else if Ascii.eqb c "H" then pad2 h
  else if Ascii.eqb c "I" then pad2 (if h mod 12 =? 0 then 12 else h mod 12)
  else if Ascii.eqb c "M" then pad2 (minute_of_wall w)
  else if Ascii.eqb c "S" then pad2 (second_of_wall w)
  else if Ascii.eqb c "p" then (if h <? 12 then "AM" else "PM")
  else if Ascii.eqb c "z" then from_option fmt_offset "" off
  else if Ascii.eqb c "%" then "%"
  else String "%" (String c "").

Fixpoint strftime_wall (fmt : string) (w : Z) (off : option timedelta) : string :=
  match fmt with
  | EmptyString => EmptyString
  | String a rest =>
      if Ascii.eqb a "%" then
        match rest with
        | EmptyString => String a EmptyString
        | String c rest' => directive c w off ++ strftime_wall rest' w off
        end
      else String a (strftime_wall rest w off)
  end.

Definition strftime (dt : datetime) (fmt : string) : string :=
  strftime_wall fmt (wall dt) (Some (utcoffset dt)).

Definition date_strftime (d : date) (fmt : string) : string :=
  strftime_wall fmt (d * US_PER_DAY) None.

(** [dt.isoformat()] *)
Definition pad_to (width : nat) (n : Z) : string :=
  let digits := str_of_Z n in
  String.concat "" (repeat "0" (width - String.length digits)) ++ digits.

Definition iso_offset (off : timedelta) : string :=
  let sign := if off <? 0 then "-" else "+" in
  let a := Z.abs off / US_PER_SECOND in
  sign ++ pad2 (a / 3600) ++ ":" ++ pad2 ((a mod 3600) / 60)
  ++ (if a mod 60 =? 0 then "" else ":" ++ pad2 (a mod 60)).

Definition isoformat (dt : datetime) : string :=
  let w := wall dt in
  let '(yy, mm, dd) := civil_from_days (date_of_wall w) in
  let us := w mod US_PER_SECOND in
  pad_to 4 yy ++ "-" ++ pad2 mm ++ "-" ++ pad2 dd ++ "T"
  ++ pad2 (hour_of_wall w) ++ ":" ++ pad2 (minute_of_wall w) ++ ":"
  ++ pad2 (second_of_wall w)
  ++ (if us =? 0 then "" else "." ++ pad_to 6 us)
  ++ iso_offset (utcoffset dt).

(** A small database for examples: [UTC] and the fixed-offset zone
    [Etc/GMT+5] (five hours behind UTC). *)
Definition gmt_plus_5 : tzinfo :=
  mk_tzinfo "Etc/GMT+5" (fun _ => td_hours (-5)) (fun _ => td_hours (-5)).

Definition sample_tzdata : tzdata :=
  fun key =>
    if String.eqb key "UTC" then Some utc
    else if String.eqb key "Etc/GMT+5" then Some gmt_plus_5
    else None.

End Calendar.

(* ===================================================================== *)
(** ** [app/core/config.py]                                               *)
(* ===================================================================== *)

Module Config.

Record Settings : Type := mk_Settings {
  DEFAULT_CONFIDENCE_THRESHOLD : float;
  CONTEXT_DECAY_HOURS : Z;
  EPHEMERAL_CONTEXT_TTL_SECONDS : Z;
  MAX_CONTEXT_TOKENS : Z;
  MIN_RELEVANCE_SCORE : float;
}.

(** The values in force when the environment overrides nothing. *)
Definition default_settings : Settings :=
  mk_Settings 0.5 24 3600 500 0.3.

End Config.

(* ===================================================================== *)
(** ** [app/models/context.py]                                            *)
(* ===================================================================== *)

Module Models.
Import Py.
Local Open Scope Z_scope.

Inductive ContextType : Type := TEMPORAL | SPATIAL | SITUATIONAL | META.
Inductive MemoryTier : Type := LONG_TERM | SHORT_TERM | EPHEMERAL.
Inductive DriftStatus : Type := STABLE | DRIFTING | CONFLICTING | STALE.

Definition ContextType_eqb (a b : ContextType) : bool :=
  match a, b with
  | TEMPORAL, TEMPORAL | SPATIAL, SPATIAL
  | SITUATIONAL, SITUATIONAL | META, META => true
  | _, _ => false
  end.

Definition MemoryTier_eqb (a b : MemoryTier) : bool :=
  match a, b with
  | LONG_TERM, LONG_TERM | SHORT_TERM, SHORT_TERM | EPHEMERAL, EPHEMERAL => true
  | _, _ => false
  end.

Definition DriftStatus_eqb (a b : DriftStatus) : bool :=
  match a, b with
  | STABLE, STABLE | DRIFTING, DRIFTING
  | CONFLICTING, CONFLICTING | STALE, STALE => true
  | _, _ => false
  end.

(** Primary keys are [uuid4] values. *)
Definition UUID : Type := N.

(** A row of [contexts].  Timestamps are UTC instants in microseconds. *)
Record Context : Type := mk_Context {
  id : UUID;
  user_id : UUID;
  context_type : ContextType;
  memory_tier : MemoryTier;
  key : string;
  value : dict;
  interpretation : option dict;
  confidence : float;
  source : string;
  source_details : option dict;
  drift_status : DriftStatus;
  last_confirmed_at : option Z;
  correction_count : Z;
  expires_at : option Z;
  is_active : bool;
  session_id : option string;
  created_at : Z;
  updated_at : Z;
  deleted_at : option Z;
}.

(** Attribute assignment, [self.f = x]. *)
Definition set_value (x : dict) (c : Context) : Context :=
  let 'mk_Context i u t m k _ ip cf s sd ds lc cc ex ac se cr up de := c in
  mk_Context i u t m k x ip cf s sd ds lc cc ex ac se cr up de.
Definition set_interpretation (x : option dict) (c : Context) : Context :=
  let 'mk_Context i u t m k v _ cf s sd ds lc cc ex ac se cr up de := c in
  mk_Context i u t m k v x cf s sd ds lc cc ex ac se cr up de.
Definition set_confidence (x : float) (c : Context) : Context :=
  let 'mk_Context i u t m k v ip _ s sd ds lc cc ex ac se cr up de := c in
  mk_Context i u t m k v ip x s sd ds lc cc ex ac se cr up de.
Definition set_source (x : string) (c : Context) : Context :=
  let 'mk_Context i u t m k v ip cf _ sd ds lc cc ex ac se cr up de := c in
  mk_Context i u t m k v ip cf x sd ds lc cc ex ac se cr up de.
Definition set_drift_status (x : DriftStatus) (c : Context) : Context :=
  let 'mk_Context i u t m k v ip cf s sd _ lc cc ex ac se cr up de := c in
  mk_Context i u t m k v ip cf s sd x lc cc ex ac se cr up de.
Definition set_last_confirmed_at (x : option Z) (c : Context) : Context :=
  let 'mk_Context i u t m k v ip cf s sd ds _ cc ex ac se cr up de := c in
  mk_Context i u t m k v ip cf s sd ds x cc ex ac se cr up de.
Definition set_correction_count (x : Z) (c : Context) : Context :=
  let 'mk_Context i u t m k v ip cf s sd ds lc _ ex ac se cr up de := c in
  mk_Context i u t m k v ip cf s sd ds lc x ex ac se cr up de.
Definition set_is_active (x : bool) (c : Context) : Context :=
  let 'mk_Context i u t m k v ip cf s sd ds lc cc ex _ se cr up de := c in
  mk_Context i u t m k v ip cf s sd ds lc cc ex x se cr up de.
Definition set_updated_at (x : Z) (c : Context) : Context :=
  let 'mk_Context i u t m k v ip cf s sd ds lc cc ex ac se cr _ de := c in
  mk_Context i u t m k v ip cf s sd ds lc cc ex ac se cr x de.
Definition set_deleted_at (x : option Z) (c : Context) : Context :=
  let 'mk_Context i u t m k v ip cf s sd ds lc cc ex ac se cr up _ := c in
  mk_Context i u t m k v ip cf s sd ds lc cc ex ac se cr up x.

(** [Context.is_expired] *)
Definition is_expired (now : Z) (self : Context) : bool :=
  match expires_at self with
  | None => false
  | Some e => e <? now
  end.

(** [Context.decay_confidence] *)
Definition decay_confidence (factor : float) (self : Context) : Context :=
  set_confidence (py_max 0.1 (confidence self * factor)) self.

(** [Context.confirm] *)
Definition confirm (now : Z) (self : Context) : Context :=
  let self := set_last_confirmed_at (Some now) self in
  let self := set_confidence (py_min 1.0 (confidence self + 0.2)) self in
  set_drift_status STABLE self.

(** [Context.record_correction] *)
Definition record_correction (self : Context) : Context :=
  let self := set_correction_count (correction_count self + 1) self in
  let self := set_confidence (py_max 0.0 (confidence self - 0.2)) self in
  if 3 <=? correction_count self
  then set_drift_status CONFLICTING self
  else self.

(** A row of [context_versions] (its own primary key is left out). *)
Record ContextVersion : Type := mk_ContextVersion {
  v_context_id : UUID;
  version : Z;
  v_value : dict;
  v_interpretation : option dict;
  v_confidence : float;
  changed_by : string;
  change_reason : option string;
  previous_value : option dict;
  v_created_at : Z;
}.

(** [k] calls of [Context.record_correction] in a row. *)
Fixpoint corrected (k : nat) (c : Context) : Context :=
  match k with
  | O => c
  | S k' => record_correction (corrected k' c)
  end.


End Models.

(* ===================================================================== *)
(** ** [app/services/context_memory.py]                                   *)
(* ===================================================================== *)

Module Memory.
Import Py Py.Notations Calendar Config Models.
Local Open Scope string_scope.
Local Open Scope Z_scope.

(** The two tables the service works on.  The Redis cache is written by
    the service but never decides what [_get_by_key] and [get_by_id]
    return, so it is not part of the state. *)
Record Db : Type := mk_Db {
  contexts : list Context;
  context_versions : list ContextVersion;
}.

Definition empty_db : Db := mk_Db [] [].

(** [Result.scalar_one_or_none()] *)
Definition scalar_one_or_none {A : Type} (rows : list A) : result (option A) :=
  match rows with
  | [] => Ok None
  | [r] => Ok (Some r)
  | _ => Raise MultipleResultsFound
  end.

(** [ContextMemoryService.get_by_id] *)
Definition get_by_id (db : Db) (context_id : UUID) : result (option Context) :=
  scalar_one_or_none (List.filter (fun c => N.eqb (id c) context_id) (contexts db)).

(** The [WHERE] clause of [_get_by_key]. *)
Definition key_matches (uid : UUID) (ct : ContextType) (k : string) (c : Context) : bool :=
  N.eqb (user_id c) uid
  && ContextType_eqb (context_type c) ct
  && String.eqb (key c) k
  && is_active c.

(** [ContextMemoryService._get_by_key] *)
Definition _get_by_key (db : Db) (uid : UUID) (ct : ContextType) (k : string)
  : result (option Context) :=
  scalar_one_or_none (List.filter (key_matches uid ct k) (contexts db)).

(** [ContextMemoryService._get_latest_version_number]:
    [result.scalar() or 0] over [max(version)]. *)
Definition _get_latest_version_number (db : Db) (context_id : UUID) : Z :=
  match List.map version
          (List.filter (fun v => N.eqb (v_context_id v) context_id) (context_versions db)) with
  | [] => 0
  | v :: vs => fold_left Z.max vs v
  end.

(** [ContextMemoryService._create_version] *)
Definition _create_version (now : Z) (db : Db) (context_id : UUID) (ver : Z)
    (val : dict) (interp : option dict) (conf : float) (by_ : string)
    (reason : option string) (previous : option dict) : Db :=
  mk_Db (contexts db)
        (context_versions db ++
         [mk_ContextVersion context_id ver val interp conf by_ reason previous now]).

(** [flush] after attributes of a loaded row changed: the row is written
    back under its primary key. *)
Definition write_row (c : Context) (db : Db) : Db :=
  mk_Db (List.map (fun r => if N.eqb (id r) (id c) then c else r) (contexts db))
        (context_versions db).

(** [flush] after [db.add(context)]: the primary key must be new. *)
Definition insert_row (c : Context) (db : Db) : result Db :=
  if existsb (fun r => N.eqb (id r) (id c)) (contexts db)
  then Raise IntegrityError
  else Ok (mk_Db (contexts db ++ [c]) (context_versions db)).

(** [ContextMemoryService.update] *)
Definition update (now : Z) (db : Db) (context_id : UUID)
    (value_ : option dict) (confidence_ : option float) (source_ : string)
    (interpretation_ : option dict) (change_reason_ : option string)
  : result (Db * Context) :=
  let* found := get_by_id db context_id in
  match found with
  | None => Raise (ValueError "Context not found")
  | Some context =>
      let previous_value := value context in
      let current_version := _get_latest_version_number db context_id in
      let context := match value_ with Some v => set_value v context | None => context end in
      let context := match confidence_ with Some c => set_confidence c context | None => context end in
      let context :=
        match interpretation_ with
        | Some i => set_interpretation (Some i) context
        | None => context
        end in
      let context := set_source source_ context in
      let context := set_updated_at now context in
      let db := write_row context db in
      let db := _create_version now db (id context) (current_version + 1)
                  (value context) (interpretation context) (confidence context)
                  source_ (Some (str_or change_reason_ "Updated"))
                  (Some previous_value) in
      Ok (db, context)
  end.

(** [ContextMemoryService.store].  [new_id] is the [uuid4] drawn for the
    row when one is created. *)
Definition store (cfg : Settings) (now : Z) (db : Db) (new_id : UUID)
    (uid : UUID) (ct : ContextType) (k : string) (value_ : dict)
    (tier : MemoryTier) (confidence_ : float) (source_ : string)
    (source_details_ : option dict) (interpretation_ : option dict)
    (session_id_ : option string) (ttl_seconds : option Z)
  : result (Db * Context) :=
  let* existing := _get_by_key db uid ct k in
  match existing with
  | Some e =>
      update now db (id e) (Some value_) (Some confidence_) source_ interpretation_ None
  | None =>
      let expires :=
        if MemoryTier_eqb tier EPHEMERAL then
          let ttl :=
            match ttl_seconds with
            | Some t => if t =? 0 then EPHEMERAL_CONTEXT_TTL_SECONDS cfg else t
            | None => EPHEMERAL_CONTEXT_TTL_SECONDS cfg
            end in
          Some (now + td_seconds ttl)
        else None in
      let context :=
        {| id := new_id; user_id := uid; context_type := ct; memory_tier := tier;
           key := k; value := value_; interpretation := interpretation_;
           confidence := confidence_; source := source_;
           source_details := source_details_; drift_status := STABLE;
           last_confirmed_at := None; correction_count := 0;
           expires_at := expires; is_active := true; session_id := session_id_;
           created_at := now; updated_at := now; deleted_at := None |} in
      let* db := insert_row context db in
      let db := _create_version now db (id context) 1 value_ interpretation_
                  confidence_ source_ (Some "Initial creation") None in
      Ok (db, context)
  end.

(** [ContextMemoryService.delete] (it always returns [True]). *)
Definition delete (now : Z) (db : Db) (context_id : UUID) (soft_delete : bool) : Db :=
  if soft_delete then
    mk_Db (List.map (fun r =>
                  if N.eqb (id r) context_id
                  then set_updated_at now (set_deleted_at (Some now) (set_is_active false r))
                  else r) (contexts db))
          (context_versions db)
  else
    mk_Db (List.filter (fun r => negb (N.eqb (id r) context_id)) (contexts db))
          (List.filter (fun v => negb (N.eqb (v_context_id v) context_id)) (context_versions db)).

(** [func.greatest] *)
Definition greatest (a b : float) : float := if PrimFloat.ltb a b then b else a.

(** The [WHERE] clause of [apply_decay]. *)
Definition decays (cfg : Settings) (now : Z) (uid : option UUID) (min_confidence : float)
    (c : Context) : bool :=
  is_active c
  && (updated_at c <? now - td_hours (CONTEXT_DECAY_HOURS cfg))
  && PrimFloat.ltb min_confidence (confidence c)
  && negb (MemoryTier_eqb (memory_tier c) LONG_TERM)
  && match uid with Some u => N.eqb (user_id c) u | None => true end.

(** [ContextMemoryService.apply_decay]: the new table and the row count. *)
Definition apply_decay (cfg : Settings) (now : Z) (db : Db) (uid : option UUID)
    (decay_factor min_confidence : float) : Db * Z :=
  (mk_Db (List.map (fun r =>
                 if decays cfg now uid min_confidence r
                 then set_updated_at now
                        (set_drift_status STALE
                           (set_confidence
                              (greatest (confidence r * decay_factor) min_confidence) r))
                 else r) (contexts db))
         (context_versions db),
   Z.of_nat (length (List.filter (decays cfg now uid min_confidence) (contexts db)))).

(** [ContextMemoryService.confirm] *)
Definition confirm (now : Z) (db : Db) (context_id : UUID) : result (Db * Context) :=
  let* found := get_by_id db context_id in
  match found with
  | None => Raise (ValueError "Context not found")
  | Some context =>
      let context := set_updated_at now (Models.confirm now context) in
      Ok (write_row context db, context)
  end.

(** [ContextMemoryService.record_correction] *)
Definition record_correction (now : Z) (db : Db) (context_id : UUID)
    (new_value : dict) (corrected_by : string) : result (Db * Context) :=
  let* found := get_by_id db context_id in
  match found with
  | None => Raise (ValueError "Context not found")
  | Some context =>
      let old_value := value context in
      let context := set_value new_value context in
      let context := set_updated_at now (Models.record_correction context) in
      let db := write_row context db in
      let current_version := _get_latest_version_number db context_id in
      let db := _create_version now db (id context) (current_version + 1)
                  new_value (interpretation context) (confidence context)
                  corrected_by (Some "User correction") (Some old_value) in
      Ok (db, context)
  end.

(** [ContextMemoryService.rollback] *)
Definition rollback (now : Z) (db : Db) (context_id : UUID) (to_version : Z)
    (rollback_by : string) : result (Db * Context) :=
  let* target :=
    scalar_one_or_none
      (List.filter (fun v => N.eqb (v_context_id v) context_id && (version v =? to_version))
              (context_versions db)) in
  match target with
  | None => Raise (ValueError "Version not found")
  | Some tv =>
      update now db context_id (Some (v_value tv)) (Some (v_confidence tv)) rollback_by
        (v_interpretation tv)
        (Some ("Rollback to version " ++ str_of_Z to_version)%string)
  end.

(** The [WHERE] clause of [cleanup_expired]. *)
Definition expired_ephemeral (now : Z) (c : Context) : bool :=
  MemoryTier_eqb (memory_tier c) EPHEMERAL
  && match expires_at c with Some e => e <? now | None => false end.

(** [ContextMemoryService.cleanup_expired]: the new tables and the row
    count; versions follow their context ([ON DELETE CASCADE]). *)
Definition cleanup_expired (now : Z) (db : Db) : Db * Z :=
  let gone := List.filter (expired_ephemeral now) (contexts db) in
  (mk_Db (List.filter (fun c => negb (expired_ephemeral now c)) (contexts db))
         (List.filter (fun v => negb (existsb (fun c => N.eqb (id c) (v_context_id v)) gone))
                 (context_versions db)),
   Z.of_nat (length gone)).

(** *** Sequences of service calls *)

Inductive call : Type :=
| Store (new_id uid : UUID) (ct : ContextType) (k : string) (value_ : dict)
        (tier : MemoryTier) (confidence_ : float) (source_ : string)
        (source_details_ interpretation_ : option dict)
        (session_id_ : option string) (ttl_seconds : option Z)
| Update (context_id : UUID) (value_ : option dict) (confidence_ : option float)
         (source_ : string) (interpretation_ : option dict)
         (change_reason_ : option string)
| Delete (context_id : UUID) (soft_delete : bool)
| ApplyDecay (uid : option UUID) (decay_factor min_confidence : float)
| Confirm (context_id : UUID)
| RecordCorrection (context_id : UUID) (new_value : dict) (corrected_by : string)
| Rollback (context_id : UUID) (to_version : Z) (rollback_by : string)
| CleanupExpired.

(** One call at clock reading [now]: the tables it leaves, or the
    exception it raises. *)
Definition exec (cfg : Settings) (now : Z) (c : call) (db : Db) : result Db :=
  match c with
  | Store new_id uid ct k v tier conf src sd ip sid ttl =>
      let* r := store cfg now db new_id uid ct k v tier conf src sd ip sid ttl in
      Ok (fst r)
  | Update cid v conf src ip reason =>
      let* r := update now db cid v conf src ip reason in Ok (fst r)
  | Delete cid soft => Ok (delete now db cid soft)
  | ApplyDecay uid factor floor => Ok (fst (apply_decay cfg now db uid factor floor))
  | Confirm cid => let* r := confirm now db cid in Ok (fst r)
  | RecordCorrection cid v by_ =>
      let* r := record_correction now db cid v by_ in Ok (fst r)
  | Rollback cid ver by_ => let* r := rollback now db cid ver by_ in Ok (fst r)
  | CleanupExpired => Ok (fst (cleanup_expired now db))
  end.

(** A call that raises leaves the tables as they were (the request's
    transaction is rolled back); the next call proceeds. *)
Definition step (cfg : Settings) (db : Db) (tc : Z * call) : Db :=
  try_except (exec cfg (fst tc) (snd tc) db) db.

Definition run (cfg : Settings) (calls : list (Z * call)) (db : Db) : Db :=
  fold_left (step cfg) calls db.

(** *** The invariants of the data model *)

(** At most one active record for every [(user_id, context_type, key)]. *)
Definition one_active (db : Db) : Prop :=
  forall uid ct k,
    (length (List.filter (key_matches uid ct k) (contexts db)) <= 1)%nat.

(** [correction_count >= 3] implies [drift_status = conflicting]. *)
Definition flagged (c : Context) : Prop :=
  3 <= correction_count c -> drift_status c = CONFLICTING.

Definition corrections_flagged (db : Db) : Prop := Forall flagged (contexts db).

(** The primary-key constraint of [contexts]. *)
Definition unique_ids (db : Db) : Prop := List.NoDup (List.map id (contexts db)).

(** The calls that assign [drift_status] without looking at
    [correction_count]. *)
Definition resets_status (c : call) : bool :=
  match c with
  | Confirm _ | ApplyDecay _ _ _ => true
  | _ => false
  end.

(** *** Row-level bookkeeping for the properties below *)

(** What [update] leaves alone. *)
Definition same_but_payload (c c' : Context) : Prop :=
  id c' = id c /\ user_id c' = user_id c /\ context_type c' = context_type c /\
  memory_tier c' = memory_tier c /\ key c' = key c /\
  source_details c' = source_details c /\ drift_status c' = drift_status c /\
  last_confirmed_at c' = last_confirmed_at c /\
  correction_count c' = correction_count c /\ expires_at c' = expires_at c /\
  is_active c' = is_active c /\ session_id c' = session_id c /\
  created_at c' = created_at c /\ deleted_at c' = deleted_at c.

(** How a call may change a row it keeps: the owner, type and key stay, the
    row is not re-activated, and [flagged] survives unless the call is one
    of those that assign the status outright. *)
Definition row_step (reset : bool) (r r' : Context) : Prop :=
  user_id r' = user_id r /\ context_type r' = context_type r /\ key r' = key r /\
  (is_active r' = true -> is_active r = true) /\
  (reset = false -> flagged r -> flagged r').

(** The three shapes the table can take after one call. *)
Inductive rows_after (c : call) (db db' : Db) : Prop :=
| rows_mapped (g : Context -> Context) :
    contexts db' = List.map g (contexts db) ->
    (forall r, In r (contexts db) -> row_step (resets_status c) r (g r)) ->
    rows_after c db db'
| rows_filtered (f : Context -> bool) :
    contexts db' = List.filter f (contexts db) ->
    rows_after c db db'
| rows_inserted (n : Context) :
    contexts db' = (contexts db ++ [n])%list ->
    correction_count n = 0 ->
    List.filter (key_matches (user_id n) (context_type n) (key n)) (contexts db) = [] ->
    rows_after c db db'.

(** *** Version history *)

(** The version rows of one context, in table order. *)
Definition versions_of (db : Db) (cid : UUID) : list ContextVersion :=
  List.filter (fun v => N.eqb (v_context_id v) cid) (context_versions db).

(** [ORDER BY version DESC]: rows with equal version numbers, which the
    database may return in any order, keep their table order here. *)
Fixpoint insert_version (x : ContextVersion) (l : list ContextVersion)
  : list ContextVersion :=
  match l with
  | [] => [x]
  | y :: l' => if version x <? version y then y :: insert_version x l' else x :: l
  end.

Definition newest_first (l : list ContextVersion) : list ContextVersion :=
  fold_right insert_version [] l.

(** [ContextMemoryService.get_history], for a non-negative [limit]. *)
Definition get_history (db : Db) (context_id : UUID) (limit : nat)
  : list ContextVersion :=
  firstn limit (newest_first (versions_of db context_id)).

(** Version numbers [1, 2, ..., n], in this order. *)
Definition numbered (vs : list ContextVersion) : Prop :=
  List.map version vs = List.map Z.of_nat (seq 1 (length vs)).

(** Primary keys are unique, every version row belongs to a row of
    [contexts] (the foreign key), and every context has a history numbered
    from 1 whose last row holds its current value. *)
Definition history_ok (db : Db) : Prop :=
  unique_ids db /\
  (forall v, In v (context_versions db) ->
     exists c, In c (contexts db) /\ id c = v_context_id v) /\
  (forall c, In c (contexts db) ->
     exists vs v, versions_of db (id c) = (vs ++ [v])%list /\
                  numbered (vs ++ [v]) /\ v_value v = value c).

(** The row [apply_decay] writes for a row it selects. *)
Definition decayed (now : Z) (decay_factor min_confidence : float) (r : Context)
  : Context :=
  set_updated_at now
    (set_drift_status STALE
       (set_confidence (greatest (confidence r * decay_factor) min_confidence) r)).

(** The columns no service call assigns once the row exists. *)
Definition same_identity (r r' : Context) : Prop :=
  id r' = id r /\ user_id r' = user_id r /\ context_type r' = context_type r /\
  key r' = key r /\ memory_tier r' = memory_tier r /\ expires_at r' = expires_at r /\
  session_id r' = session_id r /\ source_details r' = source_details r /\
  created_at r' = created_at r.


End Memory.

(* ===================================================================== *)
(** ** [app/engines/drift.py]                                             *)
(* ===================================================================== *)

Module Drift.
Import Py Models.
Local Open Scope string_scope.
Local Open Scope Z_scope.

Inductive DriftType : Type :=
| STALENESS
| CONFLICT
| CORRECTION_PATTERN
| BEHAVIORAL_MISMATCH.

Definition DriftType_eqb (a b : DriftType) : bool :=
  match a, b with
  | STALENESS, STALENESS | CONFLICT, CONFLICT
  | CORRECTION_PATTERN, CORRECTION_PATTERN
  | BEHAVIORAL_MISMATCH, BEHAVIORAL_MISMATCH => true
  | _, _ => false
  end.

Record DriftSignal : Type := mk_DriftSignal {
  drift_type : DriftType;
  context_id : UUID;
  context_key : string;
  severity : float;
  description : string;
  detected_at : Z;
  recommended_action : string;
}.

(** Class-level thresholds of [DriftDetector]. *)
Definition LOW_CONFIDENCE_THRESHOLD : float := 0.4.
Definition CRITICAL_CONFIDENCE_THRESHOLD : float := 0.2.

(** [DriftDetector._check_confidence] *)
Definition _check_confidence (now : Z) (context : Context) : option DriftSignal :=
  if PrimFloat.leb LOW_CONFIDENCE_THRESHOLD (confidence context) then None
  else
    let severity_ := (1.0 - confidence context / LOW_CONFIDENCE_THRESHOLD)%float in
    Some {| drift_type := STALENESS;
            context_id := id context;
            context_key := key context;
            severity := severity_;
            description := "Confidence is low (" ++ format_2f (confidence context) ++ ")";
            detected_at := now;
            recommended_action :=
              if PrimFloat.ltb (confidence context) CRITICAL_CONFIDENCE_THRESHOLD
              then "refresh" else "monitor" |}.

Import Py.Notations Calendar.

(** *** Arithmetic of the detector *)

(** [ZeroDivisionError], next to the exceptions of [Py]. *)
Inductive raised : Type :=
| ZeroDivisionError
| Builtin (e : exn).

Inductive checked (A : Type) : Type :=
| Done (a : A)
| Fail (r : raised).
Arguments Done {A} a.
Arguments Fail {A} r.

Definition lift {A : Type} (m : result A) : checked A :=
  match m with
  | Ok a => Done a
  | Raise e => Fail (Builtin e)
  end.

Definition and_then {A B : Type} (m : checked A) (k : A -> checked B) : checked B :=
  match m with
  | Done a => k a
  | Fail r => Fail r
  end.

(** The binary64 value nearest to [a / b] for integers [a] and [b <> 0],
    ties to even (an infinity beyond the range of [float]): the quotient
    is computed to at least 64 significant bits, with one more bit that
    records whether the division left a remainder. *)
Definition nearest_quotient (a b : Z) : spec_float :=
  let sign := (a <? 0) && (0 <? b) || (0 <? a) && (b <? 0) in
  let n := Z.abs a in
  let d := Z.abs b in
  let k := Z.max 0 (64 + Z.log2 d - Z.log2 n) in
  let q := (n * 2 ^ k) / d in
  let sticky := if (n * 2 ^ k) mod d =? 0 then 0 else 1 in
  let m := 2 * q + sticky in
  if a =? 0 then S754_zero (b <? 0)
  else binary_normalize prec emax (if sign then - m else m) (- k - 1) false.

(** [a / b] for two [int]s. *)
Definition int_truediv (a b : Z) : checked float :=
  if b =? 0 then Fail ZeroDivisionError
  else
    match nearest_quotient a b with
    | S754_infinity _ => Fail (Builtin OverflowError)
    | q => Done (SF2Prim q)
    end.

(** [x / n] and [x - n] for a [float] and an [int]. *)
Definition float_div_int (x : float) (n : Z) : checked float :=
  and_then (lift (float_of_int n)) (fun d =>
  if PrimFloat.eqb d 0 then Fail ZeroDivisionError else Done (x / d)%float).

Definition float_sub_int (x : float) (n : Z) : checked float :=
  and_then (lift (float_of_int n)) (fun d => Done (x - d)%float).

(** [int(x)] for a [float]: truncation towards zero. *)
Definition int_of_float (x : float) : result Z :=
  match Prim2SF x with
  | S754_nan => Raise (ValueError "cannot convert float NaN to integer")
  | S754_infinity _ => Raise OverflowError
  | S754_zero _ => Ok 0
  | S754_finite s m e =>
      let v := if 0 <=? e then Z.pos m * 2 ^ e else Z.pos m / 2 ^ (- e) in
      Ok (if s then - v else v)
  end.

(** [td.total_seconds()]: the microsecond count over [10**6] (within the
    range of [datetime] the quotient is finite). *)
Definition total_seconds (td : timedelta) : float :=
  SF2Prim (nearest_quotient td 1000000).

(** *** [DriftDetector] *)

Definition CRITICAL_STALENESS_HOURS : Z := 72.

(** [(now - context.updated_at).total_seconds() / 3600] *)
Definition age_hours (now : Z) (context : Context) : float :=
  PrimFloat.div (total_seconds (now - updated_at context)) 3600%float.

Section Detector.

(** The constructor arguments. *)
Variable staleness_hours : Z.
Variable correction_threshold : Z.

(** [DriftDetector._check_staleness] *)
Definition _check_staleness (now : Z) (context : Context) : checked (option DriftSignal) :=
  let staleness_hours_ :=
    if MemoryTier_eqb (memory_tier context) LONG_TERM
    then CRITICAL_STALENESS_HOURS * 7 else staleness_hours in
  let age := age_hours now context in
  if float_lt_int age staleness_hours_ then Done None
  else
    and_then (float_sub_int age staleness_hours_) (fun past =>
    and_then (float_div_int past staleness_hours_) (fun ratio =>
    let severity_ := py_min 1.0 ratio in
    and_then (lift (int_of_float age)) (fun hours =>
    Done (Some {| drift_type := STALENESS;
                  context_id := id context;
                  context_key := key context;
                  severity := severity_;
                  description :=
                    "Context is " ++ str_of_Z hours ++ " hours old (threshold: "
                    ++ str_of_Z staleness_hours_ ++ "h)";
                  detected_at := now;
                  recommended_action :=
                    if PrimFloat.ltb 0.5 severity_ then "refresh" else "monitor" |})))).

(** [DriftDetector._check_corrections] *)
Definition _check_corrections (now : Z) (context : Context) : checked (option DriftSignal) :=
  if correction_count context <? correction_threshold then Done None
  else
    and_then (int_truediv (correction_count context) (correction_threshold * 2))
      (fun ratio =>
    Done (Some {| drift_type := CORRECTION_PATTERN;
                  context_id := id context;
                  context_key := key context;
                  severity := py_min 1.0 ratio;
                  description :=
                    "Context has been corrected " ++ str_of_Z (correction_count context)
                    ++ " times";
                  detected_at := now;
                  recommended_action := "confirm_with_user" |})).

(** [signals.append(x)] when the check returned a signal. *)
Definition appended (signals : list DriftSignal) (x : option DriftSignal)
  : list DriftSignal :=
  match x with
  | Some s => (signals ++ [s])%list
  | None => signals
  end.

(** [DriftDetector.check_single]; the three checks read the clock one
    after the other. *)
Definition check_single (now1 now2 now3 : Z) (context : Context)
  : checked (list DriftSignal) :=
  and_then (_check_staleness now1 context) (fun staleness =>
  let signals := appended [] staleness in
  and_then (_check_corrections now2 context) (fun corrections =>
  let signals := appended signals corrections in
  Done (appended signals (_check_confidence now3 context)))).

(** [DriftDetector.should_refresh]; [Context.is_expired] reads the clock
    after the method did. *)
Definition should_refresh (now later : Z) (context : Context) : result (bool * string) :=
  let age := age_hours now context in
  if is_expired later context then Ok (true, "Context has expired")
  else if int_lt_float CRITICAL_STALENESS_HOURS age then
    let* hours := int_of_float age in
    Ok (true, "Context is " ++ str_of_Z hours ++ " hours old (critical)")
  else if DriftStatus_eqb (drift_status context) CONFLICTING then
    Ok (true, "Context has conflicting status")
  else if PrimFloat.ltb (confidence context) CRITICAL_CONFIDENCE_THRESHOLD then
    Ok (true, "Confidence too low (" ++ format_2f (confidence context) ++ ")")
  else if int_lt_float staleness_hours age && PrimFloat.ltb (confidence context) 0.7 then
    let* hours := int_of_float age in
    Ok (true, "Context is stale (" ++ str_of_Z hours ++ "h) with moderate confidence")
  else Ok (false, "Context is healthy").

End Detector.

(** [max(s.severity for s in signals)] for a non-empty list. *)
Definition max_severity (first : DriftSignal) (rest : list DriftSignal) : float :=
  fold_left py_max (List.map severity rest) (severity first).

(** [DriftDetector.update_drift_status]: the context with its new status,
    and the status. *)
Definition update_drift_status (context : Context) (signals : list DriftSignal)
  : Context * DriftStatus :=
  let new_status :=
    match signals with
    | [] => STABLE
    | _ =>
        if existsb (fun s => DriftType_eqb (drift_type s) CONFLICT) signals
        then CONFLICTING
        else if existsb (fun s => DriftType_eqb (drift_type s) CORRECTION_PATTERN) signals
        then CONFLICTING
        else
          match List.filter (fun s => DriftType_eqb (drift_type s) STALENESS) signals with
          | s :: rest =>
              if PrimFloat.ltb 0.7 (max_severity s rest) then STALE else DRIFTING
          | [] => DRIFTING
          end
    end in
  (set_drift_status new_status context, new_status).

Section Health.

(** The built-in [sum] over [float]s (its rounding differs between
    versions of the interpreter). *)
Variable py_sum : list float -> float.

(** [DriftDetector._calculate_health] *)
Definition _calculate_health (contexts : list Context) (signals : list DriftSignal)
  : float :=
  match contexts with
  | [] => 1.0
  | _ =>
      let health :=
        fold_left (fun health signal =>
                     if DriftType_eqb (drift_type signal) CONFLICT
                     then health - severity signal * 0.3
                     else if DriftType_eqb (drift_type signal) CORRECTION_PATTERN
                     then health - severity signal * 0.2
                     else if DriftType_eqb (drift_type signal) STALENESS
                     then health - severity signal * 0.15
                     else health - severity signal * 0.1)
                  signals 1.0 in
      let avg_confidence :=
        py_sum (List.map confidence contexts) / float_of_nat (length contexts) in
      let health := health * (0.5 + 0.5 * avg_confidence) in
      py_max 0.0 (py_min 1.0 health)
  end%float.

End Health.


End Drift.

(* ===================================================================== *)
(** ** [app/engines/temporal.py]                                          *)
(* ===================================================================== *)

Module Temporal.
Import Py Py.Notations Calendar.
Local Open Scope string_scope.
Local Open Scope Z_scope.

(** *** [app/schemas/temporal.py] *)

Inductive TimeOfDay : Type :=
| EARLY_MORNING | MORNING | AFTERNOON | EVENING | NIGHT | LATE_NIGHT.

Inductive DayType : Type := WEEKDAY | WEEKEND | HOLIDAY.

Inductive Season : Type := SPRING | SUMMER | AUTUMN | WINTER.

Inductive TimeReferenceType : Type :=
| ABSOLUTE | RELATIVE_DAY | RELATIVE_TIME | RELATIVE_PERIOD | IMPLICIT.

Record TemporalContext : Type := mk_TemporalContext {
  timestamp : datetime;
  timezone : string;
  date_ : date;
  time_ : Z;
  year : Z;
  month : Z;
  day : Z;
  hour : Z;
  minute : Z;
  weekday : Z;
  weekday_name : string;
  utc_offset_hours : Q;
  utc_timestamp : datetime;
  time_of_day : TimeOfDay;
  day_type : DayType;
  season : option Season;
  session_start : option any_datetime;
  session_duration_minutes : option Q;
}.

Record TimeReference : Type := mk_TimeReference {
  reference_text : string;
  reference_type_hint : option TimeReferenceType;
  context_hint : option string;
}.

Record ResolvedTimeReference : Type := mk_ResolvedTimeReference {
  original_reference : string;
  reference_type : TimeReferenceType;
  resolved_start : any_datetime;
  resolved_end : option any_datetime;
  resolution_method : string;
  confidence : float;
  is_ambiguous : bool;
  alternative_resolutions : list dict;
  human_readable : string;
}.

Record MidnightCrossoverContext : Type := mk_MidnightCrossoverContext {
  session_started_date : date;
  current_date : date;
  has_crossed_midnight : bool;
  today_interpretation : string;
  today_date : date;
  yesterday_interpretation : string;
  yesterday_date : date;
  crossover_confidence : float;
  reasoning : string;
}.

(** *** [TemporalEngine] *)

(** [TIME_OF_DAY_RANGES], in the order the dictionary lists them. *)
Definition TIME_OF_DAY_RANGES : list (TimeOfDay * (Z * Z)) :=
  [(LATE_NIGHT, (0, 5)); (EARLY_MORNING, (5, 8)); (MORNING, (8, 12));
   (AFTERNOON, (12, 17)); (EVENING, (17, 21)); (NIGHT, (21, 24))].

(** [RELATIVE_DAY_PATTERNS]: the literal between the two [\b] of each
    pattern, with its day offset, in the order the dictionary lists them. *)
Definition RELATIVE_DAY_PATTERNS : list (string * Z) :=
  [("day before yesterday", -2); ("day after tomorrow", 2);
   ("today", 0); ("yesterday", -1); ("tomorrow", 1)].

(** [RELATIVE_TIME_PATTERNS], likewise. *)
Definition RELATIVE_TIME_PATTERNS : list (string * string) :=
  [("now", "current"); ("right now", "current"); ("earlier", "past_session");
   ("just now", "recent"); ("recently", "recent"); ("a moment ago", "recent");
   ("soon", "near_future"); ("later", "future_session");
   ("shortly", "near_future")].

(** [TemporalEngine._get_time_of_day] *)
Definition _get_time_of_day (h : Z) : TimeOfDay :=
  match find (fun r => (fst (snd r) <=? h) && (h <? snd (snd r))) TIME_OF_DAY_RANGES with
  | Some r => fst r
  | None => NIGHT
  end.

(** [TemporalEngine._get_day_type] *)
Definition _get_day_type (dt : datetime) : DayType :=
  if 5 <=? weekday_of (dt_date dt) then WEEKEND else WEEKDAY.

(** [TemporalEngine._get_season] (northern hemisphere). *)
Definition _get_season (m : Z) : Season :=
  if existsb (Z.eqb m) [12; 1; 2] then WINTER
  else if existsb (Z.eqb m) [3; 4; 5] then SPRING
  else if existsb (Z.eqb m) [6; 7; 8] then SUMMER
  else if existsb (Z.eqb m) [9; 10; 11] then AUTUMN
  else WINTER.

(** [TemporalEngine.interpret]; [default_timezone] is the engine's
    constructor argument. *)
Definition interpret (db : tzdata) (default_timezone : string)
    (timestamp_ : any_datetime) (timezone_ : option string)
    (session_start_ : option any_datetime) : result TemporalContext :=
  let tz_str := str_or timezone_ default_timezone in
  let* tz := ZoneInfo db tz_str in
  let ts :=
    match timestamp_ with
    | Naive w => localize w tz
    | Aware dt => astimezone dt tz
    end in
  let* utc_zone := ZoneInfo db "UTC" in
  let utc_ts := astimezone ts utc_zone in
  let utc_offset_hours_ :=
    if utcoffset ts =? 0 then 0%Q else total_hours (utcoffset ts) in
  let '(yy, mm, dd) := civil_from_days (dt_date ts) in
  let* session_duration :=
    match session_start_ with
    | None => Ok None
    | Some (Aware s) => Ok (Some (total_minutes (dt_sub ts s)))
    | Some (Naive _) => Raise TypeError
    end in
  Ok {| timestamp := ts;
        timezone := tz_str;
        date_ := dt_date ts;
        time_ := dt_time ts;
        year := yy;
        month := mm;
        day := dd;
        hour := dt_hour ts;
        minute := dt_minute ts;
        weekday := weekday_of (dt_date ts);
        weekday_name := strftime ts "%A";
        utc_offset_hours := utc_offset_hours_;
        utc_timestamp := utc_ts;
        time_of_day := _get_time_of_day (dt_hour ts);
        day_type := _get_day_type ts;
        season := Some (_get_season mm);
        session_start := session_start_;
        session_duration_minutes := session_duration |}.

(** [TemporalEngine.handle_midnight_crossover] *)
Definition handle_midnight_crossover (db : tzdata)
    (session_start_ current_time : datetime) (timezone_ : string)
  : result MidnightCrossoverContext :=
  let* tz := ZoneInfo db timezone_ in
  let session_start_local := astimezone session_start_ tz in
  let current_local := astimezone current_time tz in
  let session_date := dt_date session_start_local in
  let current_date_ := dt_date current_local in
  let has_crossed := negb (session_date =? current_date_) in
  if negb has_crossed then
    Ok {| session_started_date := session_date;
          current_date := current_date_;
          has_crossed_midnight := false;
          today_interpretation := "the current calendar day";
          today_date := current_date_;
          yesterday_interpretation := "the previous calendar day";
          yesterday_date := current_date_ - 1;
          crossover_confidence := 0.95;
          reasoning := "Session has not crossed midnight, standard interpretation applies." |}
  else
    let hours_since_midnight :=
      (inject_Z (dt_hour current_local) + (dt_minute current_local # 60))%Q in
    let hours_in_session := total_hours (dt_sub current_time session_start_) in
    let '(today, conf, why) :=
      if Qltb hours_since_midnight 4 && Qltb hours_in_session 6 then
        (session_date, 0.7%float,
         "Session started at " ++ strftime session_start_local "%H:%M" ++ " "
         ++ "and current time is " ++ strftime current_local "%H:%M" ++ ". "
         ++ "Since it's early morning and the session is recent, "
         ++ "'today' likely refers to " ++ date_strftime session_date "%B %d" ++ ".")
      else
        (current_date_, 0.85%float,
         "Session has crossed midnight. Using calendar day interpretation. "
         ++ "'Today' refers to " ++ date_strftime current_date_ "%B %d" ++ ".") in
    Ok {| session_started_date := session_date;
          current_date := current_date_;
          has_crossed_midnight := true;
          today_interpretation := "refers to " ++ date_strftime today "%A, %B %d";
          today_date := today;
          yesterday_interpretation :=
            "refers to " ++ date_strftime (today - 1) "%A, %B %d";
          yesterday_date := today - 1;
          crossover_confidence := conf;
          reasoning := why |}.

(** [TemporalEngine._resolve_relative_day] *)
Definition _resolve_relative_day (db : tzdata) (text : string) (day_offset : Z)
    (anchor : TemporalContext) : result ResolvedTimeReference :=
  let resolved_date := date_ anchor + day_offset in
  let* z1 := ZoneInfo db (timezone anchor) in
  let resolved_start_ := combine resolved_date 0 z1 in
  let* z2 := ZoneInfo db (timezone anchor) in
  let resolved_end_ :=
    combine resolved_date (td_hours 23 + td_minutes 59 + td_seconds 59) z2 in
  Ok {| original_reference := text;
        reference_type := RELATIVE_DAY;
        resolved_start := Aware resolved_start_;
        resolved_end := Some (Aware resolved_end_);
        resolution_method := "relative_day_offset_" ++ str_of_Z day_offset;
        confidence := 0.95;
        is_ambiguous := false;
        alternative_resolutions := [];
        human_readable := date_strftime resolved_date "%A, %B %d, %Y" |}.

(** [TemporalEngine._resolve_relative_time] *)
Definition _resolve_relative_time (db : tzdata) (text time_type : string)
    (anchor : TemporalContext) : result ResolvedTimeReference :=
  if String.eqb time_type "current" then
    Ok {| original_reference := text;
          reference_type := RELATIVE_TIME;
          resolved_start := Aware (timestamp anchor);
          resolved_end := None;
          resolution_method := "current_moment";
          confidence := 0.99;
          is_ambiguous := false;
          alternative_resolutions := [];
          human_readable := strftime (timestamp anchor) "%I:%M %p" |}
  else if String.eqb time_type "recent" then
    let resolved_start_ := dt_add (timestamp anchor) (- td_minutes 15) in
    Ok {| original_reference := text;
          reference_type := RELATIVE_TIME;
          resolved_start := Aware resolved_start_;
          resolved_end := Some (Aware (timestamp anchor));
          resolution_method := "recent_window";
          confidence := 0.75;
          is_ambiguous := true;
          alternative_resolutions :=
            [[("window", JStr "5_minutes"); ("confidence", JFloat 0.5)];
             [("window", JStr "30_minutes"); ("confidence", JFloat 0.6)]];
          human_readable := "within the last few minutes" |}
  else if String.eqb time_type "past_session" then
    match session_start anchor with
    | Some s =>
        Ok {| original_reference := text;
              reference_type := RELATIVE_TIME;
              resolved_start := s;
              resolved_end := Some (Aware (dt_add (timestamp anchor) (- td_minutes 5)));
              resolution_method := "session_earlier";
              confidence := 0.7;
              is_ambiguous := true;
              alternative_resolutions := [];
              human_readable := "earlier in this session" |}
    | None =>
        let* z := ZoneInfo db (timezone anchor) in
        Ok {| original_reference := text;
              reference_type := RELATIVE_TIME;
              resolved_start := Aware (combine (date_ anchor) 0 z);
              resolved_end := Some (Aware (timestamp anchor));
              resolution_method := "earlier_today";
              confidence := 0.5;
              is_ambiguous := true;
              alternative_resolutions := [];
              human_readable := "earlier today" |}
    end
  else if String.eqb time_type "near_future" || String.eqb time_type "future_session" then
    let minutes_ahead := if String.eqb time_type "near_future" then 30 else 60 in
    Ok {| original_reference := text;
          reference_type := RELATIVE_TIME;
          resolved_start := Aware (timestamp anchor);
          resolved_end := Some (Aware (dt_add (timestamp anchor) (td_minutes minutes_ahead)));
          resolution_method := "future_" ++ str_of_Z minutes_ahead ++ "m";
          confidence := 0.6;
          is_ambiguous := true;
          alternative_resolutions := [];
          human_readable := "within the next " ++ str_of_Z minutes_ahead ++ " minutes" |}
  else
    Ok {| original_reference := text;
          reference_type := IMPLICIT;
          resolved_start := Aware (timestamp anchor);
          resolved_end := None;
          resolution_method := "fallback";
          confidence := 0.3;
          is_ambiguous := true;
          alternative_resolutions := [];
          human_readable := "(time reference unclear)" |}.

Section Resolve.

(** [datetime.strptime(text, fmt)]: the naive reading it parses, or
    [None] where it raises [ValueError].  The parser belongs to the
    platform; every statement below holds whatever it accepts. *)
Variable strptime : string -> string -> option Z.

Definition ABSOLUTE_FORMATS : list string :=
  ["%Y-%m-%d"; "%m/%d/%Y"; "%d/%m/%Y"; "%B %d, %Y"; "%B %d"; "%b %d, %Y"; "%b %d"].

(** [TemporalEngine._try_parse_absolute] *)
Fixpoint try_formats (db : tzdata) (text : string) (anchor : TemporalContext)
    (formats : list string) : result (option ResolvedTimeReference) :=
  match formats with
  | [] => Ok None
  | fmt :: rest =>
      match strptime text fmt with
      | None => try_formats db text anchor rest
      | Some parsed =>
          let '(yy, _, _) := civil_from_days (date_of_wall parsed) in
          match (if yy =? 1900 then replace_year parsed (year anchor) else Ok parsed) with
          | Raise (ValueError _) => try_formats db text anchor rest
          | Raise e => Raise e
          | Ok parsed =>
              let* z := ZoneInfo db (timezone anchor) in
              let parsed := localize parsed z in
              Ok (Some {| original_reference := text;
                          reference_type := ABSOLUTE;
                          resolved_start := Aware parsed;
                          resolved_end := None;
                          resolution_method := "parsed_format_" ++ fmt;
                          confidence := 0.9;
                          is_ambiguous := false;
                          alternative_resolutions := [];
                          human_readable := strftime parsed "%A, %B %d, %Y" |})
          end
      end
  end.

Definition _try_parse_absolute (db : tzdata) (text : string) (anchor : TemporalContext)
  : result (option ResolvedTimeReference) :=
  try_formats db text anchor ABSOLUTE_FORMATS.

(** [TemporalEngine.resolve_reference] *)
Definition resolve_reference (db : tzdata) (reference : TimeReference)
    (anchor_context : TemporalContext) : result ResolvedTimeReference :=
  let text := strip (lower (reference_text reference)) in
  match find (fun p => search_word (fst p) text) RELATIVE_DAY_PATTERNS with
  | Some (_, day_offset) => _resolve_relative_day db text day_offset anchor_context
  | None =>
      match find (fun p => search_word (fst p) text) RELATIVE_TIME_PATTERNS with
      | Some (_, time_type) => _resolve_relative_time db text time_type anchor_context
      | None =>
          let* absolute_result := _try_parse_absolute db text anchor_context in
          match absolute_result with
          | Some r => Ok r
          | None =>
              Ok {| original_reference := reference_text reference;
                    reference_type := IMPLICIT;
                    resolved_start := Aware (timestamp anchor_context);
                    resolved_end := None;
                    resolution_method := "fallback_to_current";
                    confidence := 0.2;
                    is_ambiguous := true;
                    alternative_resolutions := [];
                    human_readable :=
                      "(unable to resolve '" ++ text ++ "', using current time)" |}
          end
      end
  end.

End Resolve.

(** *** Semantic interpretation *)

Inductive UrgencyLevel : Type := URGENCY_LOW | URGENCY_MODERATE | URGENCY_HIGH.

Record TemporalInterpretation : Type := mk_TemporalInterpretation {
  i_time_of_day : TimeOfDay;
  time_of_day_description : string;
  i_day_type : DayType;
  is_weekend : bool;
  is_business_hours : bool;
  default_urgency : UrgencyLevel;
  urgency_reasoning : string;
  days_until_weekend : Z;
  is_end_of_day : bool;
  is_start_of_day : bool;
  likely_availability : string;
}.

Definition TimeOfDay_eqb (a b : TimeOfDay) : bool :=
  match a, b with
  | EARLY_MORNING, EARLY_MORNING | MORNING, MORNING | AFTERNOON, AFTERNOON
  | EVENING, EVENING | NIGHT, NIGHT | LATE_NIGHT, LATE_NIGHT => true
  | _, _ => false
  end.

Definition DayType_eqb (a b : DayType) : bool :=
  match a, b with
  | WEEKDAY, WEEKDAY | WEEKEND, WEEKEND | HOLIDAY, HOLIDAY => true
  | _, _ => false
  end.

(** [TIME_OF_DAY_DESCRIPTIONS] *)
Definition TIME_OF_DAY_DESCRIPTIONS (t : TimeOfDay) : string :=
  match t with
  | LATE_NIGHT => "late at night"
  | EARLY_MORNING => "early in the morning"
  | MORNING => "in the morning"
  | AFTERNOON => "in the afternoon"
  | EVENING => "in the evening"
  | NIGHT => "at night"
  end.

(** [TemporalEngine._infer_urgency] *)
Definition _infer_urgency (context : TemporalContext) : UrgencyLevel * string :=
  if TimeOfDay_eqb (time_of_day context) LATE_NIGHT
     || TimeOfDay_eqb (time_of_day context) EARLY_MORNING
  then (URGENCY_LOW, "Late night/early morning suggests non-urgent context")
  else if DayType_eqb (day_type context) WEEKEND
  then (URGENCY_LOW, "Weekend suggests leisure time, lower default urgency")
  else if DayType_eqb (day_type context) WEEKDAY && (16 <=? hour context)
  then (URGENCY_MODERATE, "End of business day, moderate urgency")
  else if DayType_eqb (day_type context) WEEKDAY
          && ((9 <=? hour context) && (hour context <? 17))
  then (URGENCY_MODERATE, "Business hours, standard working urgency")
  else (URGENCY_LOW, "Outside typical work hours").

(** [TemporalEngine._days_until_weekend] *)
Definition _days_until_weekend (weekday_ : Z) : Z :=
  if 5 <=? weekday_ then 0 else 5 - weekday_.

(** [TemporalEngine._infer_availability] *)
Definition _infer_availability (context : TemporalContext) : string :=
  if TimeOfDay_eqb (time_of_day context) LATE_NIGHT
  then "likely sleeping or winding down"
  else if TimeOfDay_eqb (time_of_day context) EARLY_MORNING
  then "likely waking up or preparing for day"
  else if DayType_eqb (day_type context) WEEKEND
  then (if TimeOfDay_eqb (time_of_day context) MORNING
           || TimeOfDay_eqb (time_of_day context) AFTERNOON
        then "likely free (weekend daytime)"
        else "likely relaxing")
  else if (9 <=? hour context) && (hour context <? 17) then "likely working"
  else if 17 <=? hour context then "likely finished work, personal time"
  else "availability uncertain".

(** [TemporalEngine.get_interpretation]; the schema accepts
    [days_until_weekend] between 0 and 6 and raises a validation error
    (a [ValueError]) otherwise. *)
Definition get_interpretation (context : TemporalContext)
  : result TemporalInterpretation :=
  let time_description := TIME_OF_DAY_DESCRIPTIONS (time_of_day context) in
  let is_business_hours_ :=
    DayType_eqb (day_type context) WEEKDAY
    && ((9 <=? hour context) && (hour context <? 17)) in
  let '(urgency, urgency_reasoning_) := _infer_urgency context in
  let days := _days_until_weekend (weekday context) in
  let availability := _infer_availability context in
  if (0 <=? days) && (days <=? 6) then
    Ok {| i_time_of_day := time_of_day context;
          time_of_day_description := time_description;
          i_day_type := day_type context;
          is_weekend := DayType_eqb (day_type context) WEEKEND;
          is_business_hours := is_business_hours_;
          default_urgency := urgency;
          urgency_reasoning := urgency_reasoning_;
          days_until_weekend := days;
          is_end_of_day := 17 <=? hour context;
          is_start_of_day := hour context <? 10;
          likely_availability := availability |}
  else Raise (ValueError "days_until_weekend").


(** The part of the day of every hour of the clock. *)
Definition part_of_day (h : Z) : TimeOfDay :=
  if h <? 5 then LATE_NIGHT
  else if h <? 8 then EARLY_MORNING
  else if h <? 12 then MORNING
  else if h <? 17 then AFTERNOON
  else if h <? 21 then EVENING
  else NIGHT.

(** What [interpret] guarantees of the fields [get_interpretation] reads. *)
Definition coherent (ctx : TemporalContext) : Prop :=
  0 <= hour ctx < 24 /\ 0 <= weekday ctx < 7 /\
  time_of_day ctx = part_of_day (hour ctx) /\
  day_type ctx = (if 5 <=? weekday ctx then WEEKEND else WEEKDAY).

(** The confidences a resolution is returned with. *)
Definition CONFIDENCES : list float := [0.95; 0.99; 0.75; 0.7; 0.5; 0.6; 0.3; 0.9; 0.2]%float.

(** A resolution is flagged as ambiguous exactly when its confidence is
    below 0.9, and its confidence is one of the nine the engine assigns. *)
Definition flagged_by_confidence (r : ResolvedTimeReference) : Prop :=
  In (confidence r) CONFIDENCES /\
  is_ambiguous r = PrimFloat.ltb (confidence r) 0.9.


End Temporal.

(* ===================================================================== *)
(** ** [app/core/event_bus.py]                                            *)
(* ===================================================================== *)

Module Bus.
Import Py Py.Notations Calendar.
Local Open Scope string_scope.
Local Open Scope Z_scope.

(** *** Fast path *)

Record AtomicContext : Type := mk_AtomicContext {
  timestamp : datetime;
  timestamp_iso : string;
  day_of_week : string;
  day_of_week_number : Z;
  time_of_day : string;
  hour_24 : Z;
  minute : Z;
  timezone : string;
  timezone_offset : string;
  locale : string;
  language : string;
  currency : string;
  date_format : string;
}.

(** [AtomicContext(timestamp=..., timezone=..., timezone_offset=...,
    locale=..., language=..., currency=..., date_format=...)]: the fields
    left at their defaults are filled in by [__post_init__]. *)
Definition new_AtomicContext (ts : datetime) (tz_name offset_ locale_ language_
    currency_ date_format_ : string) : AtomicContext :=
  let h := dt_hour ts in
  {| timestamp := ts;
     timestamp_iso := isoformat ts;
     day_of_week := strftime ts "%A";
     day_of_week_number := weekday_of (dt_date ts);
     time_of_day :=
       if (5 <=? h) && (h <? 12) then "morning"
       else if (12 <=? h) && (h <? 17) then "afternoon"
       else if (17 <=? h) && (h <? 21) then "evening"
       else "night";
     hour_24 := h;
     minute := dt_minute ts;
     timezone := tz_name;
     timezone_offset := offset_;
     locale := locale_;
     language := language_;
     currency := currency_;
     date_format := date_format_ |}.

(** [EventBus.resolve_atomic_context]; [now] is the clock reading that
    [datetime.now] takes. *)
Definition resolve_atomic_context (db : tzdata) (now : Z)
    (user_timezone user_locale user_language user_currency : string)
  : AtomicContext :=
  let '(now_, user_timezone) :=
    try_except
      (let* tz := ZoneInfo db user_timezone in Ok (mk_datetime now tz, user_timezone))
      (mk_datetime now utc, "UTC") in
  let offset := strftime now_ "%z" in
  let offset_formatted :=
    if (String.length offset =? 5)%nat
    then substring 0 3 offset ++ ":" ++ substring 3 (String.length offset - 3) offset
    else "+00:00" in
  let date_format_ :=
    if startswith "en-GB" user_locale || startswith "en-AU" user_locale
    then "DD/MM/YYYY"
    else if startswith "zh" user_locale || startswith "ja" user_locale
            || startswith "ko" user_locale
    then "YYYY/MM/DD"
    else "MM/DD/YYYY" in
  new_AtomicContext now_ user_timezone offset_formatted user_locale user_language
    user_currency date_format_.

(** *** Slow path *)

Record HighEntropyContext : Type := mk_HighEntropyContext {
  request_id : string;
  vector_memories : Json;
  web_grounding : Json;
  cross_session_insights : Json;
  semantic_relations : Json;
  resolved_at : option Z;
}.

(** The bus's tables.  An [asyncio.Event] is its flag.  [delivered] and
    [issued] are not fields of [EventBus]: the first records what the
    awaiting callers were handed, the second which request ids
    [resolve_with_timeout] has drawn so far. *)
Record EventBus : Type := mk_EventBus {
  _pending_requests : gmap string bool;
  _results : gmap string HighEntropyContext;
  delivered : list (string * HighEntropyContext);
  issued : gset string;
}.

Definition new_EventBus : EventBus := mk_EventBus ∅ ∅ [] ∅.

(** [HighEntropyContext(request_id=..., resolved_at=now)] *)
Definition empty_context (rid : string) (now : Z) : HighEntropyContext :=
  mk_HighEntropyContext rid (JList []) (JList []) (JList []) (JList []) (Some now).

(** [EventBus.handle_response].  A response without [request_id], or
    with an empty one, is ignored.  Request ids are [str(uuid4())]; a
    response whose [request_id] is not a string names no request and is
    left out of the tables here. *)
Definition handle_response (now : Z) (response_data : dict) (bus : EventBus) : EventBus :=
  match get response_data "request_id" with
  | JStr rid =>
      if String.eqb rid "" then bus
      else
        let high_entropy :=
          {| request_id := rid;
             vector_memories := get_default response_data "vector_memories" (JList []);
             web_grounding := get_default response_data "web_grounding" (JList []);
             cross_session_insights :=
               get_default response_data "cross_session_insights" (JList []);
             semantic_relations :=
               get_default response_data "semantic_relations" (JList []);
             resolved_at := Some now |} in
        let results := <[rid := high_entropy]> (_results bus) in
        let pending :=
          match _pending_requests bus !! rid with
          | Some _ => <[rid := true]> (_pending_requests bus)
          | None => _pending_requests bus
          end in
        mk_EventBus pending results (delivered bus) (issued bus)
  | _ => bus
  end.

(** The steps of [_request_high_entropy_context] between its suspension
    points, and the listener's step. *)
Inductive action : Type :=
| Register (rid : string)
    (** up to [await event.wait()]: the entry is stored *)
| Respond (now : Z) (response_data : dict)
    (** the listener runs [handle_response] *)
| Resume (now : Z) (rid : string)
    (** the event is set and the waiter runs on: it pops the result,
        hands it to the caller, and the [finally] block pops the entry *)
| Cancel (rid : string)
    (** the deadline of [asyncio.wait_for] elapses while the waiter is
        suspended: it is cancelled and the [finally] block pops the entry *).

(** One step; [None] when the step cannot happen in that state. *)
Definition step (bus : EventBus) (a : action) : option EventBus :=
  match a with
  | Register rid =>
      if decide (rid ∈ issued bus) then None
      else Some (mk_EventBus (<[rid := false]> (_pending_requests bus)) (_results bus)
                             (delivered bus) ({[rid]} ∪ issued bus))
  | Respond now response_data => Some (handle_response now response_data bus)
  | Resume now rid =>
      match _pending_requests bus !! rid with
      | Some true =>
          let result := from_option id (empty_context rid now) (_results bus !! rid) in
          Some (mk_EventBus (delete rid (_pending_requests bus))
                            (delete rid (_results bus))
                            (delivered bus ++ [(rid, result)])
                            (issued bus))
      | _ => None
      end
  | Cancel rid =>
      match _pending_requests bus !! rid with
      | Some _ =>
          Some (mk_EventBus (delete rid (_pending_requests bus)) (_results bus)
                            (delivered bus) (issued bus))
      | None => None
      end
  end.

Fixpoint run (bus : EventBus) (trace : list action) : option EventBus :=
  match trace with
  | [] => Some bus
  | a :: rest =>
      match step bus a with
      | Some bus' => run bus' rest
      | None => None
      end
  end.

(** How many times the caller of request [rid] was handed a context. *)
Definition deliveries (rid : string) (bus : EventBus) : nat :=
  length (List.filter (fun d => String.eqb (fst d) rid) (delivered bus)).

(** *** Predicates on bus states *)

(** A request that is still pending was issued and has been handed
    nothing; a request never issued has been handed nothing; nobody has
    been handed more than one context. *)
Definition consistent (bus : EventBus) : Prop :=
  forall rid,
    (is_Some (_pending_requests bus !! rid) ->
     rid ∈ issued bus /\ deliveries rid bus = 0%nat) /\
    (rid ∉ issued bus -> deliveries rid bus = 0%nat) /\
    (deliveries rid bus <= 1)%nat.

(** A request whose entry is gone: it was issued, it is not pending. *)
Definition forgotten (rid : string) (bus : EventBus) : Prop :=
  rid ∈ issued bus /\ _pending_requests bus !! rid = None.

Definition after (bus : EventBus) (trace : list action) : EventBus :=
  from_option (fun b => b) bus (run bus trace).

(** *** Where delivered contexts come from *)

(** The context [handle_response] builds from a response. *)
Definition response_context (now : Z) (rid : string) (response_data : dict)
  : HighEntropyContext :=
  {| request_id := rid;
     vector_memories := get_default response_data "vector_memories" (JList []);
     web_grounding := get_default response_data "web_grounding" (JList []);
     cross_session_insights :=
       get_default response_data "cross_session_insights" (JList []);
     semantic_relations :=
       get_default response_data "semantic_relations" (JList []);
     resolved_at := Some now |}.

(** A context was built from a response of the trace that names the
    request. *)
Definition answers (trace : list action) (rid : string) (ctx : HighEntropyContext)
  : Prop :=
  exists now data,
    In (Respond now data) trace /\
    get data "request_id" = JStr rid /\ rid <> "" /\
    ctx = response_context now rid data.

(** Whenever the event of a request is set, its result is buffered; what
    is buffered or was delivered answers the request it is filed under. *)
Definition backed (trace : list action) (bus : EventBus) : Prop :=
  (forall rid, _pending_requests bus !! rid = Some true ->
               is_Some (_results bus !! rid)) /\
  (forall rid ctx, _results bus !! rid = Some ctx -> answers trace rid ctx) /\
  (forall rid ctx, In (rid, ctx) (delivered bus) -> answers trace rid ctx).


(** *** The offset string of the fast path *)

(** The offset string [resolve_atomic_context] derives from [strftime("%z")]. *)
Definition offset_formatted (offset : string) : string :=
  if (String.length offset =? 5)%nat
  then substring 0 3 offset ++ ":" ++ substring 3 (String.length offset - 3) offset
  else "+00:00".

(** For an offset of [m] whole minutes, the string is the ISO form. *)
Definition minute_offset_ok (m : Z) : bool :=
  String.eqb (offset_formatted (fmt_offset (td_minutes m))) (iso_offset (td_minutes m)).


End Bus.

(* ===================================================================== *)
(** ** [app/engines/composer.py]                                          *)
(* ===================================================================== *)

Module Composer.
Import Py Py.Notations.
Local Open Scope string_scope.
Local Open Scope Z_scope.

Inductive ContextRelevance : Type := CRITICAL | HIGH | MEDIUM | LOW | IRRELEVANT.

Inductive InjectionStyle : Type := SYSTEM_PROMPT | CONTEXT_BLOCK | INLINE | METADATA.

Definition ContextRelevance_eqb (a b : ContextRelevance) : bool :=
  match a, b with
  | CRITICAL, CRITICAL | HIGH, HIGH | MEDIUM, MEDIUM
  | LOW, LOW | IRRELEVANT, IRRELEVANT => true
  | _, _ => false
  end.

Record ContextElement : Type := mk_ContextElement {
  key : string;
  value : Json;
  context_type : string;
  relevance : ContextRelevance;
  confidence : Json;
  token_estimate : Z;
  interpretation : option string;
}.

(** [ContextElement.inclusion_score] *)
Definition relevance_weights (r : ContextRelevance) : float :=
  match r with
  | CRITICAL => 1.0
  | HIGH => 0.8
  | MEDIUM => 0.5
  | LOW => 0.2
  | IRRELEVANT => 0.0
  end.

Definition inclusion_score (e : ContextElement) : result float :=
  float_mul (relevance_weights (relevance e)) (confidence e).

(** [ComposedPrompt]; its [metadata] and [composition_time] are left out. *)
Record ComposedPrompt : Type := mk_ComposedPrompt {
  system_context : string;
  user_message : string;
  included_context : list ContextElement;
  excluded_context : list ContextElement;
  total_tokens : Z;
}.

Definition TEMPORAL_KEYWORDS : list string :=
  ["today"; "tomorrow"; "yesterday"; "now"; "later"; "soon";
   "morning"; "afternoon"; "evening"; "night"; "week"; "month";
   "schedule"; "meeting"; "deadline"; "when"; "time"; "date";
   "remind"; "appointment"; "calendar"; "o'clock"; "am"; "pm"].

Definition SPATIAL_KEYWORDS : list string :=
  ["here"; "there"; "near"; "nearby"; "local"; "location";
   "weather"; "timezone"; "country"; "city"; "region";
   "restaurant"; "store"; "place"; "address"; "directions"].

Definition SITUATIONAL_KEYWORDS : list string :=
  ["this"; "that"; "it"; "they"; "continue"; "again";
   "same"; "previous"; "earlier"; "before"; "last time";
   "as i said"; "mentioned"; "working on"; "project"].

(** The dictionary [_analyze_message] returns. *)
Record Signals : Type := mk_Signals {
  temporal : float;
  spatial : float;
  situational : float;
}.

Definition keyword_matches (keywords : list string) (message_lower : string) : nat :=
  length (List.filter (fun kw => contains kw message_lower) keywords).

(** [PromptComposer._analyze_message] *)
Definition _analyze_message (message : string) : Signals :=
  let message_lower := lower message in
  let max_keywords := 5%float in
  let score kws := py_min 1.0 (float_of_nat (keyword_matches kws message_lower) / max_keywords) in
  {| temporal := score TEMPORAL_KEYWORDS;
     spatial := score SPATIAL_KEYWORDS;
     situational := score SITUATIONAL_KEYWORDS |}.

(** [PromptComposer._score_to_relevance] *)
Definition _score_to_relevance (score : float) : ContextRelevance :=
  if PrimFloat.leb 0.8 score then CRITICAL
  else if PrimFloat.leb 0.6 score then HIGH
  else if PrimFloat.leb 0.4 score then MEDIUM
  else if PrimFloat.leb 0.2 score then LOW
  else IRRELEVANT.

(** [x[0]] *)
Definition first_item (x : Json) : result Json :=
  match x with
  | JList (y :: _) => Ok y
  | JList [] => Raise IndexError
  | JStr (String a _) => Ok (JStr (String a ""))
  | JStr EmptyString => Raise IndexError
  | JDict _ => Raise KeyError
  | _ => Raise TypeError
  end.

Section Compose.

Variable float_repr : float -> string.

(** [json.dumps(data, indent=2, default=str)] *)
Variable json_dumps : Json -> string.

(** The constructor arguments [max_tokens] and [min_relevance]. *)
Variable max_tokens : Z.
Variable min_relevance : float.

(** [PromptComposer._build_temporal_elements] *)
Definition _build_temporal_elements (context : dict) (signals : Signals)
  : result (list ContextElement) :=
  let base_relevance := temporal signals in
  let* first :=
    if dict_has context "current_time" || dict_has context "formatted" then
      let time_info := get_default context "formatted" (JDict []) in
      let* v_time := attr_get time_info "time" (get context "current_time") in
      let* v_date := attr_get time_info "date" JNull in
      let* v_day := attr_get time_info "day_of_week" JNull in
      let* conf := attr_get (get_default context "confidence" (JDict [])) "score" (JFloat 0.8) in
      let* tod := attr_get time_info "time_of_day" (JStr "unknown time") in
      let* dow := attr_get time_info "day_of_week" (JStr "a day") in
      Ok [ {| key := "current_time";
              value := JDict [("time", v_time); ("date", v_date); ("day", v_day);
                              ("timezone", get context "timezone")];
              context_type := "temporal";
              relevance := _score_to_relevance (0.3 + base_relevance * 0.7)%float;
              confidence := conf;
              token_estimate := 30;
              interpretation :=
                Some ("It is currently " ++ py_str float_repr tod
                      ++ " on " ++ py_str float_repr dow) |} ]
    else Ok [] in
  let* second :=
    match dict_get context "semantics" with
    | Some semantics =>
        let* v_tod := attr_get semantics "time_of_day" JNull in
        let* v_weekend := attr_get semantics "is_weekend" JNull in
        let* v_business := attr_get semantics "is_business_hours" JNull in
        let* conf := attr_get (get_default context "confidence" (JDict [])) "score" (JFloat 0.7) in
        Ok [ {| key := "time_semantics";
                value := JDict [("time_of_day", v_tod); ("is_weekend", v_weekend);
                                ("is_business_hours", v_business)];
                context_type := "temporal";
                relevance := _score_to_relevance (base_relevance * 0.8)%float;
                confidence := conf;
                token_estimate := 25;
                interpretation := None |} ]
    | None => Ok []
    end in
  Ok (first ++ second)%list.

(** [PromptComposer._build_spatial_elements] *)
Definition _build_spatial_elements (context : dict) (signals : Signals)
  : result (list ContextElement) :=
  let base_relevance := spatial signals in
  let* first :=
    if dict_has context "country" || dict_has context "region" then
      let* conf := attr_get (get_default context "confidence" (JDict [])) "score" (JFloat 0.6) in
      Ok [ {| key := "location";
              value := JDict [("country", get context "country");
                              ("region", get context "region");
                              ("city", get context "city")];
              context_type := "spatial";
              relevance := _score_to_relevance (0.2 + base_relevance * 0.6)%float;
              confidence := conf;
              token_estimate := 20;
              interpretation := None |} ]
    else Ok [] in
  let* second :=
    if dict_has context "locale" then
      let* conf := attr_get (get_default context "confidence" (JDict [])) "score" (JFloat 0.7) in
      Ok [ {| key := "locale";
              value := JDict [("locale", get context "locale");
                              ("language", get context "language");
                              ("currency", get context "currency");
                              ("units", get context "units")];
              context_type := "spatial";
              relevance := _score_to_relevance (base_relevance * 0.5)%float;
              confidence := conf;
              token_estimate := 25;
              interpretation := None |} ]
    else Ok [] in
  Ok (first ++ second)%list.

(** [PromptComposer._build_situational_elements] *)
Definition _build_situational_elements (context : dict) (signals : Signals)
  : result (list ContextElement) :=
  let base_relevance := situational signals in
  let active_tasks := get_default context "active_tasks" (JList []) in
  let* task :=
    if truthy active_tasks then
      let* primary_task := first_item active_tasks in
      if truthy primary_task then
        let* v_description := attr_get primary_task "description" JNull in
        let* v_status := attr_get primary_task "status" JNull in
        let* conf := attr_get primary_task "confidence" (JFloat 0.6) in
        let* what := attr_get primary_task "description" (JStr "unknown task") in
        Ok [ {| key := "current_task";
                value := JDict [("description", v_description); ("status", v_status)];
                context_type := "situational";
                relevance := _score_to_relevance (0.4 + base_relevance * 0.6)%float;
                confidence := conf;
                token_estimate := 35;
                interpretation := Some ("User is working on: " ++ py_str float_repr what) |} ]
      else Ok []
    else Ok [] in
  let thread := get context "current_thread" in
  let* conversation :=
    if truthy thread then
      let* count := attr_get thread "message_count" (JInt 0) in
      let* several := gt_int count 1 in
      if several then
        let* v_topic := attr_get thread "topic" JNull in
        let* v_count := attr_get thread "message_count" JNull in
        let* v_duration := attr_get thread "duration_minutes" JNull in
        Ok [ {| key := "conversation_context";
                value := JDict [("topic", v_topic); ("message_count", v_count);
                                ("duration_minutes", v_duration)];
                context_type := "situational";
                relevance := _score_to_relevance (base_relevance * 0.7)%float;
                confidence := JFloat 0.7;
                token_estimate := 20;
                interpretation := None |} ]
      else Ok []
    else Ok [] in
  let assumptions := get_default context "implicit_assumptions" (JDict []) in
  let assumed :=
    if truthy assumptions then
      [ {| key := "assumptions";
           value := assumptions;
           context_type := "situational";
           relevance := _score_to_relevance (base_relevance * 0.5)%float;
           confidence := JFloat 0.5;
           token_estimate := 40;
           interpretation := None |} ]
    else [] in
  Ok (task ++ conversation ++ assumed)%list.

(** [elements.sort(key=lambda e: e.inclusion_score, reverse=True)]: the
    keys are computed first (any of them may raise), then the elements are
    put in descending key order, elements with equal keys keeping their
    relative order. *)
Fixpoint insert_desc (x : float * ContextElement) (l : list (float * ContextElement))
  : list (float * ContextElement) :=
  match l with
  | [] => [x]
  | y :: l' =>
      if PrimFloat.ltb (fst x) (fst y) then y :: insert_desc x l' else x :: l
  end.

Fixpoint with_scores (elements : list ContextElement)
  : result (list (float * ContextElement)) :=
  match elements with
  | [] => Ok []
  | e :: rest =>
      let* k := inclusion_score e in
      let* rest' := with_scores rest in
      Ok ((k, e) :: rest')
  end.

Definition sort_by_score (elements : list ContextElement) : result (list ContextElement) :=
  let* keyed := with_scores elements in
  Ok (List.map snd (fold_right insert_desc [] keyed)).

(** [PromptComposer._select_elements]: the loop, with [included] and
    [excluded] accumulated in reverse. *)
Fixpoint select_loop (elements included excluded : list ContextElement)
    (current_tokens : Z) : result (list ContextElement * list ContextElement) :=
  match elements with
  | [] => Ok (rev included, rev excluded)
  | element :: rest =>
      if ContextRelevance_eqb (relevance element) IRRELEVANT then
        select_loop rest included (element :: excluded) current_tokens
      else
        let* low := lt_float (confidence element) min_relevance in
        if low then select_loop rest included (element :: excluded) current_tokens
        else if current_tokens + token_estimate element <=? max_tokens then
          select_loop rest (element :: included) excluded
                      (current_tokens + token_estimate element)
        else if ContextRelevance_eqb (relevance element) CRITICAL then
          select_loop rest (element :: included) excluded
                      (current_tokens + token_estimate element)
        else select_loop rest included (element :: excluded) current_tokens
  end.

Definition _select_elements (elements : list ContextElement)
  : result (list ContextElement * list ContextElement) :=
  select_loop elements [] [] 0.

(** [PromptComposer._value_to_string] *)
Definition _value_to_string (v : Json) : string :=
  match v with
  | JDict d =>
      join ", "
        (List.map (fun kv => fst kv ++ "=" ++ py_str float_repr (snd kv))
           (List.filter (fun kv => match snd kv with JNull => false | _ => true end) d))
  | JList l => join ", " (List.map (py_str float_repr) l)
  | _ => py_str float_repr v
  end.

(** The line an element contributes where its interpretation, when it has
    a non-empty one, replaces the [key: value] rendering. *)
Definition interpreted_line (elem : ContextElement) : string :=
  match interpretation elem with
  | Some i => if String.eqb i "" then key elem ++ ": " ++ _value_to_string (value elem) else i
  | None => key elem ++ ": " ++ _value_to_string (value elem)
  end.

Definition of_type (t : string) (elements : list ContextElement) : list ContextElement :=
  List.filter (fun e => String.eqb (context_type e) t) elements.

Definition bullet (text : string) : string := "- " ++ text.
Definition heading (text : string) : string := nl ++ text.

(** [PromptComposer._format_as_system_prompt] *)
Definition _format_as_system_prompt (elements : list ContextElement) : string :=
  let lines := ["## Current Context"] in
  let lines :=
    match of_type "temporal" elements with
    | [] => lines
    | es => (lines ++ [heading "### Time & Date"]
                   ++ List.map (fun elem => bullet (interpreted_line elem)) es)%list
    end in
  let lines :=
    match of_type "spatial" elements with
    | [] => lines
    | es => (lines ++ [heading "### Location"]
                   ++ List.map (fun elem =>
                                  bullet (String.append (key elem)
                                            (String.append ": " (_value_to_string (value elem)))))
                               es)%list
    end in
  let lines :=
    match of_type "situational" elements with
    | [] => lines
    | es => (lines ++ [heading "### Context"]
                   ++ List.map (fun elem => bullet (interpreted_line elem)) es)%list
    end in
  let lines :=
    (lines ++ [heading "---";
               "Use this context to ground your responses in the user's reality.";
               "Do not mention this context unless directly relevant to the user's query."])%list in
  join nl lines.

(** [PromptComposer._format_as_context_block] *)
Definition _format_as_context_block (elements : list ContextElement) : string :=
  let context_data :=
    fold_left (fun data elem =>
                 dict_set data (key elem)
                   (JDict [("value", value elem);
                           ("type", JStr (context_type elem));
                           ("confidence", confidence elem)]))
              elements [] in
  "<context>" ++ nl ++ json_dumps (JDict context_data) ++ nl ++ "</context>".

(** [PromptComposer._format_as_inline] *)
Definition _format_as_inline (elements : list ContextElement) : string :=
  "[Context: " ++ join "; " (List.map interpreted_line elements) ++ "]".

(** [PromptComposer._format_context] *)
Definition _format_context (elements : list ContextElement) (style : InjectionStyle)
  : string :=
  match elements with
  | [] => ""
  | _ =>
      match style with
      | SYSTEM_PROMPT => _format_as_system_prompt elements
      | CONTEXT_BLOCK => _format_as_context_block elements
      | INLINE => _format_as_inline elements
      | METADATA => _format_as_system_prompt elements
      end
  end.

(** [if ctx:] for an optional dictionary argument. *)
Definition given (ctx : option dict) : option dict :=
  match ctx with
  | Some [] => None
  | Some d => Some d
  | None => None
  end.

(** [PromptComposer.compose] *)
Definition compose (user_message_ : string)
    (temporal_context spatial_context situational_context : option dict)
    (injection_style : InjectionStyle) : result ComposedPrompt :=
  let relevance_signals := _analyze_message user_message_ in
  let* from_temporal :=
    match given temporal_context with
    | Some c => _build_temporal_elements c relevance_signals
    | None => Ok []
    end in
  let* from_spatial :=
    match given spatial_context with
    | Some c => _build_spatial_elements c relevance_signals
    | None => Ok []
    end in
  let* from_situational :=
    match given situational_context with
    | Some c => _build_situational_elements c relevance_signals
    | None => Ok []
    end in
  let* elements := sort_by_score (from_temporal ++ from_spatial ++ from_situational)%list in
  let* selected := _select_elements elements in
  let included := fst selected in
  let excluded := snd selected in
  Ok {| system_context := _format_context included injection_style;
        user_message := user_message_;
        included_context := included;
        excluded_context := excluded;
        total_tokens := fold_left Z.add (List.map token_estimate included) 0 |}.

End Compose.




(** *** Accounting for the selection *)

(** [sum(e.token_estimate for e in elements)] *)
Definition tokens (elements : list ContextElement) : Z :=
  fold_left Z.add (List.map token_estimate elements) 0.

(** [ComposedPrompt.get_full_system_prompt] *)
Definition get_full_system_prompt (self : ComposedPrompt) (base_prompt : option string)
  : string :=
  let parts :=
    match base_prompt with
    | Some b => if String.eqb b "" then [] else [b]
    | None => []
    end in
  let parts :=
    if String.eqb (system_context self) "" then parts
    else (parts ++ [system_context self])%list in
  join (nl ++ nl) parts.

(** What the loop of [_select_elements] keeps true of [included] and
    [current_tokens]. *)
Definition kept (max_tokens : Z) (min_relevance : float)
    (included : list ContextElement) (current_tokens : Z) : Prop :=
  current_tokens = tokens included /\
  (Forall (fun e => relevance e <> IRRELEVANT /\
                    lt_float (confidence e) min_relevance = Ok false) included) /\
  (included = [] \/ current_tokens <= max_tokens \/
   exists e, In e included /\ relevance e = CRITICAL).

(** The signal [_analyze_message] computes for [n] matched keywords. *)
Definition signal (n : nat) : float := py_min 1.0 (float_of_nat n / 5).

(** The elements built whatever the context are relevant at any signal:
    [current_time], [location] and [current_task], the last above low. *)
Definition relevant_at_all (n : nat) : bool :=
  negb (ContextRelevance_eqb (_score_to_relevance (0.3 + signal n * 0.7)) IRRELEVANT)
  && negb (ContextRelevance_eqb (_score_to_relevance (0.2 + signal n * 0.6)) IRRELEVANT)
  && negb (ContextRelevance_eqb (_score_to_relevance (0.4 + signal n * 0.6)) IRRELEVANT)
  && negb (ContextRelevance_eqb (_score_to_relevance (0.4 + signal n * 0.6)) LOW).

(** The key and the relevance an element can have, by builder. *)
Definition temporal_shape (signals : Signals) (e : ContextElement) : Prop :=
  (key e = "current_time" /\
   relevance e = _score_to_relevance (0.3 + temporal signals * 0.7)) \/
  (key e = "time_semantics" /\
   relevance e = _score_to_relevance (temporal signals * 0.8)).

Definition spatial_shape (signals : Signals) (e : ContextElement) : Prop :=
  (key e = "location" /\
   relevance e = _score_to_relevance (0.2 + spatial signals * 0.6)) \/
  (key e = "locale" /\
   relevance e = _score_to_relevance (spatial signals * 0.5)).

Definition situational_shape (signals : Signals) (e : ContextElement) : Prop :=
  (key e = "current_task" /\
   relevance e = _score_to_relevance (0.4 + situational signals * 0.6)) \/
  (key e = "conversation_context" /\
   relevance e = _score_to_relevance (situational signals * 0.7)) \/
  (key e = "assumptions" /\
   relevance e = _score_to_relevance (situational signals * 0.5)).

(** The candidates of one [compose] call. *)
Definition built (msg : string) (tc sc uc : option dict)
    (elements : list ContextElement) : Prop :=
  exists t s u,
    elements = (t ++ s ++ u)%list /\
    Forall (temporal_shape (_analyze_message msg)) t /\
    Forall (spatial_shape (_analyze_message msg)) s /\
    Forall (situational_shape (_analyze_message msg)) u /\
    (given tc = None -> t = []) /\ (given sc = None -> s = []) /\
    (given uc = None -> u = []).


End Composer.

(* ===================================================================== *)
(** ** Sample data                                                        *)
(* ===================================================================== *)

Module Samples.
Import Py Calendar Config Models Memory Bus.
Local Open Scope string_scope.
Local Open Scope Z_scope.

(** *** Context memory *)

(** A stable record stored with confidence 0.9, as in scenario 4. *)
Definition stable_record : Context :=
  {| id := 7%N; user_id := 1%N; context_type := SITUATIONAL;
     memory_tier := SHORT_TERM; key := "project_status_key";
     value := [("project", JStr "Alpha"); ("status", JStr "in_progress")];
     interpretation := None; confidence := 0.9; source := "system";
     source_details := None; drift_status := STABLE; last_confirmed_at := None;
     correction_count := 0; expires_at := None; is_active := true;
     session_id := None; created_at := 0; updated_at := 0; deleted_at := None |}.

Definition stable_db : Db :=
  mk_Db [stable_record]
        [mk_ContextVersion 7%N 1 (value stable_record) None 0.9 "system"
           (Some "Initial creation") None 0].

Definition project_value : dict := [("project", JStr "Alpha")].

Definition store_project (new_id : UUID) (conf : float) : call :=
  Store new_id 1%N SITUATIONAL "project" project_value SHORT_TERM conf "system"
        None None None None.

(** [store], three corrections, then [confirm]. *)
Definition corrected_then_confirmed : list (Z * call) :=
  [(0, store_project 7%N 0.9);
   (10, RecordCorrection 7%N [("project", JStr "Beta")] "user");
   (20, RecordCorrection 7%N [("project", JStr "Gamma")] "user");
   (30, RecordCorrection 7%N [("project", JStr "Delta")] "user");
   (40, Confirm 7%N)].

(** [store], three corrections, then [apply_decay] two days later. *)
Definition corrected_then_decayed : list (Z * call) :=
  [(0, store_project 7%N 0.9);
   (10, RecordCorrection 7%N [("project", JStr "Beta")] "user");
   (20, RecordCorrection 7%N [("project", JStr "Gamma")] "user");
   (30, RecordCorrection 7%N [("project", JStr "Delta")] "user");
   (td_days 2, ApplyDecay None 0.95 0.1)].

(** The same without the [confirm]. *)
Definition corrected_thrice : list (Z * call) :=
  [(0, store_project 7%N 0.9);
   (10, RecordCorrection 7%N [("project", JStr "Beta")] "user");
   (20, RecordCorrection 7%N [("project", JStr "Gamma")] "user");
   (30, RecordCorrection 7%N [("project", JStr "Delta")] "user")].




(** A record with confidence 0.3, as in [test_low_confidence_flagged]. *)
Definition doubtful_record : Context :=
  {| id := 5%N; user_id := 1%N; context_type := TEMPORAL;
     memory_tier := SHORT_TERM; key := "timezone";
     value := [("timezone", JStr "America/New_York")];
     interpretation := None; confidence := 0.3; source := "inference";
     source_details := None; drift_status := STABLE; last_confirmed_at := None;
     correction_count := 0; expires_at := None; is_active := true;
     session_id := None; created_at := 0; updated_at := 0; deleted_at := None |}.

(** *** Clock readings *)

(** The scenario of the specification: a session started on
    2026-01-03 at 23:00 (UTC-5), read at 00:30 the next day. *)
Definition session_2300 : datetime :=
  mk_datetime (20457 * US_PER_DAY + td_hours 4) utc.
Definition now_0030 : datetime :=
  mk_datetime (20457 * US_PER_DAY + td_hours 5 + td_minutes 30) utc.

(** A reading taken on 2026-01-04 at 05:30 UTC. *)
Definition reading : Z := 20457 * US_PER_DAY + td_hours 5 + td_minutes 30.

(** *** The resolution bus *)

(** A request that times out, its late response, and a second request
    that is answered in time. *)
Definition late_answer : dict :=
  [("request_id", JStr "r1"); ("vector_memories", JList [JStr "m1"])].

Definition busy_afterwards : list action :=
  [Register "r2";
   Respond 300 [("request_id", JStr "r2")];
   Resume 310 "r2"].

Definition waiting_bus : EventBus := after new_EventBus [Register "r1"].
Definition timed_out_bus : EventBus := after waiting_bus [Cancel "r1"].
Definition final_bus : EventBus :=
  after timed_out_bus (Respond 200 late_answer :: busy_afterwards).

(** *** Situational maps *)


Definition leaky_situation : dict :=
  [("implicit_assumptions",
    JDict [("api_key", JStr "sk-0123456789abcdef0123456789abcdef")])].

Definition no_floats (x : float) : string := "".
Definition no_json (x : Json) : string := "".

(** *** Histories *)

(** The tables after [store] and three corrections, the record they hold
    and its first version row. *)
Definition thrice_corrected_db : Db := Memory.run default_settings corrected_thrice empty_db.

Definition thrice_corrected_record : Context :=
  hd stable_record (contexts thrice_corrected_db).

Definition first_version : ContextVersion :=
  hd (mk_ContextVersion 0%N 0 [] None 0 "" None None 0)
     (context_versions thrice_corrected_db).

(** [stable_db] after its record was confirmed at clock reading 10. *)
Definition confirmed_db : Db := Memory.step default_settings stable_db (10, Confirm 7%N).

Definition confirmed_record : Context := hd stable_record (contexts confirmed_db).

(** A response to request [r2] and the bus after the request was answered. *)
Definition answer_r2 : dict := [("request_id", JStr "r2")].

Definition answered_bus : EventBus := after new_EventBus busy_afterwards.

(** *** Prompts *)

(** A temporal context and a question about the weather; the prompt
    composed from them, and from [leaky_situation]. *)
Definition morning_context : dict :=
  [("current_time", JStr "09:30"); ("timezone", JStr "UTC")].

Definition weather_message : string := "what is the weather here today".

Definition empty_prompt : Composer.ComposedPrompt :=
  Composer.mk_ComposedPrompt "" "" [] [] 0.

Definition weather_prompt : Composer.ComposedPrompt :=
  match Composer.compose no_floats no_json 500 0.3 weather_message
          (Some morning_context) None None Composer.SYSTEM_PROMPT with
  | Ok r => r
  | Raise _ => empty_prompt
  end.

Definition leaky_result : Composer.ComposedPrompt :=
  match Composer.compose no_floats no_json 500 0.3 "Continue this project" None None
          (Some leaky_situation) Composer.SYSTEM_PROMPT with
  | Ok r => r
  | Raise _ => empty_prompt
  end.

Definition no_element : Composer.ContextElement :=
  Composer.mk_ContextElement "" JNull "" Composer.IRRELEVANT JNull 0 None.

Definition current_time_element : Composer.ContextElement :=
  hd no_element (Composer.included_context weather_prompt).

Definition assumptions_element : Composer.ContextElement :=
  hd no_element (Composer.included_context leaky_result).

(** Two candidates that fit a budget of 50 tokens and one that does not. *)
Definition three_candidates : list Composer.ContextElement :=
  [Composer.mk_ContextElement "a" (JStr "x") "temporal" Composer.HIGH (JFloat 0.9) 30 None;
   Composer.mk_ContextElement "b" (JStr "y") "spatial" Composer.MEDIUM (JFloat 0.8) 30 None;
   Composer.mk_ContextElement "c" (JStr "z") "spatial" Composer.LOW (JFloat 0.8) 20 None].

(** *** Interpreted readings *)

Definition no_context : Temporal.TemporalContext :=
  Temporal.mk_TemporalContext (mk_datetime 0 utc) "" 0 0 0 0 0 0 0 0 "" 0
    (mk_datetime 0 utc) Temporal.NIGHT Temporal.WEEKDAY None None None.

(** [reading], interpreted in UTC. *)
Definition reading_context : Temporal.TemporalContext :=
  match Temporal.interpret sample_tzdata "UTC" (Aware (mk_datetime reading utc))
          None None with
  | Ok c => c
  | Raise _ => no_context
  end.

(** A parser that accepts nothing. *)
Definition no_parse (text fmt : string) : option Z := None.

(** *** Drift *)

(** The record of [corrected_then_confirmed]: three corrections, then
    confirmed, and the signals the default detector finds for it a minute
    later. *)
Definition reconfirmed_record : Context :=
  hd stable_record (contexts (Memory.run default_settings corrected_then_confirmed empty_db)).

Definition reconfirmed_signals : list Drift.DriftSignal :=
  match Drift.check_single 24 3 (td_minutes 1) (td_minutes 1) (td_minutes 1)
          reconfirmed_record with
  | Drift.Done l => l
  | Drift.Fail _ => []
  end.


End Samples.

(* ===================================================================== *)
(** * Properties                                                          *)
(* ===================================================================== *)

(** ** Context memory *)

Module MemoryFacts.
Import Py Py.Notations Calendar Config Models Memory Samples.
Local Open Scope string_scope.
Local Open Scope Z_scope.

(** *** Queries *)

Lemma scalar_one_or_none_some {A : Type} (rows : list A) (r : A) :
  scalar_one_or_none rows = Ok (Some r) <-> rows = [r].
Proof.
  split.
  - destruct rows as [|a [|b rows]]; simpl; intros H; inversion H; reflexivity.
  - intros ->. reflexivity.
Qed.

Lemma scalar_one_or_none_none {A : Type} (rows : list A) :
  scalar_one_or_none rows = Ok None <-> rows = [].
Proof.
  split.
  - destruct rows as [|a [|b rows]]; simpl; intros H; inversion H; reflexivity.
  - intros ->. reflexivity.
Qed.

Lemma filter_singleton_unique {A : Type} (f : A -> bool) (l : list A) (x r : A) :
  List.filter f l = [x] -> In r l -> f r = true -> r = x.
Proof.
  intros Hf Hin Hr.
  assert (Hr' : In r (List.filter f l)) by (apply List.filter_In; auto).
  rewrite Hf in Hr'. destruct Hr' as [->|[]]. reflexivity.
Qed.

Lemma filter_singleton_in {A : Type} (f : A -> bool) (l : list A) (x : A) :
  List.filter f l = [x] -> In x l /\ f x = true.
Proof.
  intros Hf. apply List.filter_In. rewrite Hf. left. reflexivity.
Qed.

(** Mapping a table with a function that leaves the selected column
    values alone commutes with the selection. *)
Lemma filter_map_stable {A : Type} (f : A -> bool) (g : A -> A) (l : list A) :
  (forall r, In r l -> f (g r) = f r) ->
  List.filter f (List.map g l) = List.map g (List.filter f l).
Proof.
  induction l as [|a l IH]; simpl; intros H; [reflexivity|].
  rewrite (H a) by (left; reflexivity).
  rewrite IH by (intros r Hr; apply H; right; exact Hr).
  destruct (f a); reflexivity.
Qed.

Lemma get_by_id_some (db : Db) (cid : UUID) (c : Context) :
  get_by_id db cid = Ok (Some c) ->
  In c (contexts db) /\ id c = cid /\
  (forall r, In r (contexts db) -> id r = cid -> r = c).
Proof.
  unfold get_by_id. rewrite scalar_one_or_none_some. intros Hf.
  destruct (filter_singleton_in _ _ _ Hf) as [Hin Hid].
  apply N.eqb_eq in Hid. repeat split; auto.
  intros r Hr Hrid. eapply filter_singleton_unique; eauto.
  apply N.eqb_eq. exact Hrid.
Qed.

(** Writing a row back under its key replaces exactly that row. *)
Lemma get_by_id_write_row (db : Db) (cid : UUID) (c c' : Context) :
  get_by_id db cid = Ok (Some c) -> id c' = cid ->
  get_by_id (write_row c' db) cid = Ok (Some c').
Proof.
  unfold get_by_id, write_row. simpl. rewrite !scalar_one_or_none_some.
  intros Hf Hid. rewrite filter_map_stable.
  - rewrite Hf. simpl. rewrite Hid.
    destruct (filter_singleton_in _ _ _ Hf) as [_ ->]. reflexivity.
  - intros r _. destruct (N.eqb (id r) (id c')) eqn:E; [|reflexivity].
    apply N.eqb_eq in E. rewrite E. reflexivity.
Qed.

Lemma get_by_id_create_version now db cid' ver val ip cf by_ reason prev cid :
  get_by_id (_create_version now db cid' ver val ip cf by_ reason prev) cid
  = get_by_id db cid.
Proof. reflexivity. Qed.

(** *** [record_correction] *)

Lemma record_correction_ok now db cid v by_ c :
  get_by_id db cid = Ok (Some c) ->
  exists db',
    let c' := set_updated_at now (Models.record_correction (set_value v c)) in
    record_correction now db cid v by_ = Ok (db', c') /\
    get_by_id db' cid = Ok (Some c') /\
    contexts db' = contexts (write_row c' db).
Proof.
  intros Hget. unfold record_correction. rewrite Hget. simpl.
  eexists. split; [reflexivity|]. split; [|reflexivity].
  rewrite get_by_id_create_version.
  eapply get_by_id_write_row; [exact Hget|].
  destruct (get_by_id_some _ _ _ Hget) as (_ & Hid & _).
  destruct c; simpl in *. unfold Models.record_correction; simpl.
  destruct (3 <=? _); exact Hid.
Qed.

Lemma record_correction_fields v now (c : Context) :
  let c' := set_updated_at now (Models.record_correction (set_value v c)) in
  correction_count c' = correction_count c + 1 /\
  confidence c' = py_max 0.0 (confidence c - 0.2) /\
  drift_status c' =
    (if 3 <=? correction_count c + 1 then CONFLICTING else drift_status c).
Proof.
  destruct c; unfold Models.record_correction; simpl.
  destruct (3 <=? _); simpl; auto.
Qed.

(** *** [update] and [store] *)

Lemma update_spec now db cid v cf src ip reason db' c' :
  update now db cid v cf src ip reason = Ok (db', c') ->
  exists c,
    get_by_id db cid = Ok (Some c) /\
    same_but_payload c c' /\
    value c' = from_option (fun x => x) (value c) v /\
    confidence c' = from_option (fun x => x) (confidence c) cf /\
    interpretation c' = match ip with Some i => Some i | None => interpretation c end /\
    source c' = src /\
    updated_at c' = now /\
    contexts db' = List.map (fun r => if N.eqb (id r) (id c') then c' else r) (contexts db).
Proof.
  unfold update. destruct (get_by_id db cid) as [[c|]|e] eqn:Hget; simpl;
    intros H; inversion H; subst; clear H.
  exists c. split; [reflexivity|].
  destruct c, v, cf, ip; simpl; unfold same_but_payload; simpl;
    repeat split; reflexivity.
Qed.


(** C4.  Three calls of [record_correction] on a record that starts with
    confidence 0.9, status stable and no correction leave it with three
    corrections, status conflicting and a confidence strictly below 0.3:
    each call subtracts 0.2 in binary64, and [0.9 - 0.2 - 0.2 - 0.2] is
    [0.29999999999999993]. *)
Theorem three_corrections_make_conflicting :
  forall db cid c t1 t2 t3 v1 v2 v3 by1 by2 by3,
    get_by_id db cid = Ok (Some c) ->
    confidence c = 0.9%float ->
    drift_status c = STABLE ->
    correction_count c = 0 ->
    exists db1 c1 db2 c2 db3 c3,
      record_correction t1 db cid v1 by1 = Ok (db1, c1) /\
      record_correction t2 db1 cid v2 by2 = Ok (db2, c2) /\
      record_correction t3 db2 cid v3 by3 = Ok (db3, c3) /\
      get_by_id db3 cid = Ok (Some c3) /\
      confidence c1 = py_max 0.0 (confidence c - 0.2) /\
      confidence c2 = py_max 0.0 (confidence c1 - 0.2) /\
      confidence c3 = py_max 0.0 (confidence c2 - 0.2) /\
      correction_count c3 = 3 /\
      drift_status c3 = CONFLICTING /\
      confidence c3 = 0.29999999999999993%float /\
      PrimFloat.ltb (confidence c3) 0.3 = true.
Proof.
  intros db cid c t1 t2 t3 v1 v2 v3 by1 by2 by3 Hget Hconf Hdrift Hcount.
  destruct (record_correction_ok t1 db cid v1 by1 c Hget) as (db1 & H1 & G1 & _).
  destruct (record_correction_fields v1 t1 c) as (N1 & F1 & D1).
  set (c1 := set_updated_at t1 (Models.record_correction (set_value v1 c))) in *.
  destruct (record_correction_ok t2 db1 cid v2 by2 c1 G1) as (db2 & H2 & G2 & _).
  destruct (record_correction_fields v2 t2 c1) as (N2 & F2 & D2).
  set (c2 := set_updated_at t2 (Models.record_correction (set_value v2 c1))) in *.
  destruct (record_correction_ok t3 db2 cid v3 by3 c2 G2) as (db3 & H3 & G3 & _).
  destruct (record_correction_fields v3 t3 c2) as (N3 & F3 & D3).
  set (c3 := set_updated_at t3 (Models.record_correction (set_value v3 c2))) in *.
  exists db1, c1, db2, c2, db3, c3.
  repeat (split; [assumption|]).
  assert (E3 : correction_count c3 = 3) by lia.
  assert (C3 : confidence c3 = 0.29999999999999993%float).
  { rewrite F3, F2, F1, Hconf. reflexivity. }
  split; [exact E3|]. split.
  - rewrite D3, N2, N1, Hcount. reflexivity.
  - split; [exact C3|]. rewrite C3. reflexivity.
Qed.

(** *** What one call does to the rows *)

Lemma row_step_refl reset r : row_step reset r r.
Proof. unfold row_step; tauto. Qed.

Lemma row_step_payload reset c c' : same_but_payload c c' -> row_step reset c c'.
Proof.
  unfold same_but_payload, row_step, flagged.
  intros (_ & Hu & Ht & _ & Hk & _ & Hd & _ & Hc & _ & Ha & _).
  rewrite Hu, Ht, Hk, Hd, Hc, Ha. tauto.
Qed.

Lemma record_correction_frame v now (c : Context) :
  let c' := set_updated_at now (Models.record_correction (set_value v c)) in
  id c' = id c /\ user_id c' = user_id c /\ context_type c' = context_type c /\
  key c' = key c /\ is_active c' = is_active c.
Proof.
  destruct c; unfold Models.record_correction; simpl.
  destruct (3 <=? _); simpl; repeat split; reflexivity.
Qed.

Lemma row_step_correction now v c :
  row_step false c (set_updated_at now (Models.record_correction (set_value v c))).
Proof.
  destruct (record_correction_fields v now c) as (Hn & _ & Hd).
  destruct (record_correction_frame v now c) as (_ & Hu & Ht & Hk & Ha).
  unfold row_step, flagged. rewrite Hu, Ht, Hk, Ha, Hn, Hd.
  repeat split; auto.
  intros _ _ H3. destruct (3 <=? correction_count c + 1) eqn:E; [reflexivity|].
  apply Z.leb_gt in E. lia.
Qed.

Lemma rows_after_write_row call db cid c c' :
  get_by_id db cid = Ok (Some c) ->
  id c' = id c ->
  row_step (resets_status call) c c' ->
  forall db', contexts db' = contexts (write_row c' db) -> rows_after call db db'.
Proof.
  intros Hget Hid Hstep db' Hrows.
  destruct (get_by_id_some _ _ _ Hget) as (_ & Hcid & Huniq).
  eapply rows_mapped; [exact Hrows|].
  intros r Hr. simpl. destruct (N.eqb (id r) (id c')) eqn:E.
  - apply N.eqb_eq in E. rewrite (Huniq r Hr) by congruence. exact Hstep.
  - apply row_step_refl.
Qed.

Lemma rows_after_update call now db cid v cf src ip reason db' c' :
  update now db cid v cf src ip reason = Ok (db', c') ->
  rows_after call db db'.
Proof.
  intros H. destruct (update_spec _ _ _ _ _ _ _ _ _ _ H)
    as (c & Hget & Hsame & _ & _ & _ & _ & _ & Hrows).
  apply (rows_after_write_row call db cid c c' Hget).
  - apply Hsame.
  - apply row_step_payload, Hsame.
  - exact Hrows.
Qed.

Lemma exec_rows cfg now call db db' :
  exec cfg now call db = Ok db' -> rows_after call db db'.
Proof.
  destruct call; simpl.
  - (* Store *)
    unfold store.
    destruct (_get_by_key db uid ct k) as [[e|]|?] eqn:Hkey; simpl; try discriminate.
    + destruct (update _ _ _ _ _ _ _ _) as [[d c']|?] eqn:Hu; simpl; [|discriminate].
      intros H; inversion H; subst. eapply rows_after_update; eauto.
    + unfold insert_row. destruct (existsb _ _); simpl; [discriminate|].
      intros H; inversion H; subst; clear H.
      eapply rows_inserted; simpl; [reflexivity|reflexivity|].
      apply scalar_one_or_none_none. exact Hkey.
  - (* Update *)
    destruct (update _ _ _ _ _ _ _ _) as [[d c']|?] eqn:Hu; simpl; [|discriminate].
    intros H; inversion H; subst. eapply rows_after_update; eauto.
  - (* Delete *)
    intros H; inversion H; subst; clear H. unfold delete.
    destruct soft_delete.
    + eapply rows_mapped; [reflexivity|].
      intros r _. cbv beta.
      destruct (N.eqb (id r) context_id); [|apply row_step_refl].
      destruct r; unfold row_step, flagged; simpl. repeat split; auto; discriminate.
    + eapply rows_filtered. reflexivity.
  - (* ApplyDecay *)
    intros H; inversion H; subst; clear H.
    eapply rows_mapped; [reflexivity|].
    intros r _. cbv beta.
    destruct (decays _ _ _ _ r); [|apply row_step_refl].
    destruct r; unfold row_step; simpl. repeat split; auto; discriminate.
  - (* Confirm *)
    unfold confirm.
    destruct (get_by_id db context_id) as [[c|]|?] eqn:Hget; simpl; try discriminate.
    intros H; inversion H; subst; clear H.
    eapply (rows_after_write_row _ db context_id c); [exact Hget| | |reflexivity].
    + destruct c; reflexivity.
    + destruct c; unfold row_step; simpl. repeat split; auto; discriminate.
  - (* RecordCorrection *)
    destruct (record_correction now db context_id new_value corrected_by)
      as [[d c']|?] eqn:Hr; simpl; [|discriminate].
    intros H; inversion H; subst; clear H.
    unfold record_correction in Hr.
    destruct (get_by_id db context_id) as [[c|]|?] eqn:Hget; simpl in Hr; try discriminate.
    inversion Hr; subst; clear Hr.
    eapply (rows_after_write_row _ db context_id c); [exact Hget| | |reflexivity].
    + apply record_correction_frame.
    + apply row_step_correction.
  - (* Rollback *)
    unfold rollback.
    destruct (scalar_one_or_none _) as [[tv|]|?]; simpl; try discriminate.
    destruct (update _ _ _ _ _ _ _ _) as [[d c']|?] eqn:Hu; simpl; [|discriminate].
    intros H; inversion H; subst. eapply rows_after_update; eauto.
  - (* CleanupExpired *)
    intros H; inversion H; subst; clear H.
    eapply rows_filtered. reflexivity.
Qed.

(** *** The flagging invariant *)

Lemma step_corrections_flagged cfg now call db :
  resets_status call = false ->
  corrections_flagged db ->
  corrections_flagged (step cfg db (now, call)).
Proof.
  intros Hcall Hinv. unfold step. simpl.
  destruct (exec cfg now call db) as [db'|?] eqn:Hexec; simpl; [|exact Hinv].
  unfold corrections_flagged in *.
  destruct (exec_rows _ _ _ _ _ Hexec) as [g Hrows Hg|f Hrows|n Hrows Hcount _];
    rewrite Hrows.
  - rewrite Hcall in Hg. apply List.Forall_forall. intros r' Hr'.
    apply List.in_map_iff in Hr'. destruct Hr' as (r & <- & Hr).
    apply (Hg r Hr); [reflexivity|].
    rewrite List.Forall_forall in Hinv. apply Hinv, Hr.
  - apply List.Forall_forall. intros r Hr. apply List.filter_In in Hr.
    rewrite List.Forall_forall in Hinv. apply Hinv, Hr.
  - apply List.Forall_app. split; [exact Hinv|].
    constructor; [|constructor]. unfold flagged. rewrite Hcount. lia.
Qed.

(** C3, as amended.  [correction_count >= 3 -> drift_status = conflicting]
    is kept by every sequence of service calls that holds no [confirm] and
    no [apply_decay]: [store], [update], [delete], [record_correction],
    [rollback] and [cleanup_expired] keep it, whether they return or
    raise. *)
Theorem corrections_stay_flagged :
  forall cfg calls db,
    Forall (fun tc => resets_status (snd tc) = false) calls ->
    corrections_flagged db ->
    corrections_flagged (run cfg calls db).
Proof.
  intros cfg calls. unfold run.
  induction calls as [|[now call] calls IH]; simpl; intros db Hcalls Hinv.
  - exact Hinv.
  - inversion Hcalls as [|? ? Hcall Hrest]; subst. simpl in Hcall.
    apply IH; [exact Hrest|].
    apply step_corrections_flagged; assumption.
Qed.

(** *** At most one active record *)









Lemma three_corrections_witness :
  exists db1 c1 db2 c2 db3 c3,
    record_correction 10 stable_db 7%N [("status", JStr "blocked")] "user" = Ok (db1, c1) /\
    record_correction 20 db1 7%N [("status", JStr "done")] "user" = Ok (db2, c2) /\
    record_correction 30 db2 7%N [("status", JStr "reopened")] "user" = Ok (db3, c3) /\
    get_by_id db3 7%N = Ok (Some c3) /\
    correction_count c3 = 3 /\
    drift_status c3 = CONFLICTING /\
    confidence c3 = 0.29999999999999993%float /\
    PrimFloat.ltb (confidence c3) 0.3 = true.
Proof.
  destruct (three_corrections_make_conflicting stable_db 7%N stable_record
              10 20 30 [("status", JStr "blocked")] [("status", JStr "done")]
              [("status", JStr "reopened")] "user" "user" "user")
    as (db1 & c1 & db2 & c2 & db3 & c3 & H1 & H2 & H3 & Hg & _ & _ & _ & Hn & Hd & Hc & Hlt);
    try reflexivity.
  exists db1, c1, db2, c2, db3, c3. repeat split; assumption.
Defined.

(** *** [store] over an existing record *)

Lemma filter_id_absent (l : list Context) (cid : UUID) :
  ~ In cid (List.map id l) ->
  List.filter (fun c => N.eqb (id c) cid) l = [].
Proof.
  induction l as [|a l IH]; simpl; intros H; [reflexivity|].
  destruct (N.eqb (id a) cid) eqn:E.
  - apply N.eqb_eq in E. exfalso. apply H. left. exact E.
  - apply IH. intros Hin. apply H. right. exact Hin.
Qed.

Lemma unique_ids_get_by_id db e :
  unique_ids db -> In e (contexts db) -> get_by_id db (id e) = Ok (Some e).
Proof.
  unfold unique_ids, get_by_id. intros Hnd Hin.
  apply scalar_one_or_none_some.
  induction (contexts db) as [|a l IH]; simpl in *; [contradiction|].
  inversion Hnd as [|? ? Hnotin Hnd']; subst.
  destruct Hin as [->|Hin].
  - rewrite N.eqb_refl. f_equal. apply filter_id_absent, Hnotin.
  - destruct (N.eqb (id a) (id e)) eqn:E.
    + apply N.eqb_eq in E. exfalso. apply Hnotin. rewrite E.
      apply List.in_map, Hin.
    + apply IH; assumption.
Qed.


(** *** Worked sequences *)

(** C3, counterexample.  After three corrections the record is
    conflicting; [confirm] then sets it back to stable while its
    [correction_count] stays 3, so the invariant fails. *)
Lemma confirm_unflags_corrected_record :
  exists c,
    contexts (run default_settings corrected_then_confirmed empty_db) = [c] /\
    correction_count c = 3 /\
    drift_status c = STABLE /\
    ~ corrections_flagged (run default_settings corrected_then_confirmed empty_db).
Proof.
  eexists. split; [vm_compute; reflexivity|].
  split; [reflexivity|]. split; [reflexivity|].
  intros H. unfold corrections_flagged in H.
  apply List.Forall_forall with (x := hd stable_record
            (contexts (run default_settings corrected_then_confirmed empty_db))) in H.
  - unfold flagged in H. vm_compute in H.
    assert (E : STABLE = CONFLICTING) by (apply H; discriminate).
    discriminate E.
  - vm_compute. left. reflexivity.
Qed.

(** [apply_decay] does the same with [stale]. *)
Lemma decay_unflags_corrected_record :
  exists c,
    contexts (run default_settings corrected_then_decayed empty_db) = [c] /\
    correction_count c = 3 /\
    drift_status c = STALE.
Proof.
  eexists. split; [vm_compute; reflexivity|]. split; reflexivity.
Qed.

Lemma corrections_stay_flagged_witness :
  corrections_flagged (run default_settings corrected_thrice empty_db).
Proof.
  apply (corrections_stay_flagged default_settings corrected_thrice empty_db).
  - repeat constructor.
  - constructor.
Defined.



End MemoryFacts.

(** ** Drift detection *)

Module DriftFacts.
Import Py Models Drift Samples.
Local Open Scope string_scope.
Local Open Scope Z_scope.

(** *** The order on binary64 values *)

Lemma compare_cont_swap (p q : positive) :
  Pos.compare_cont Eq q p = CompOpp (Pos.compare_cont Eq p q).
Proof. symmetry. apply (Pos.compare_cont_antisym p q Eq). Qed.

Lemma SFcompare_lt_gt (a b : spec_float) :
  SFcompare a b = Some Lt -> SFcompare b a = Some Gt.
Proof.
  destruct a as [sa|sa| |sa ma ea], b as [sb|sb| |sb mb eb]; simpl;
    try discriminate;
    try (destruct sa; simpl; congruence);
    try (destruct sb; simpl; congruence);
    try (destruct sa, sb; simpl; congruence).
  intros H. injection H as H. f_equal.
  rewrite (Z.compare_antisym ea eb), (compare_cont_swap ma mb).
  destruct sa, sb; try congruence;
    destruct (ea ?= eb); simpl in *; try congruence;
    destruct (Pos.compare_cont Eq ma mb); simpl in *; congruence.
Qed.

(** [x < y] excludes [y <= x]. *)
Lemma ltb_not_leb (x y : float) :
  PrimFloat.ltb x y = true -> PrimFloat.leb y x = false.
Proof.
  rewrite ltb_spec, leb_spec. unfold SFltb, SFleb.
  destruct (SFcompare (Prim2SF x) (Prim2SF y)) as [[]|] eqn:E; try discriminate.
  intros _. rewrite (SFcompare_lt_gt _ _ E). reflexivity.
Qed.

(** *** [_check_confidence] *)

(** C9, as amended.  For a record whose confidence is below 0.4,
    [_check_confidence] emits a signal for that record; its kind is
    [STALENESS] (the detector never emits [BEHAVIORAL_MISMATCH]), and its
    recommended action is "refresh" when the confidence is below 0.2 and
    "monitor" otherwise. *)
Theorem low_confidence_is_reported_as_staleness :
  forall now (c : Context),
    PrimFloat.ltb (confidence c) LOW_CONFIDENCE_THRESHOLD = true ->
    exists s,
      _check_confidence now c = Some s /\
      drift_type s = STALENESS /\
      context_id s = id c /\
      context_key s = key c /\
      severity s = (1.0 - confidence c / LOW_CONFIDENCE_THRESHOLD)%float /\
      recommended_action s =
        (if PrimFloat.ltb (confidence c) CRITICAL_CONFIDENCE_THRESHOLD
         then "refresh" else "monitor").
Proof.
  intros now c Hlow. unfold _check_confidence.
  rewrite (ltb_not_leb _ _ Hlow).
  eexists. split; [reflexivity|]. simpl. repeat split; reflexivity.
Qed.

(** C9, counterexample.  At confidence 0.3 the emitted signal has kind
    [STALENESS], not [BEHAVIORAL_MISMATCH]. *)
Lemma low_confidence_signal_is_not_behavioral :
  exists s,
    _check_confidence 0 doubtful_record = Some s /\
    drift_type s = STALENESS /\
    drift_type s <> BEHAVIORAL_MISMATCH /\
    description s = "Confidence is low (0.30)" /\
    recommended_action s = "monitor".
Proof.
  eexists. split; [vm_compute; reflexivity|].
  repeat split; try reflexivity. discriminate.
Qed.

Lemma low_confidence_witness :
  exists s,
    _check_confidence 0 (set_confidence 0.1 doubtful_record) = Some s /\
    drift_type s = STALENESS /\
    recommended_action s = "refresh".
Proof.
  destruct (low_confidence_is_reported_as_staleness 0 (set_confidence 0.1 doubtful_record))
    as (s & Hs & Ht & _ & _ & _ & Ha).
  - reflexivity.
  - exists s. repeat split; assumption.
Defined.

End DriftFacts.

(** ** Temporal reasoning *)

Module TemporalFacts.
Import Py Py.Notations Calendar Temporal Samples.
Local Open Scope string_scope.
Local Open Scope Z_scope.

(** *** Clock readings *)

Lemma minute_of_wall_range (w : Z) : 0 <= minute_of_wall w < 60.
Proof.
  unfold minute_of_wall, US_PER_HOUR, US_PER_MINUTE, US_PER_SECOND.
  assert (H : 0 <= w mod (60 * (60 * 1000000)) < 60 * (60 * 1000000))
    by (apply Z.mod_pos_bound; lia).
  split.
  - apply Z.div_pos; lia.
  - apply Z.div_lt_upper_bound; lia.
Qed.



Lemma startswith_app (p s : string) : startswith p (p ++ s) = true.
Proof.
  induction p as [|a p IH]; simpl; [reflexivity|].
  rewrite Ascii.eqb_refl. exact IH.
Qed.

(** *** Midnight crossover *)



(** Binary64 arithmetic decides the same: for every hour and minute of a
    day, [hour + minute / 60 < 4] computed on floats is [hour < 4]. *)
Remark hours_since_midnight_binary64 :
  forallb (fun h =>
    forallb (fun m =>
      Bool.eqb (PrimFloat.ltb (float_of_nat h + float_of_nat m / 60)%float 4)
               (Nat.ltb h 4))
      (seq 0 60))
    (seq 0 24) = true.
Proof. vm_compute. reflexivity. Qed.

(** So it does for the session length at the six-hour mark, one
    microsecond before it and one after: [total_seconds() / 3600 < 6]
    computed on floats is [elapsed < 6h]. *)
Remark hours_in_session_binary64 :
  forallb (fun elapsed =>
    Bool.eqb (PrimFloat.ltb (float_of_Z elapsed / 1000000 / 3600)%float 6)
             (elapsed <? td_hours 6))
    [td_hours 6 - 1; td_hours 6; td_hours 6 + 1; 0; - td_hours 1; td_hours 5; td_hours 7]
  = true.
Proof. vm_compute. reflexivity. Qed.

(** *** Reference resolution *)

Section ResolveFacts.

Variable strptime : string -> string -> option Z.
Variable db : tzdata.
Variable anchor : TemporalContext.

Let resolve (text : string) : result ResolvedTimeReference :=
  resolve_reference strptime db (mk_TimeReference text None None) anchor.

(** C7.  "just now" contains the word "now", and [\bnow\b] is listed
    before [\bjust now\b]: the reference resolves as the current moment
    -- the anchor instant itself, no window, confidence 0.99, not
    ambiguous.  "recently" and "a moment ago" do resolve to the window
    from fifteen minutes before the anchor to the anchor, with confidence
    0.75, marked ambiguous. *)
Theorem just_now_resolves_to_current_moment :
  resolve "just now" =
    Ok {| original_reference := "just now";
          reference_type := RELATIVE_TIME;
          resolved_start := Aware (timestamp anchor);
          resolved_end := None;
          resolution_method := "current_moment";
          confidence := 0.99;
          is_ambiguous := false;
          alternative_resolutions := [];
          human_readable := strftime (timestamp anchor) "%I:%M %p" |}
  /\ find (fun p => search_word (fst p) "just now") RELATIVE_TIME_PATTERNS
     = Some ("now", "current")
  /\ forall text,
       In text ["recently"; "a moment ago"] ->
       exists r,
         resolve text = Ok r /\
         resolved_start r = Aware (dt_add (timestamp anchor) (- td_minutes 15)) /\
         resolved_end r = Some (Aware (timestamp anchor)) /\
         resolution_method r = "recent_window" /\
         confidence r = 0.75%float /\
         is_ambiguous r = true.
Proof.
  split; [reflexivity|]. split; [reflexivity|].
  intros text [<-|[<-|[]]]; eexists; (split; [reflexivity|]);
    repeat split; reflexivity.
Qed.

End ResolveFacts.

End TemporalFacts.

(** ** Unknown time zones *)

Module ZoneFacts.
Import Py Py.Notations Calendar Samples.
Local Open Scope string_scope.
Local Open Scope Z_scope.





End ZoneFacts.

(** ** The resolution bus *)

Module BusFacts.
Import Py Bus Samples.
Local Open Scope string_scope.

(** *** [handle_response] *)

Lemma handle_response_delivered now data bus :
  delivered (handle_response now data bus) = delivered bus.
Proof.
  unfold handle_response. destruct (get data "request_id"); try reflexivity.
  destruct (String.eqb s ""); reflexivity.
Qed.

Lemma handle_response_issued now data bus :
  issued (handle_response now data bus) = issued bus.
Proof.
  unfold handle_response. destruct (get data "request_id"); try reflexivity.
  destruct (String.eqb s ""); reflexivity.
Qed.

(** The listener never creates or removes an entry of the pending table. *)
Lemma handle_response_pending now data bus rid :
  is_Some (_pending_requests (handle_response now data bus) !! rid)
  <-> is_Some (_pending_requests bus !! rid).
Proof.
  unfold handle_response. destruct (get data "request_id"); try reflexivity.
  destruct (String.eqb s ""); [reflexivity|]. simpl.
  destruct (_pending_requests bus !! s) eqn:E; [|reflexivity].
  destruct (decide (s = rid)) as [->|Hne].
  - rewrite lookup_insert_eq, E. split; eauto.
  - rewrite lookup_insert_ne by exact Hne. reflexivity.
Qed.

(** Whatever was buffered stays buffered when a response arrives. *)
Lemma handle_response_results now data bus rid :
  is_Some (_results bus !! rid) ->
  is_Some (_results (handle_response now data bus) !! rid).
Proof.
  intros H. unfold handle_response. destruct (get data "request_id"); try exact H.
  destruct (String.eqb s ""); [exact H|]. simpl.
  destruct (decide (s = rid)) as [->|Hne].
  - rewrite lookup_insert_eq. eauto.
  - rewrite lookup_insert_ne by exact Hne. exact H.
Qed.

(** A response that names a request is buffered, pending or not. *)
Lemma handle_response_stores now data bus rid :
  get data "request_id" = JStr rid -> rid <> "" ->
  is_Some (_results (handle_response now data bus) !! rid).
Proof.
  intros Hid Hne. unfold handle_response. rewrite Hid.
  apply String.eqb_neq in Hne. rewrite Hne. simpl.
  rewrite lookup_insert_eq. eauto.
Qed.

Lemma deliveries_snoc rid bus_delivered r ctx :
  length (List.filter (fun d : string * HighEntropyContext => String.eqb (fst d) rid)
            (bus_delivered ++ [(r, ctx)]))
  = (length (List.filter (fun d => String.eqb (fst d) rid) bus_delivered)
     + (if String.eqb r rid then 1 else 0))%nat.
Proof.
  rewrite List.filter_app, List.length_app. simpl.
  destruct (String.eqb r rid); reflexivity.
Qed.

(** *** At most one delivery *)

Lemma consistent_new : consistent new_EventBus.
Proof.
  intros rid. unfold new_EventBus, deliveries. simpl.
  rewrite lookup_empty. split; [|split]; [|reflexivity|lia].
  intros [x Hx]. discriminate Hx.
Qed.

Lemma step_consistent bus a bus' :
  step bus a = Some bus' -> consistent bus -> consistent bus'.
Proof.
  intros Hstep Hinv rid. destruct (Hinv rid) as (Hp & Hn & Hle).
  destruct a as [r|now data|now r|r]; simpl in Hstep.
  - (* Register *)
    destruct (decide (r ∈ issued bus)) as [|Hfresh]; [discriminate|].
    injection Hstep as <-. unfold deliveries in *. simpl.
    split; [|split]; try exact Hle.
    + intros Hsome. destruct (decide (r = rid)) as [->|Hne].
      * split; [|apply Hn, Hfresh].
        apply elem_of_union_l, elem_of_singleton_2. reflexivity.
      * rewrite lookup_insert_ne in Hsome by exact Hne.
        destruct (Hp Hsome) as [Hi H0]. split; [|exact H0].
        apply elem_of_union_r, Hi.
    + intros Hni. apply Hn. intros Hi. apply Hni, elem_of_union_r, Hi.
  - (* Respond *)
    injection Hstep as <-. unfold deliveries in *.
    rewrite handle_response_delivered, handle_response_issued.
    split; [|split]; try exact Hle; try exact Hn.
    intros Hsome. apply handle_response_pending in Hsome. apply Hp, Hsome.
  - (* Resume *)
    destruct (_pending_requests bus !! r) as [[|]|] eqn:E; try discriminate.
    injection Hstep as <-. unfold deliveries in *. simpl.
    rewrite deliveries_snoc.
    destruct (Hinv r) as (Hpr & _ & _).
    destruct (Hpr (ltac:(rewrite E; eauto))) as (Hri & Hr0).
    unfold deliveries in Hr0.
    destruct (String.eqb r rid) eqn:Er.
    + apply String.eqb_eq in Er. subst rid. rewrite Hr0. simpl.
      split; [|split]; try lia.
      * intros Hsome. rewrite lookup_delete_eq in Hsome. destruct Hsome; discriminate.
      * intros Hsome. contradiction.
    + apply String.eqb_neq in Er. rewrite Nat.add_0_r.
      split; [|split]; try exact Hle; try exact Hn.
      intros Hsome. rewrite lookup_delete_ne in Hsome by exact Er. apply Hp, Hsome.
  - (* Cancel *)
    destruct (_pending_requests bus !! r) eqn:E; [|discriminate].
    injection Hstep as <-. unfold deliveries in *. simpl.
    split; [|split]; try exact Hle; try exact Hn.
    intros Hsome. destruct (decide (r = rid)) as [->|Hne].
    + rewrite lookup_delete_eq in Hsome. destruct Hsome; discriminate.
    + rewrite lookup_delete_ne in Hsome by exact Hne. apply Hp, Hsome.
Qed.

Lemma run_consistent trace : forall bus bus',
  run bus trace = Some bus' -> consistent bus -> consistent bus'.
Proof.
  induction trace as [|a trace IH]; simpl; intros bus bus' Hrun Hinv.
  - inversion Hrun; subst. exact Hinv.
  - destruct (step bus a) as [bus1|] eqn:Hstep; [|discriminate].
    eapply IH; [exact Hrun|]. eapply step_consistent; eauto.
Qed.

(** Along every run of the bus, the caller of a request is handed at most
    one context. *)
Lemma at_most_one_delivery trace bus rid :
  run new_EventBus trace = Some bus -> (deliveries rid bus <= 1)%nat.
Proof.
  intros Hrun. apply (run_consistent _ _ _ Hrun consistent_new rid).
Qed.

(** When the deadline elapses, the entry of the request is removed. *)
Lemma cancel_removes_entry bus rid bus' :
  step bus (Cancel rid) = Some bus' -> _pending_requests bus' !! rid = None.
Proof.
  simpl. destruct (_pending_requests bus !! rid); [|discriminate].
  intros H; inversion H; subst. simpl. apply lookup_delete_eq.
Qed.

(** *** A response that arrives after the deadline *)

Lemma step_keeps_buffered rid bus a bus' :
  step bus a = Some bus' ->
  forgotten rid bus ->
  is_Some (_results bus !! rid) ->
  forgotten rid bus' /\ is_Some (_results bus' !! rid) /\
  deliveries rid bus' = deliveries rid bus.
Proof.
  intros Hstep [Hissued Hgone] Hbuf.
  destruct a as [r|now data|now r|r]; simpl in Hstep.
  - destruct (decide (r ∈ issued bus)) as [|Hfresh]; [discriminate|].
    injection Hstep as <-. unfold forgotten, deliveries. simpl.
    assert (Hne : r <> rid) by (intros ->; contradiction).
    rewrite lookup_insert_ne by exact Hne.
    repeat split; auto. apply elem_of_union_r, Hissued.
  - injection Hstep as <-. unfold forgotten, deliveries.
    rewrite handle_response_delivered, handle_response_issued.
    repeat split; auto.
    + destruct (_pending_requests (handle_response now data bus) !! rid) eqn:E;
        [|reflexivity].
      assert (Hs : is_Some (_pending_requests bus !! rid))
        by (apply (handle_response_pending now data); rewrite E; eauto).
      rewrite Hgone in Hs. destruct Hs; discriminate.
    + apply handle_response_results, Hbuf.
  - destruct (_pending_requests bus !! r) as [[|]|] eqn:E; try discriminate.
    injection Hstep as <-. unfold forgotten, deliveries. simpl.
    assert (Hne : r <> rid) by (intros ->; congruence).
    rewrite !lookup_delete_ne by exact Hne. rewrite deliveries_snoc.
    apply String.eqb_neq in Hne. rewrite Hne, Nat.add_0_r. auto.
  - destruct (_pending_requests bus !! r) eqn:E; [|discriminate].
    injection Hstep as <-. unfold forgotten, deliveries. simpl.
    assert (Hne : r <> rid) by (intros ->; congruence).
    rewrite lookup_delete_ne by exact Hne. auto.
Qed.

Lemma run_keeps_buffered rid trace : forall bus bus',
  run bus trace = Some bus' ->
  forgotten rid bus ->
  is_Some (_results bus !! rid) ->
  is_Some (_results bus' !! rid) /\ deliveries rid bus' = deliveries rid bus.
Proof.
  induction trace as [|a trace IH]; simpl; intros bus bus' Hrun Hf Hbuf.
  - injection Hrun as <-. auto.
  - destruct (step bus a) as [bus1|] eqn:Hstep; [|discriminate].
    destruct (step_keeps_buffered _ _ _ _ Hstep Hf Hbuf) as (Hf1 & Hb1 & Hd1).
    destruct (IH _ _ Hrun Hf1 Hb1) as [Hb Hd]. split; [exact Hb|congruence].
Qed.

(** C8.  When the deadline of a pending request elapses, its entry is
    removed, and a response that arrives afterwards is never handed to
    the caller.  It is not dropped, though: [handle_response] stores it in
    [_results] before looking for the entry, and whatever the bus does
    next (new requests, responses, deliveries, timeouts), the stored
    context is still in [_results]. *)
Theorem late_response_stays_buffered :
  forall bus rid bus1 now data trace bus',
    consistent bus ->
    step bus (Cancel rid) = Some bus1 ->
    get data "request_id" = JStr rid ->
    rid <> "" ->
    run bus1 (Respond now data :: trace) = Some bus' ->
    _pending_requests bus1 !! rid = None /\
    deliveries rid bus' = 0%nat /\
    is_Some (_results bus' !! rid).
Proof.
  intros bus rid bus1 now data trace bus' Hinv Hcancel Hid Hne Hrun.
  assert (Hgone := cancel_removes_entry _ _ _ Hcancel).
  split; [exact Hgone|].
  simpl in Hcancel.
  destruct (_pending_requests bus !! rid) eqn:E; [|discriminate].
  destruct (Hinv rid) as (Hp & _ & _).
  destruct (Hp (ltac:(rewrite E; eauto))) as [Hissued Hzero].
  injection Hcancel as <-.
  simpl in Hrun.
  set (bus1 := mk_EventBus (delete rid (_pending_requests bus)) (_results bus)
                 (delivered bus) (issued bus)) in *.
  destruct (run_keeps_buffered rid trace (handle_response now data bus1) bus' Hrun)
    as [Hb Hd].
  - split.
    + rewrite handle_response_issued. exact Hissued.
    + destruct (_pending_requests (handle_response now data bus1) !! rid) eqn:E';
        [|reflexivity].
      assert (Hs : is_Some (_pending_requests bus1 !! rid))
        by (apply (handle_response_pending now data); rewrite E'; eauto).
      rewrite Hgone in Hs. destruct Hs; discriminate.
  - apply handle_response_stores; assumption.
  - split; [|exact Hb]. rewrite Hd. unfold deliveries.
    rewrite handle_response_delivered. exact Hzero.
Qed.

Lemma late_response_witness :
  _pending_requests timed_out_bus !! "r1" = None /\
  deliveries "r1" final_bus = 0%nat /\
  is_Some (_results final_bus !! "r1").
Proof.
  apply (late_response_stays_buffered waiting_bus "r1" timed_out_bus 200 late_answer
           busy_afterwards final_bus).
  - apply (run_consistent [Register "r1"] new_EventBus);
      [vm_compute; reflexivity | apply consistent_new].
  - vm_compute. reflexivity.
  - reflexivity.
  - discriminate.
  - vm_compute. reflexivity.
Defined.

End BusFacts.

(** ** Prompt composition *)

Module ComposerFacts.
Import Py Py.Notations Composer Samples.
Local Open Scope string_scope.
Local Open Scope Z_scope.

Section Frame.

Variable float_repr : float -> string.
Variable json_dumps : Json -> string.
Variable max_tokens : Z.
Variable min_relevance : float.






End Frame.


(** The prompt composed from [leaky_situation] does not depend on how
    floats or JSON are rendered. *)
Lemma leaky_prompt float_repr json_dumps :
  option_map system_context
    (match compose float_repr json_dumps 500 0.3 "Continue this project" None None
             (Some leaky_situation) SYSTEM_PROMPT with
     | Ok r => Some r
     | Raise _ => None
     end)
  = Some (join nl
            ["## Current Context";
             heading "### Context";
             "- assumptions: api_key=sk-0123456789abcdef0123456789abcdef";
             heading "---";
             "Use this context to ground your responses in the user's reality.";
             "Do not mention this context unless directly relevant to the user's query."]).
Proof. reflexivity. Qed.


End ComposerFacts.

(** ** The record class *)

Module ModelsFacts.
Import Py Calendar Config Models Samples.
Local Open Scope string_scope.
Local Open Scope Z_scope.

Lemma ltb_leb (x y : float) : PrimFloat.ltb x y = true -> PrimFloat.leb x y = true.
Proof.
  rewrite ltb_spec, leb_spec. unfold SFltb, SFleb.
  destruct (SFcompare _ _) as [[]|]; congruence.
Qed.

Lemma py_max_lower (a b : float) :
  PrimFloat.leb a a = true -> PrimFloat.leb a (py_max a b) = true.
Proof.
  intros Ha. unfold py_max. destruct (PrimFloat.ltb a b) eqn:E; [apply ltb_leb; exact E|exact Ha].
Qed.

Lemma py_min_upper (a b : float) :
  PrimFloat.leb a a = true -> PrimFloat.leb (py_min a b) a = true.
Proof.
  intros Ha. unfold py_min. destruct (PrimFloat.ltb b a) eqn:E; [apply ltb_leb; exact E|exact Ha].
Qed.

(** X1.  [Context.decay_confidence] never leaves a confidence below the
    floor 0.1, whatever the factor and the confidence before (a NaN
    product included), and it changes no other column. *)
Theorem decay_confidence_floor :
  forall (factor : float) (c : Context),
    PrimFloat.leb 0.1 (confidence (decay_confidence factor c)) = true /\
    set_confidence (confidence c) (decay_confidence factor c) = c.
Proof.
  intros factor c. split.
  - destruct c; simpl. apply py_max_lower. reflexivity.
  - destruct c; reflexivity.
Qed.

(** X2.  [Context.confirm] leaves a confidence of at most 1.0, sets the
    status to stable and [last_confirmed_at] to the clock reading, and
    keeps the value and the correction count. *)
Theorem confirm_caps_confidence :
  forall (now : Z) (c : Context),
    PrimFloat.leb (confidence (confirm now c)) 1.0 = true /\
    drift_status (confirm now c) = STABLE /\
    last_confirmed_at (confirm now c) = Some now /\
    correction_count (confirm now c) = correction_count c /\
    value (confirm now c) = value c.
Proof.
  intros now c. destruct c; simpl. repeat split.
  apply py_min_upper. reflexivity.
Qed.

(** X3.  After [k] calls of [Context.record_correction] the correction
    count has grown by [k] and (for [k > 0]) the confidence is at least
    0.0; the status is conflicting as soon as the count has reached 3 and
    is the status the record started with as long as the count is below
    3. *)
Theorem corrections_flip_status_at_three :
  forall (k : nat) (c : Context),
    correction_count (corrected k c) = correction_count c + Z.of_nat k /\
    (k <> 0%nat -> PrimFloat.leb 0.0 (confidence (corrected k c)) = true) /\
    (k <> 0%nat -> 3 <= correction_count c + Z.of_nat k ->
       drift_status (corrected k c) = CONFLICTING) /\
    (correction_count c + Z.of_nat k < 3 ->
       drift_status (corrected k c) = drift_status c).
Proof.
  induction k as [|k IH]; intros c.
  - simpl. repeat split; try congruence. lia.
  - destruct (IH c) as (Hn & Hc & Hs & Hu). clear IH.
    cbn [corrected].
    remember (corrected k c) as d eqn:Hd. clear Hd.
    assert (Hcount : correction_count (record_correction d) = correction_count d + 1).
    { destruct d; unfold record_correction; simpl. destruct (3 <=? _); reflexivity. }
    assert (Hconf : confidence (record_correction d) = py_max 0.0 (confidence d - 0.2)).
    { destruct d; unfold record_correction; simpl. destruct (3 <=? _); reflexivity. }
    assert (Hstat : drift_status (record_correction d) =
                    if 3 <=? correction_count d + 1 then CONFLICTING else drift_status d).
    { destruct d; unfold record_correction; simpl. destruct (3 <=? _); reflexivity. }
    repeat split.
    + rewrite Hcount, Hn. lia.
    + intros _. rewrite Hconf. apply py_max_lower. reflexivity.
    + intros _ H3. rewrite Hstat.
      destruct (Z.leb_spec 3 (correction_count d + 1)); [reflexivity|lia].
    + intros H3. rewrite Hstat.
      destruct (Z.leb_spec 3 (correction_count d + 1)); [lia|]. apply Hu. lia.
Qed.

End ModelsFacts.

(** ** Version history *)

Module HistoryFacts.
Import Py Py.Notations Calendar Config Models Memory Samples MemoryFacts.
Local Open Scope string_scope.
Local Open Scope Z_scope.

Lemma latest_numbered (n : nat) :
  match List.map Z.of_nat (seq 1 n) with
  | [] => 0
  | v :: vs => fold_left Z.max vs v
  end = Z.of_nat n.
Proof.
  induction n as [|n IH]; [reflexivity|].
  rewrite seq_S, List.map_app. simpl (1 + n)%nat.
  destruct (List.map Z.of_nat (seq 1 n)) as [|a l] eqn:E.
  - destruct n; [reflexivity|]. simpl in E. discriminate.
  - cbn [app List.map]. rewrite fold_left_app. cbn [fold_left]. rewrite IH. lia.
Qed.

Lemma latest_version_length (db : Db) (cid : UUID) :
  numbered (versions_of db cid) ->
  _get_latest_version_number db cid = Z.of_nat (length (versions_of db cid)).
Proof.
  unfold numbered, _get_latest_version_number, versions_of. intros ->.
  apply latest_numbered.
Qed.

Lemma numbered_snoc (vs : list ContextVersion) (v : ContextVersion) :
  numbered vs -> version v = Z.of_nat (length vs) + 1 -> numbered (vs ++ [v]).
Proof.
  unfold numbered. intros H Hv.
  rewrite List.length_app, Nat.add_comm. cbn [length Nat.add].
  rewrite seq_S, !List.map_app, H. cbn [List.map]. f_equal. f_equal. lia.
Qed.

Lemma numbered_last (vs : list ContextVersion) (v : ContextVersion) :
  numbered (vs ++ [v]) -> version v = Z.of_nat (length vs) + 1 /\ numbered vs.
Proof.
  unfold numbered. rewrite List.length_app, Nat.add_comm. cbn [length Nat.add].
  rewrite seq_S, !List.map_app. cbn [List.map]. intros H.
  apply List.app_inj_tail in H. destruct H as [H1 H2]. split; [lia|exact H1].
Qed.

Lemma versions_of_snoc db cid v :
  versions_of (mk_Db (contexts db) (context_versions db ++ [v])) cid
  = (versions_of db cid ++ (if N.eqb (v_context_id v) cid then [v] else []))%list.
Proof.
  unfold versions_of. simpl. rewrite List.filter_app. reflexivity.
Qed.

Lemma NoDup_map_filter {A B : Type} (f : A -> B) (p : A -> bool) (l : list A) :
  List.NoDup (List.map f l) -> List.NoDup (List.map f (List.filter p l)).
Proof.
  induction l as [|a l IH]; simpl; intros H; [constructor|].
  inversion H as [|x xs Hnotin Hnd]; subst.
  destruct (p a); simpl; [|auto].
  constructor; [|auto].
  intros Hin. apply Hnotin. apply List.in_map_iff in Hin.
  destruct Hin as (x & Hx & Hin). apply List.filter_In in Hin.
  apply List.in_map_iff. exists x. tauto.
Qed.

Lemma filter_filter_absorb {A : Type} (p q : A -> bool) (l : list A) :
  (forall x, In x l -> p x = true -> q x = true) ->
  List.filter p (List.filter q l) = List.filter p l.
Proof.
  induction l as [|a l IH]; intros H; [reflexivity|]. cbn [List.filter].
  assert (IH' : List.filter p (List.filter q l) = List.filter p l)
    by (apply IH; intros x Hx; apply H; right; exact Hx).
  destruct (p a) eqn:Hp.
  - rewrite (H a (or_introl eq_refl) Hp). cbn [List.filter]. rewrite Hp, IH'. reflexivity.
  - destruct (q a); cbn [List.filter]; [rewrite Hp|]; exact IH'.
Qed.

Lemma map_id_frame (g : Context -> Context) (l : list Context) :
  (forall r, In r l -> id (g r) = id r) ->
  List.map id (List.map g l) = List.map id l.
Proof.
  intros H. rewrite List.map_map. apply List.map_ext_in. exact H.
Qed.

(** Rows rewritten in place, versions untouched. *)
Lemma history_ok_mapped (db db' : Db) (g : Context -> Context) :
  contexts db' = List.map g (contexts db) ->
  context_versions db' = context_versions db ->
  (forall r, In r (contexts db) -> id (g r) = id r /\ value (g r) = value r) ->
  history_ok db -> history_ok db'.
Proof.
  intros Hc Hv Hg (Hu & Ho & Hh). unfold history_ok, unique_ids, versions_of.
  rewrite Hc, Hv. split; [|split].
  - rewrite map_id_frame; [exact Hu|]. intros r Hr. apply Hg, Hr.
  - intros v Hin. destruct (Ho v Hin) as (c & Hcin & Hcid).
    exists (g c). split; [apply List.in_map; exact Hcin|].
    rewrite (proj1 (Hg c Hcin)). exact Hcid.
  - intros c Hin. apply List.in_map_iff in Hin. destruct Hin as (r & <- & Hr).
    destruct (Hg r Hr) as [-> ->]. apply Hh, Hr.
Qed.

(** One row rewritten under its key and one version appended for it. *)
Lemma history_ok_updated (db : Db) (c c' : Context) (v : ContextVersion) :
  get_by_id db (id c) = Ok (Some c) ->
  id c' = id c ->
  v_context_id v = id c ->
  version v = _get_latest_version_number db (id c) + 1 ->
  v_value v = value c' ->
  history_ok db ->
  history_ok (mk_Db (List.map (fun r => if N.eqb (id r) (id c') then c' else r) (contexts db))
                    (context_versions db ++ [v])).
Proof.
  intros Hget Hid Hvid Hver Hval (Hu & Ho & Hh).
  destruct (get_by_id_some _ _ _ Hget) as (Hcin & _ & Hcuniq).
  set (g := fun r => if N.eqb (id r) (id c') then c' else r).
  assert (Hgid : forall r, id (g r) = id r).
  { intros r. unfold g. destruct (N.eqb (id r) (id c')) eqn:E; [|reflexivity].
    apply N.eqb_eq in E. symmetry. exact E. }
  split; [|split].
  - unfold unique_ids. simpl. rewrite map_id_frame; [exact Hu|]. intros; apply Hgid.
  - simpl. intros w Hw. apply List.in_app_iff in Hw. destruct Hw as [Hw|[<-|[]]].
    + destruct (Ho w Hw) as (r & Hr & Hrid). exists (g r).
      split; [apply List.in_map; exact Hr|]. rewrite Hgid. exact Hrid.
    + exists (g c). split; [apply List.in_map; exact Hcin|]. rewrite Hgid. auto.
  - cbn [contexts]. intros r' Hin. apply List.in_map_iff in Hin.
    destruct Hin as (r & <- & Hr).
    change (versions_of (mk_Db (List.map g (contexts db)) (context_versions db ++ [v])) (id (g r)))
      with (versions_of (mk_Db (contexts db) (context_versions db ++ [v])) (id (g r))).
    rewrite versions_of_snoc, Hgid, Hvid.
    destruct (Hh r Hr) as (vs & v0 & Hvs & Hnum & Hv0).
    destruct (N.eqb (id c) (id r)) eqn:E.
    + apply N.eqb_eq in E. assert (r = c) by (apply Hcuniq; auto). subst r.
      exists (vs ++ [v0])%list, v. rewrite Hvs. split; [reflexivity|]. split.
      * apply numbered_snoc; [exact Hnum|].
        rewrite Hver, latest_version_length by (rewrite Hvs; exact Hnum).
        rewrite Hvs. reflexivity.
      * unfold g. rewrite Hid, N.eqb_refl. exact Hval.
    + exists vs, v0. rewrite List.app_nil_r. split; [exact Hvs|]. split; [exact Hnum|].
      unfold g. rewrite Hid. rewrite N.eqb_sym, E. exact Hv0.
Qed.

Lemma history_ok_update now db cid v cf src ip reason db' c' :
  update now db cid v cf src ip reason = Ok (db', c') ->
  history_ok db -> history_ok db'.
Proof.
  unfold update. destruct (get_by_id db cid) as [[c|]|e] eqn:Hget; simpl;
    intros H; inversion H; subst; clear H.
  intros Hok. destruct (get_by_id_some _ _ _ Hget) as (_ & Hid & _). subst cid.
  match goal with
  | |- history_ok (_create_version _ (write_row ?c1 _) _ _ _ _ _ _ _ _) =>
      set (c' := c1)
  end.
  assert (Hid : id c' = id c) by (destruct c, v, cf, ip; reflexivity).
  unfold _create_version, write_row. cbn [contexts context_versions].
  apply history_ok_updated with (c := c); auto.
Qed.

Lemma history_ok_store cfg now db new_id uid ct k v tier cf src sd ip sid ttl db' c' :
  store cfg now db new_id uid ct k v tier cf src sd ip sid ttl = Ok (db', c') ->
  history_ok db -> history_ok db'.
Proof.
  unfold store. destruct (_get_by_key db uid ct k) as [[e|]|x] eqn:Hkey; simpl;
    [apply history_ok_update| |discriminate].
  unfold insert_row. cbn [id].
  destruct (existsb _ _) eqn:Hex; simpl; [discriminate|].
  intros H; inversion H; subst; clear H. intros (Hu & Ho & Hh).
  assert (Hfresh : forall r, In r (contexts db) -> N.eqb (id r) new_id = false).
  { intros r Hr. destruct (N.eqb (id r) new_id) eqn:E; [|reflexivity].
    rewrite <- Hex. symmetry. apply existsb_exists. exists r. auto. }
  assert (Hnone : versions_of db new_id = []).
  { unfold versions_of.
    destruct (List.filter _ _) as [|w ws] eqn:E; [reflexivity|].
    assert (Hw : In w (List.filter (fun v0 => N.eqb (v_context_id v0) new_id) (context_versions db)))
      by (rewrite E; left; reflexivity).
    apply List.filter_In in Hw. destruct Hw as [Hw Hwid].
    destruct (Ho w Hw) as (r & Hr & Hrid). apply N.eqb_eq in Hwid.
    specialize (Hfresh r Hr). rewrite Hrid, Hwid, N.eqb_refl in Hfresh. discriminate. }
  split; [|split].
  - unfold unique_ids. cbn [contexts _create_version]. rewrite List.map_app. cbn [List.map id].
    apply List.NoDup_app; [exact Hu|constructor; [intros []|constructor]|].
    intros x Hx [<-|[]]. apply List.in_map_iff in Hx. destruct Hx as (r & Hrid & Hr).
    specialize (Hfresh r Hr). rewrite Hrid, N.eqb_refl in Hfresh. discriminate.
  - cbn [contexts context_versions _create_version]. intros w Hw.
    apply List.in_app_iff in Hw. destruct Hw as [Hw|[<-|[]]].
    + destruct (Ho w Hw) as (r & Hr & Hrid). exists r. split; [|exact Hrid].
      apply List.in_app_iff. left. exact Hr.
    + eexists. split; [apply List.in_app_iff; right; left; reflexivity|reflexivity].
  - cbn [contexts _create_version]. intros r Hr. apply List.in_app_iff in Hr.
    unfold versions_of, _create_version. cbn [context_versions]. rewrite List.filter_app.
    cbn [List.filter v_context_id].
    destruct Hr as [Hr|[<-|[]]].
    + rewrite N.eqb_sym, (Hfresh r Hr), List.app_nil_r. apply Hh, Hr.
    + cbn [id]. rewrite N.eqb_refl. fold (versions_of db new_id). rewrite Hnone.
      eexists [], _. split; [reflexivity|]. split; reflexivity.
Qed.

Lemma history_ok_written db c c' :
  get_by_id db (id c) = Ok (Some c) ->
  id c' = id c -> value c' = value c ->
  history_ok db -> history_ok (write_row c' db).
Proof.
  intros Hget Hid Hval. destruct (get_by_id_some _ _ _ Hget) as (_ & _ & Huniq).
  apply history_ok_mapped with (g := fun r => if N.eqb (id r) (id c') then c' else r);
    [reflexivity|reflexivity|].
  intros r Hr. destruct (N.eqb (id r) (id c')) eqn:E; [|auto].
  apply N.eqb_eq in E. rewrite Hid in E. rewrite (Huniq r Hr E). auto.
Qed.

Lemma history_ok_confirm now db cid db' c' :
  confirm now db cid = Ok (db', c') -> history_ok db -> history_ok db'.
Proof.
  unfold confirm. destruct (get_by_id db cid) as [[c|]|e] eqn:Hget; simpl;
    intros H; inversion H; subst; clear H.
  destruct (get_by_id_some _ _ _ Hget) as (_ & Hid & _). subst cid.
  apply history_ok_written with (c := c); [exact Hget| |]; destruct c; reflexivity.
Qed.

Lemma history_ok_record_correction now db cid v by_ db' c' :
  record_correction now db cid v by_ = Ok (db', c') -> history_ok db -> history_ok db'.
Proof.
  unfold record_correction. destruct (get_by_id db cid) as [[c|]|e] eqn:Hget; simpl;
    intros H; inversion H; subst; clear H.
  intros Hok. destruct (get_by_id_some _ _ _ Hget) as (_ & Hid & _). subst cid.
  match goal with
  | |- history_ok (_create_version _ (write_row ?c1 _) _ _ _ _ _ _ _ _) =>
      set (c' := c1)
  end.
  assert (Hid : id c' = id c).
  { destruct c; unfold c', Models.record_correction; simpl. destruct (3 <=? _); reflexivity. }
  assert (Hval : value c' = v).
  { destruct c; unfold c', Models.record_correction; simpl. destruct (3 <=? _); reflexivity. }
  unfold _create_version, write_row. cbn [contexts context_versions].
  apply history_ok_updated with (c := c); auto.
Qed.

Lemma history_ok_rollback now db cid ver by_ db' c' :
  rollback now db cid ver by_ = Ok (db', c') -> history_ok db -> history_ok db'.
Proof.
  unfold rollback. destruct (scalar_one_or_none _) as [[tv|]|e]; simpl;
    [apply history_ok_update|discriminate|discriminate].
Qed.

Lemma history_ok_removed (db : Db) (keep : Context -> bool) :
  history_ok db ->
  history_ok
    (mk_Db (List.filter keep (contexts db))
           (List.filter (fun v => negb (existsb (fun c => N.eqb (id c) (v_context_id v))
                                          (List.filter (fun c => negb (keep c)) (contexts db))))
                        (context_versions db))).
Proof.
  intros (Hu & Ho & Hh).
  assert (Hkept : forall c w, In c (contexts db) -> keep c = true ->
            v_context_id w = id c ->
            existsb (fun c0 => N.eqb (id c0) (v_context_id w))
              (List.filter (fun c0 => negb (keep c0)) (contexts db)) = false).
  { intros c w Hc Hk Hw. destruct (existsb _ _) eqn:E; [|reflexivity].
    apply existsb_exists in E. destruct E as (r & Hr & Hrid).
    apply List.filter_In in Hr. destruct Hr as [Hr Hrk]. apply N.eqb_eq in Hrid.
    assert (r = c).
    { clear - Hu Hr Hc Hrid Hw. unfold unique_ids in Hu. rewrite Hw in Hrid.
      induction (contexts db) as [|a l IH]; [destruct Hr|].
      simpl in Hu. inversion Hu as [|x xs Hnotin Hnd]; subst.
      destruct Hr as [->|Hr], Hc as [->|Hc]; auto.
      - exfalso. apply Hnotin. rewrite Hrid. apply List.in_map. exact Hc.
      - exfalso. apply Hnotin. rewrite <- Hrid. apply List.in_map. exact Hr. }
    subst r. rewrite Hk in Hrk. discriminate. }
  split; [|split].
  - unfold unique_ids. cbn [contexts]. apply NoDup_map_filter. exact Hu.
  - cbn [contexts context_versions]. intros w Hw. apply List.filter_In in Hw.
    destruct Hw as [Hw Hkeep]. destruct (Ho w Hw) as (c & Hc & Hcid).
    exists c. split; [|exact Hcid]. apply List.filter_In. split; [exact Hc|].
    destruct (keep c) eqn:Hk; [reflexivity|].
    apply negb_true_iff in Hkeep. rewrite <- Hkeep.
    apply existsb_exists. exists c. split.
    + apply List.filter_In. rewrite Hk. auto.
    + apply N.eqb_eq. exact Hcid.
  - cbn [contexts]. intros c Hc. apply List.filter_In in Hc. destruct Hc as [Hc Hk].
    destruct (Hh c Hc) as (vs & v & Hvs & Hnum & Hv).
    exists vs, v. split; [|auto]. rewrite <- Hvs. unfold versions_of. cbn [context_versions].
    apply filter_filter_absorb. intros w _ Hw. apply N.eqb_eq in Hw.
    rewrite (Hkept c w Hc Hk Hw). reflexivity.
Qed.


Lemma history_ok_delete now db cid soft :
  history_ok db -> history_ok (delete now db cid soft).
Proof.
  intros Hok. unfold delete. destruct soft.
  - eapply history_ok_mapped; [reflexivity|reflexivity| |exact Hok].
    intros r _. cbv beta. destruct (N.eqb (id r) cid); destruct r; split; reflexivity.
  - pose proof (history_ok_removed db (fun r => negb (N.eqb (id r) cid)) Hok) as H.
    destruct Hok as (_ & Ho & _).
    erewrite (List.filter_ext_in _ (fun v => negb (N.eqb (v_context_id v) cid))) in H;
      [exact H|].
    intros w Hw. cbv beta. f_equal.
    destruct (N.eqb (v_context_id w) cid) eqn:E.
    + apply existsb_exists. destruct (Ho w Hw) as (c & Hc & Hcid).
      apply N.eqb_eq in E. exists c. split.
      * apply List.filter_In. split; [exact Hc|].
        rewrite Hcid, E, N.eqb_refl. reflexivity.
      * apply N.eqb_eq. exact Hcid.
    + destruct (existsb _ _) eqn:Hex; [|reflexivity].
      apply existsb_exists in Hex. destruct Hex as (c & Hc & Hcid).
      apply List.filter_In in Hc. destruct Hc as [_ Hc].
      rewrite negb_involutive in Hc. apply N.eqb_eq in Hc, Hcid.
      rewrite <- Hcid, Hc, N.eqb_refl in E. discriminate.
Qed.

Lemma history_ok_apply_decay cfg now db uid factor floor :
  history_ok db -> history_ok (fst (apply_decay cfg now db uid factor floor)).
Proof.
  intros Hok. eapply history_ok_mapped; [reflexivity|reflexivity| |exact Hok].
  intros r _. cbv beta. destruct (decays _ _ _ _ r); destruct r; split; reflexivity.
Qed.

Lemma history_ok_cleanup now db :
  history_ok db -> history_ok (fst (cleanup_expired now db)).
Proof.
  intros Hok.
  pose proof (history_ok_removed db (fun c => negb (expired_ephemeral now c)) Hok) as H.
  unfold cleanup_expired. cbn [fst].
  erewrite (List.filter_ext (fun c => negb (negb (expired_ephemeral now c)))) in H;
    [exact H|].
  intros c. apply negb_involutive.
Qed.

Lemma history_ok_step cfg db tc : history_ok db -> history_ok (step cfg db tc).
Proof.
  destruct tc as [now call]. intros Hok. unfold step. cbn [fst snd].
  destruct call; cbn [exec].
  - destruct (store _ _ _ _ _ _ _ _ _ _ _ _ _ _ _) as [[db' c']|e] eqn:E; simpl; [|exact Hok].
    eapply history_ok_store; eauto.
  - destruct (update _ _ _ _ _ _ _ _) as [[db' c']|e] eqn:E; simpl; [|exact Hok].
    eapply history_ok_update; eauto.
  - simpl. apply history_ok_delete, Hok.
  - simpl. apply history_ok_apply_decay, Hok.
  - destruct (confirm _ _ _) as [[db' c']|e] eqn:E; simpl; [|exact Hok].
    eapply history_ok_confirm; eauto.
  - destruct (record_correction _ _ _ _ _) as [[db' c']|e] eqn:E; simpl; [|exact Hok].
    eapply history_ok_record_correction; eauto.
  - destruct (rollback _ _ _ _ _) as [[db' c']|e] eqn:E; simpl; [|exact Hok].
    eapply history_ok_rollback; eauto.
  - simpl. apply history_ok_cleanup, Hok.
Qed.

Lemma history_ok_run cfg calls : forall db, history_ok db -> history_ok (run cfg calls db).
Proof.
  induction calls as [|tc calls IH]; intros db Hok; [exact Hok|].
  simpl. apply IH, history_ok_step, Hok.
Qed.

Lemma history_ok_empty : history_ok empty_db.
Proof.
  split; [constructor|]. split; intros ? [].
Qed.

(** X4.  Starting from empty tables, after any sequence of service calls
    the version rows of every record present are numbered 1, 2, ..., n in
    table order, without gap or repetition, with [n >= 1]; the number
    [_get_latest_version_number] returns is [n]. *)
Theorem version_numbers_have_no_gaps :
  forall cfg calls c,
    In c (contexts (run cfg calls empty_db)) ->
    exists n,
      List.map version (versions_of (run cfg calls empty_db) (id c))
      = List.map Z.of_nat (seq 1 (S n)) /\
      _get_latest_version_number (run cfg calls empty_db) (id c) = Z.of_nat (S n).
Proof.
  intros cfg calls c Hc.
  destruct (history_ok_run cfg calls empty_db history_ok_empty) as (_ & _ & Hh).
  destruct (Hh c Hc) as (vs & v & Hvs & Hnum & _).
  exists (length vs). split.
  - rewrite Hvs. unfold numbered in Hnum. rewrite Hnum, List.length_app, Nat.add_comm.
    reflexivity.
  - rewrite latest_version_length by (rewrite Hvs; exact Hnum).
    rewrite Hvs, List.length_app, Nat.add_comm. reflexivity.
Qed.

Lemma insert_version_last (x : ContextVersion) (l : list ContextVersion) :
  (forall y, In y l -> version x < version y) -> insert_version x l = (l ++ [x])%list.
Proof.
  induction l as [|y l IH]; intros H; [reflexivity|]. cbn [insert_version app].
  destruct (Z.ltb_spec (version x) (version y)) as [_|Hge].
  - rewrite IH; [reflexivity|]. intros z Hz. apply H. right. exact Hz.
  - specialize (H y (or_introl eq_refl)). lia.
Qed.

Lemma newest_first_ascending (l : list ContextVersion) : forall s,
  List.map version l = List.map Z.of_nat (seq s (length l)) ->
  newest_first l = rev l.
Proof.
  induction l as [|a l IH]; intros s H; [reflexivity|].
  cbn [length seq List.map] in H. inversion H as [[Ha Hl]].
  cbn [newest_first fold_right rev]. fold (newest_first l).
  rewrite (IH (S s) Hl). apply insert_version_last.
  intros y Hy. apply List.in_rev in Hy.
  assert (Hin : In (version y) (List.map version l)) by (apply List.in_map; exact Hy).
  rewrite Hl in Hin. apply List.in_map_iff in Hin. destruct Hin as (k & Hk & Hin).
  apply List.in_seq in Hin. lia.
Qed.

(** X5.  Starting from empty tables, after any sequence of service calls
    [get_history] returns the newest [limit] version rows of a record
    present, newest first; for a positive limit the first row returned
    carries the latest version number and the record's current value. *)
Theorem history_starts_with_current_value :
  forall cfg calls c limit,
    In c (contexts (run cfg calls empty_db)) ->
    get_history (run cfg calls empty_db) (id c) limit
    = firstn limit (rev (versions_of (run cfg calls empty_db) (id c))) /\
    exists v older,
      get_history (run cfg calls empty_db) (id c) (S limit) = v :: older /\
      v_value v = value c /\
      version v = _get_latest_version_number (run cfg calls empty_db) (id c).
Proof.
  intros cfg calls c limit Hc.
  destruct (history_ok_run cfg calls empty_db history_ok_empty) as (_ & _ & Hh).
  destruct (Hh c Hc) as (vs & v & Hvs & Hnum & Hv).
  assert (Hsort : newest_first (versions_of (run cfg calls empty_db) (id c))
                  = rev (versions_of (run cfg calls empty_db) (id c))).
  { apply newest_first_ascending with (s := 1%nat). rewrite Hvs. exact Hnum. }
  unfold get_history. rewrite Hsort. split; [reflexivity|].
  rewrite Hvs, List.rev_app_distr. cbn [rev app firstn].
  exists v, (firstn limit (rev vs)). split; [reflexivity|]. split; [exact Hv|].
  rewrite latest_version_length by (rewrite Hvs; exact Hnum).
  rewrite Hvs, List.length_app, Nat.add_comm. cbn [length Nat.add].
  destruct (numbered_last _ _ Hnum) as [-> _]. lia.
Qed.

Lemma version_numbers_witness :
  exists n,
    List.map version (versions_of thrice_corrected_db (id thrice_corrected_record))
    = List.map Z.of_nat (seq 1 (S n)) /\
    _get_latest_version_number thrice_corrected_db (id thrice_corrected_record)
    = Z.of_nat (S n).
Proof.
  apply (version_numbers_have_no_gaps default_settings corrected_thrice
           thrice_corrected_record).
  vm_compute. left. reflexivity.
Defined.

Lemma history_witness :
  get_history thrice_corrected_db (id thrice_corrected_record) 2
  = firstn 2 (rev (versions_of thrice_corrected_db (id thrice_corrected_record))) /\
  exists v older,
    get_history thrice_corrected_db (id thrice_corrected_record) 3 = v :: older /\
    v_value v = value thrice_corrected_record /\
    version v = _get_latest_version_number thrice_corrected_db (id thrice_corrected_record).
Proof.
  apply (history_starts_with_current_value default_settings corrected_thrice
           thrice_corrected_record 2).
  vm_compute. left. reflexivity.
Defined.

End HistoryFacts.

(** ** Rollback, deletion and clean-up *)

Module StoreFacts.
Import Py Py.Notations Calendar Config Models Memory Samples MemoryFacts HistoryFacts.
Local Open Scope string_scope.
Local Open Scope Z_scope.

(** X6.  [rollback] to an existing version of an existing record returns:
    the record takes the value and the confidence of that version and
    [rollback_by] as its source, keeps its correction count and status,
    and takes the version's interpretation only when the version has one
    (otherwise the current interpretation stays).  The history is not
    rewound: one version row is appended, numbered one above the latest,
    holding the restored value and the value replaced. *)
Theorem rollback_restores_old_value :
  forall now db cid c tv to_version by_,
    get_by_id db cid = Ok (Some c) ->
    List.filter (fun v => N.eqb (v_context_id v) cid && (version v =? to_version))
                (context_versions db) = [tv] ->
    exists db' c' nv,
      rollback now db cid to_version by_ = Ok (db', c') /\
      get_by_id db' cid = Ok (Some c') /\
      value c' = v_value tv /\
      confidence c' = v_confidence tv /\
      interpretation c' =
        match v_interpretation tv with Some i => Some i | None => interpretation c end /\
      source c' = by_ /\
      correction_count c' = correction_count c /\
      drift_status c' = drift_status c /\
      context_versions db' = (context_versions db ++ [nv])%list /\
      version nv = _get_latest_version_number db cid + 1 /\
      v_value nv = v_value tv /\
      previous_value nv = Some (value c).
Proof.
  intros now db cid c tv to_version by_ Hget Htv.
  unfold rollback. rewrite Htv. cbn [scalar_one_or_none bind].
  unfold update. rewrite Hget. cbn [bind].
  destruct (get_by_id_some _ _ _ Hget) as (_ & Hid & _).
  destruct c, (v_interpretation tv) as [i|].
  all: eexists _, _, _; (split; [reflexivity|]); split;
    [rewrite get_by_id_create_version; eapply get_by_id_write_row; [exact Hget|exact Hid]|];
    cbn; repeat split; reflexivity.
Qed.

Lemma filter_none {A : Type} (f : A -> bool) (l : list A) :
  (forall x, In x l -> f x = false) -> List.filter f l = [].
Proof.
  induction l as [|a l IH]; intros H; [reflexivity|]. cbn [List.filter].
  rewrite (H a (or_introl eq_refl)). apply IH. intros x Hx. apply H. right. exact Hx.
Qed.

(** X7.  With unique primary keys and at most one active record per
    [(user_id, context_type, key)]: after the soft delete of an active
    record the lookup [_get_by_key] of its triple finds nothing, while
    [get_by_id] still returns the row, now inactive with [deleted_at]
    set; the version rows stay. *)
Theorem soft_delete_frees_the_key :
  forall now db c,
    unique_ids db -> one_active db ->
    In c (contexts db) -> is_active c = true ->
    let db' := delete now db (id c) true in
    _get_by_key db' (user_id c) (context_type c) (key c) = Ok None /\
    get_by_id db' (id c)
    = Ok (Some (set_updated_at now (set_deleted_at (Some now) (set_is_active false c)))) /\
    context_versions db' = context_versions db.
Proof.
  intros now db c Hu Hone Hc Hact db'. split; [|split; [|reflexivity]].
  - unfold _get_by_key. apply scalar_one_or_none_none.
    unfold db', delete. cbn [contexts].
    assert (Hkey : key_matches (user_id c) (context_type c) (key c) c = true).
    { unfold key_matches. rewrite N.eqb_refl, String.eqb_refl, Hact.
      destruct (context_type c); reflexivity. }
    assert (Honly : forall r, In r (contexts db) ->
              key_matches (user_id c) (context_type c) (key c) r = true -> r = c).
    { intros r Hr Hk. specialize (Hone (user_id c) (context_type c) (key c)).
      destruct (List.filter _ _) as [|a [|b l]] eqn:E.
      - assert (H : In c []) by (rewrite <- E; apply List.filter_In; auto). destruct H.
      - assert (H1 : In c [a]) by (rewrite <- E; apply List.filter_In; auto).
        assert (H2 : In r [a]) by (rewrite <- E; apply List.filter_In; auto).
        destruct H1 as [<-|[]], H2 as [<-|[]]. reflexivity.
      - simpl in Hone. lia. }
    apply filter_none. intros r' Hr'. apply List.in_map_iff in Hr'.
    destruct Hr' as (r & <- & Hr).
    destruct (N.eqb (id r) (id c)) eqn:E.
    + unfold key_matches. destruct r; cbn. apply Bool.andb_false_r.
    + destruct (key_matches _ _ _ r) eqn:Hk; [|reflexivity].
      rewrite (Honly r Hr Hk), N.eqb_refl in E. discriminate.
  - pose proof (unique_ids_get_by_id db c Hu Hc) as Hget.
    unfold db', delete, get_by_id. cbn [contexts].
    unfold get_by_id in Hget. apply scalar_one_or_none_some in Hget.
    apply scalar_one_or_none_some.
    rewrite filter_map_stable.
    + rewrite Hget. cbn [List.map]. rewrite N.eqb_refl. reflexivity.
    + intros r _. cbv beta. destruct (N.eqb (id r) (id c)) eqn:E; [|exact E].
      destruct r; cbn in *. exact E.
Qed.

(** X8.  [cleanup_expired] keeps exactly the rows that are not ephemeral
    or not yet expired, returns the number of rows it removed, and a
    second run at the same clock reading removes nothing and returns 0. *)
Theorem cleanup_expired_is_idempotent :
  forall now db,
    let db' := fst (cleanup_expired now db) in
    cleanup_expired now db' = (db', 0) /\
    snd (cleanup_expired now db) + Z.of_nat (length (contexts db'))
    = Z.of_nat (length (contexts db)) /\
    (forall c, In c (contexts db') <->
               In c (contexts db) /\
               (memory_tier c = EPHEMERAL -> is_expired now c = false)).
Proof.
  intros now db db'. split; [|split].
  - unfold db', cleanup_expired. cbn [fst contexts context_versions].
    assert (Hgone : List.filter (expired_ephemeral now)
                      (List.filter (fun c => negb (expired_ephemeral now c)) (contexts db)) = []).
    { apply filter_none. intros c Hc. apply List.filter_In in Hc.
      destruct Hc as [_ Hc]. apply negb_true_iff in Hc. exact Hc. }
    rewrite Hgone. cbn [length existsb negb Z.of_nat]. f_equal. f_equal.
    + apply List.forallb_filter_id. apply forallb_forall. intros c Hc.
      apply List.filter_In in Hc. tauto.
    + apply List.forallb_filter_id. apply forallb_forall. reflexivity.
  - unfold db', cleanup_expired. cbn [fst snd contexts].
    rewrite <- Nat2Z.inj_add. f_equal.
    induction (contexts db) as [|a l IH]; [reflexivity|]. cbn [List.filter].
    destruct (expired_ephemeral now a); cbn [negb length]; lia.
  - intros c. unfold db', cleanup_expired. cbn [fst contexts].
    rewrite List.filter_In. unfold expired_ephemeral, is_expired.
    split; intros [Hin H]; (split; [exact Hin|]).
    + intros Ht. rewrite Ht in H. cbn in H. apply negb_true_iff in H. exact H.
    + destruct (memory_tier c); try reflexivity. rewrite H; reflexivity.
Qed.

Lemma rollback_witness :
  exists db' c' nv,
    rollback 50 thrice_corrected_db 7%N 1 "admin" = Ok (db', c') /\
    value c' = project_value /\
    correction_count c' = 3 /\
    drift_status c' = CONFLICTING /\
    version nv = 5 /\
    context_versions db' = (context_versions thrice_corrected_db ++ [nv])%list.
Proof.
  destruct (rollback_restores_old_value 50 thrice_corrected_db 7%N
              thrice_corrected_record first_version 1 "admin")
    as (db' & c' & nv & Hr & _ & Hv & _ & _ & _ & Hcc & Hds & Hvs & Hn & _).
  - vm_compute. reflexivity.
  - vm_compute. reflexivity.
  - exists db', c', nv. split; [exact Hr|]. split; [exact Hv|].
    split; [exact Hcc|]. split; [exact Hds|]. split; [exact Hn|exact Hvs].
Defined.

Lemma soft_delete_witness :
  _get_by_key (delete 10 stable_db 7%N true) 1%N SITUATIONAL "project_status_key"
  = Ok None /\
  get_by_id (delete 10 stable_db 7%N true) 7%N
  = Ok (Some (set_updated_at 10 (set_deleted_at (Some 10)
                                   (set_is_active false stable_record)))) /\
  context_versions (delete 10 stable_db 7%N true) = context_versions stable_db.
Proof.
  apply (soft_delete_frees_the_key 10 stable_db stable_record).
  - repeat constructor. simpl. tauto.
  - intros uid ct k. simpl. destruct (key_matches uid ct k stable_record); simpl; lia.
  - left. reflexivity.
  - reflexivity.
Defined.

End StoreFacts.

(** ** Decay, missing records and the columns that never change *)

Module DecayFacts.
Import Py Py.Notations Calendar Config Models Memory Samples MemoryFacts HistoryFacts StoreFacts.
Local Open Scope string_scope.
Local Open Scope Z_scope.

Lemma ltb_irrefl (x : float) : PrimFloat.ltb x x = false.
Proof.
  rewrite ltb_spec. unfold SFltb.
  destruct (Prim2SF x) as [s|s| |s m e]; cbn; try reflexivity.
  - destruct s; reflexivity.
  - rewrite Z.compare_refl.
    change (PosDef.Pos.compare_cont Eq m m) with (Pos.compare_cont Eq m m).
    rewrite Pos.compare_cont_refl. destruct s; reflexivity.
Qed.

Lemma greatest_not_below (a b : float) : PrimFloat.ltb (greatest a b) b = false.
Proof.
  unfold greatest. destruct (PrimFloat.ltb a b) eqn:E; [apply ltb_irrefl|exact E].
Qed.


Lemma decays_spec cfg now uid floor r :
  decays cfg now uid floor r = true <->
  is_active r = true /\
  updated_at r < now - td_hours (CONTEXT_DECAY_HOURS cfg) /\
  PrimFloat.ltb floor (confidence r) = true /\
  memory_tier r <> LONG_TERM /\
  match uid with Some u => user_id r = u | None => True end.
Proof.
  unfold decays. rewrite !Bool.andb_true_iff, Z.ltb_lt, negb_true_iff.
  assert (Ht : MemoryTier_eqb (memory_tier r) LONG_TERM = false <-> memory_tier r <> LONG_TERM)
    by (destruct (memory_tier r); cbn; split; congruence).
  assert (Hu : match uid with Some u => N.eqb (user_id r) u | None => true end = true <->
               match uid with Some u => user_id r = u | None => True end)
    by (destruct uid; [apply N.eqb_eq|tauto]).
  tauto.
Qed.

(** X9.  [apply_decay] writes no version row and keeps the rows in place.
    A row that is inactive, long-term, updated within the decay window or
    not above the floor [min_confidence] is left as it was; any other row
    is either left as it was or becomes the decayed row: its confidence is
    not below the floor, its status is stale, its value and correction
    count are kept. *)
Theorem apply_decay_spares_and_floors :
  forall cfg now db uid factor floor,
    let db' := fst (apply_decay cfg now db uid factor floor) in
    context_versions db' = context_versions db /\
    Forall2 (fun r r' =>
               (is_active r = false \/ memory_tier r = LONG_TERM \/
                now - td_hours (CONTEXT_DECAY_HOURS cfg) <= updated_at r \/
                PrimFloat.ltb floor (confidence r) = false -> r' = r) /\
               (r' = r \/
                r' = decayed now factor floor r /\
                PrimFloat.ltb (confidence r') floor = false /\
                drift_status r' = STALE /\
                value r' = value r /\ correction_count r' = correction_count r))
            (contexts db) (contexts db').
Proof.
  intros cfg now db uid factor floor db'. split; [reflexivity|].
  unfold db', apply_decay. cbn [fst contexts].
  induction (contexts db) as [|r l IH]; cbn [List.map]; constructor; [|exact IH].
  destruct (decays cfg now uid floor r) eqn:E.
  - apply decays_spec in E. destruct E as (Ha & Hu & Hc & Ht & _). split.
    + intros [H|[H|[H|H]]]; [congruence|congruence|lia|congruence].
    + right. split; [reflexivity|]. destruct r; cbn. repeat split.
      apply greatest_not_below.
  - split; [reflexivity|left; reflexivity].
Qed.


Lemma map_id_on {A : Type} (g : A -> A) (l : list A) :
  (forall x, In x l -> g x = x) -> List.map g l = l.
Proof.
  intros H. rewrite <- (List.map_id l) at 2. apply List.map_ext_in. exact H.
Qed.

(** X11.  For an id that names no row: [update], [confirm] and
    [record_correction] raise [ValueError] and leave the tables as they
    were, while [delete] (soft or hard) returns without error and leaves
    the rows as they were. *)
Theorem calls_on_missing_record :
  forall cfg now db cid,
    ~ In cid (List.map id (contexts db)) ->
    (forall v cf src ip reason,
        (exists msg, update now db cid v cf src ip reason = Raise (ValueError msg)) /\
        step cfg db (now, Update cid v cf src ip reason) = db) /\
    ((exists msg, confirm now db cid = Raise (ValueError msg)) /\
     step cfg db (now, Confirm cid) = db) /\
    (forall v by_,
        (exists msg, record_correction now db cid v by_ = Raise (ValueError msg)) /\
        step cfg db (now, RecordCorrection cid v by_) = db) /\
    (forall soft, contexts (delete now db cid soft) = contexts db).
Proof.
  intros cfg now db cid Hmiss.
  assert (Hget : get_by_id db cid = Ok None).
  { unfold get_by_id. rewrite filter_id_absent by exact Hmiss. reflexivity. }
  assert (Hne : forall r, In r (contexts db) -> N.eqb (id r) cid = false).
  { intros r Hr. destruct (N.eqb (id r) cid) eqn:E; [|reflexivity].
    apply N.eqb_eq in E. exfalso. apply Hmiss. rewrite <- E. apply List.in_map, Hr. }
  split; [|split; [|split]].
  - intros. unfold step. cbn [fst snd exec]. unfold update. rewrite Hget. cbn. eauto.
  - unfold step. cbn [fst snd exec]. unfold confirm. rewrite Hget. cbn. eauto.
  - intros. unfold step. cbn [fst snd exec]. unfold record_correction. rewrite Hget.
    cbn. eauto.
  - intros soft. unfold delete. destruct soft; cbn [contexts].
    + apply map_id_on. intros r Hr. rewrite (Hne r Hr). reflexivity.
    + apply List.forallb_filter_id. apply forallb_forall. intros r Hr.
      rewrite (Hne r Hr). reflexivity.
Qed.

Lemma same_identity_refl r : same_identity r r.
Proof. repeat split. Qed.

Lemma same_identity_payload c c' : same_but_payload c c' -> same_identity c c'.
Proof.
  intros (H1 & H2 & H3 & H4 & H5 & H6 & _ & _ & _ & H10 & _ & H12 & H13 & _).
  repeat split; assumption.
Qed.

Lemma identity_write_row db cid c c' r' :
  get_by_id db cid = Ok (Some c) ->
  same_identity c c' ->
  In r' (contexts (write_row c' db)) ->
  exists r, In r (contexts db) /\ same_identity r r'.
Proof.
  intros Hget Hsame Hin. destruct (get_by_id_some _ _ _ Hget) as (Hc & Hid & Huniq).
  unfold write_row in Hin. cbn [contexts] in Hin. apply List.in_map_iff in Hin.
  destruct Hin as (r & <- & Hr). exists r. split; [exact Hr|].
  destruct (N.eqb (id r) (id c')) eqn:E; [|apply same_identity_refl].
  apply N.eqb_eq in E. rewrite (proj1 Hsame), Hid in E.
  rewrite (Huniq r Hr E). exact Hsame.
Qed.

Lemma identity_update now db cid v cf src ip reason db' c' r' :
  update now db cid v cf src ip reason = Ok (db', c') ->
  In r' (contexts db') ->
  exists r, In r (contexts db) /\ same_identity r r'.
Proof.
  intros Hup Hin.
  destruct (update_spec _ _ _ _ _ _ _ _ _ _ Hup) as (c & Hget & Hsame & _ & _ & _ & _ & _ & Hrows).
  apply identity_write_row with (cid := cid) (c := c) (c' := c');
    [exact Hget|apply same_identity_payload, Hsame|].
  unfold write_row. cbn [contexts]. rewrite <- Hrows. exact Hin.
Qed.

(** X12.  After any service call that returns, every row of [contexts]
    either continues a row that was there before, with the same id, owner,
    type, key, memory tier, expiry, session id, source details and
    creation time, or is the row a [Store] call has just created under an
    id that was not in use.  No call changes the tier or the expiry of an
    existing record. *)
Theorem calls_keep_identity_columns :
  forall cfg now call db db' r',
    exec cfg now call db = Ok db' ->
    In r' (contexts db') ->
    (exists r, In r (contexts db) /\ same_identity r r') \/
    ((forall r, In r (contexts db) -> id r <> id r') /\
     (exists new_id uid ct k v tier cf src sd ip sid ttl,
         call = Store new_id uid ct k v tier cf src sd ip sid ttl /\
         id r' = new_id /\ user_id r' = uid /\ context_type r' = ct /\ key r' = k /\
         memory_tier r' = tier /\ created_at r' = now)).
Proof.
  intros cfg now call db db' r' Hexec Hin.
  destruct call; cbn [exec] in Hexec.
  - destruct (store _ _ _ _ _ _ _ _ _ _ _ _ _ _ _) as [[d c']|e] eqn:E; [|discriminate].
    cbn in Hexec. inversion Hexec; subst d. clear Hexec.
    unfold store in E. destruct (_get_by_key db uid ct k) as [[e|]|x]; cbn [bind] in E;
      [left; eapply identity_update; eauto| |discriminate].
    unfold insert_row in E. cbn [id] in E.
    destruct (existsb _ _) eqn:Hex; cbn [bind] in E; [discriminate|].
    inversion E; subst; clear E. cbn [contexts _create_version] in Hin.
    apply List.in_app_iff in Hin. destruct Hin as [Hin|[<-|[]]].
    + left. exists r'. split; [exact Hin|apply same_identity_refl].
    + right. split.
      * intros r Hr Heq. cbn [id] in Heq.
        assert (existsb (fun r0 => N.eqb (id r0) new_id) (contexts db) = true).
        { apply existsb_exists. exists r. split; [exact Hr|]. apply N.eqb_eq, Heq. }
        congruence.
      * repeat eexists.
  - destruct (update _ _ _ _ _ _ _ _) as [[d c']|e] eqn:E; [|discriminate].
    cbn in Hexec. inversion Hexec; subst d. left. eapply identity_update; eauto.
  - inversion Hexec; subst db'. clear Hexec. left. unfold delete in Hin.
    destruct soft_delete; cbn [contexts] in Hin.
    + apply List.in_map_iff in Hin. destruct Hin as (r & <- & Hr). exists r.
      split; [exact Hr|]. destruct (N.eqb (id r) context_id); destruct r; repeat split.
    + apply List.filter_In in Hin. exists r'. split; [tauto|apply same_identity_refl].
  - inversion Hexec; subst db'. clear Hexec. left.
    unfold apply_decay in Hin. cbn [fst contexts] in Hin.
    apply List.in_map_iff in Hin. destruct Hin as (r & <- & Hr). exists r.
    split; [exact Hr|]. destruct (decays _ _ _ _ r); destruct r; repeat split.
  - destruct (confirm _ _ _) as [[d c']|e] eqn:E; [|discriminate].
    cbn in Hexec. inversion Hexec; subst d. clear Hexec. left.
    unfold confirm in E. destruct (get_by_id db context_id) as [[c|]|x] eqn:Hget;
      cbn [bind] in E; try discriminate.
    inversion E; subst; clear E.
    eapply identity_write_row; [exact Hget| |exact Hin].
    destruct c; repeat split.
  - destruct (record_correction _ _ _ _ _) as [[d c']|e] eqn:E; [|discriminate].
    cbn in Hexec. inversion Hexec; subst d. clear Hexec. left.
    unfold record_correction in E.
    destruct (get_by_id db context_id) as [[c|]|x] eqn:Hget; cbn [bind] in E; try discriminate.
    inversion E; subst; clear E. cbn [contexts _create_version] in Hin.
    eapply identity_write_row; [exact Hget| |exact Hin].
    destruct c; unfold Models.record_correction; cbn. destruct (3 <=? _); repeat split.
  - destruct (rollback _ _ _ _ _) as [[d c']|e] eqn:E; [|discriminate].
    cbn in Hexec. inversion Hexec; subst d. clear Hexec. left.
    unfold rollback in E. destruct (scalar_one_or_none _) as [[tv|]|x]; cbn [bind] in E;
      try discriminate.
    eapply identity_update; eauto.
  - inversion Hexec; subst db'. clear Hexec. left.
    unfold cleanup_expired in Hin. cbn [fst contexts] in Hin.
    apply List.filter_In in Hin. exists r'. split; [tauto|apply same_identity_refl].
Qed.


Lemma missing_record_witness :
  (exists msg, confirm 10 stable_db 99%N = Raise (ValueError msg)) /\
  contexts (delete 10 stable_db 99%N false) = contexts stable_db.
Proof.
  destruct (calls_on_missing_record default_settings 10 stable_db 99%N)
    as (_ & [Hc _] & _ & Hd).
  - simpl. intros [H|[]]. discriminate.
  - split; [exact Hc|apply Hd].
Defined.

Lemma identity_columns_witness :
  exists r, In r (contexts stable_db) /\ same_identity r confirmed_record.
Proof.
  destruct (calls_keep_identity_columns default_settings 10 (Confirm 7%N) stable_db
              confirmed_db confirmed_record) as [H|[H _]].
  - vm_compute. reflexivity.
  - vm_compute. left. reflexivity.
  - exact H.
  - exfalso. apply (H stable_record); [left; reflexivity|reflexivity].
Defined.

End DecayFacts.

(** ** Deliveries of the resolution bus *)

Module BusMoreFacts.
Import Py Bus Samples BusFacts.
Local Open Scope string_scope.

(** X13.  A request registered under a fresh id, answered while it is
    pending and then resumed hands the caller exactly the context built
    from the response, and leaves no entry for the id in the pending
    table or in the result buffer. *)
Theorem answered_request_round_trip :
  forall bus rid now now' data,
    rid ∉ issued bus ->
    get data "request_id" = JStr rid ->
    rid <> "" ->
    run bus [Register rid; Respond now data; Resume now' rid]
    = Some (mk_EventBus (delete rid (_pending_requests bus))
                        (delete rid (_results bus))
                        (delivered bus ++ [(rid, response_context now rid data)])
                        ({[rid]} ∪ issued bus)).
Proof.
  intros bus rid now now' data Hfresh Hid Hne.
  cbn [run step]. destruct (decide (rid ∈ issued bus)) as [H|_]; [contradiction|].
  unfold handle_response. rewrite Hid. apply String.eqb_neq in Hne. rewrite Hne.
  cbn [_pending_requests _results delivered issued].
  rewrite lookup_insert_eq. cbn [_pending_requests _results delivered issued].
  rewrite !lookup_insert_eq. cbn [from_option id].
  rewrite !delete_insert_eq. reflexivity.
Qed.

Lemma answers_mono pre a rid ctx :
  answers pre rid ctx -> answers (pre ++ [a]) rid ctx.
Proof.
  intros (now & data & Hin & H). exists now, data. split; [|exact H].
  apply List.in_app_iff. left. exact Hin.
Qed.

Lemma step_backed pre bus a bus' :
  step bus a = Some bus' -> backed pre bus -> backed (pre ++ [a]) bus'.
Proof.
  intros Hstep (Hev & Hres & Hdel). destruct a as [rid|now data|now rid|rid]; cbn [step] in Hstep.
  - destruct (decide (rid ∈ issued bus)); [discriminate|]. inversion Hstep; subst; clear Hstep.
    split; [|split]; cbn [_pending_requests _results delivered].
    + intros r Hr. destruct (decide (rid = r)) as [->|Hne].
      * rewrite lookup_insert_eq in Hr. discriminate.
      * rewrite lookup_insert_ne in Hr by exact Hne. apply Hev, Hr.
    + intros r ctx Hr. apply answers_mono, Hres, Hr.
    + intros r ctx Hr. apply answers_mono, Hdel, Hr.
  - inversion Hstep; subst; clear Hstep. unfold handle_response.
    destruct (get data "request_id") as [| | | |rid| |] eqn:Hid;
      try (split; [exact Hev|split; intros r ctx Hr; apply answers_mono; auto]).
    destruct (String.eqb rid "") eqn:Hne;
      try (split; [exact Hev|split; intros r ctx Hr; apply answers_mono; auto]).
    apply String.eqb_neq in Hne.
    split; [|split]; cbn [_pending_requests _results delivered].
    + intros r Hr. destruct (decide (rid = r)) as [->|Hner].
      * rewrite lookup_insert_eq. eauto.
      * rewrite lookup_insert_ne by exact Hner. apply Hev.
        destruct (_pending_requests bus !! rid); [|exact Hr].
        rewrite lookup_insert_ne in Hr by exact Hner. exact Hr.
    + intros r ctx Hr. destruct (decide (rid = r)) as [->|Hner].
      * rewrite lookup_insert_eq in Hr. inversion Hr; subst ctx.
        exists now, data. split; [apply List.in_app_iff; right; left; reflexivity|].
        split; [exact Hid|]. split; [exact Hne|reflexivity].
      * rewrite lookup_insert_ne in Hr by exact Hner. apply answers_mono, Hres, Hr.
    + intros r ctx Hr. apply answers_mono, Hdel, Hr.
  - destruct (_pending_requests bus !! rid) as [[|]|] eqn:Hp; try discriminate.
    inversion Hstep; subst; clear Hstep.
    split; [|split]; cbn [_pending_requests _results delivered].
    + intros r Hr. destruct (decide (rid = r)) as [->|Hne].
      * rewrite lookup_delete_eq in Hr. discriminate.
      * rewrite lookup_delete_ne in Hr by exact Hne.
        rewrite lookup_delete_ne by exact Hne. apply Hev, Hr.
    + intros r ctx Hr. destruct (decide (rid = r)) as [->|Hne].
      * rewrite lookup_delete_eq in Hr. discriminate.
      * rewrite lookup_delete_ne in Hr by exact Hne. apply answers_mono, Hres, Hr.
    + intros r ctx Hr. apply List.in_app_iff in Hr. destruct Hr as [Hr|[Hr|[]]].
      * apply answers_mono, Hdel, Hr.
      * inversion Hr; subst; clear Hr. destruct (Hev r Hp) as [h Hh].
        rewrite Hh. cbn. apply answers_mono, Hres, Hh.
  - destruct (_pending_requests bus !! rid) as [b|] eqn:Hp; try discriminate.
    inversion Hstep; subst; clear Hstep.
    split; [|split]; cbn [_pending_requests _results delivered].
    + intros r Hr. destruct (decide (rid = r)) as [->|Hne].
      * rewrite lookup_delete_eq in Hr. discriminate.
      * rewrite lookup_delete_ne in Hr by exact Hne. apply Hev, Hr.
    + intros r ctx Hr. apply answers_mono, Hres, Hr.
    + intros r ctx Hr. apply answers_mono, Hdel, Hr.
Qed.

Lemma run_backed trace : forall pre bus bus',
  run bus trace = Some bus' -> backed pre bus -> backed (pre ++ trace) bus'.
Proof.
  induction trace as [|a trace IH]; intros pre bus bus' Hrun Hb.
  - inversion Hrun; subst. rewrite List.app_nil_r. exact Hb.
  - cbn [run] in Hrun. destruct (step bus a) as [bus1|] eqn:Hstep; [|discriminate].
    replace (pre ++ a :: trace)%list with ((pre ++ [a]) ++ trace)%list
      by (rewrite <- List.app_assoc; reflexivity).
    eapply IH; [exact Hrun|]. eapply step_backed; eauto.
Qed.

(** X14.  On every run of the bus from its initial state, each context
    handed to a caller was built by [handle_response] from a response that
    carries the caller's request id: the empty placeholder context of
    [_request_high_entropy_context] is never delivered. *)
Theorem delivered_contexts_answer_their_request :
  forall trace bus rid ctx,
    run new_EventBus trace = Some bus ->
    In (rid, ctx) (delivered bus) ->
    exists now data,
      In (Respond now data) trace /\
      get data "request_id" = JStr rid /\
      ctx = response_context now rid data.
Proof.
  intros trace bus rid ctx Hrun Hin.
  assert (Hb : backed [] new_EventBus).
  { split; [|split].
    - intros r Hr. cbn in Hr. rewrite lookup_empty in Hr. discriminate.
    - intros r c Hr. cbn in Hr. rewrite lookup_empty in Hr. discriminate.
    - intros r c []. }
  destruct (run_backed trace [] _ _ Hrun Hb) as (_ & _ & Hdel).
  destruct (Hdel rid ctx Hin) as (now & data & H1 & H2 & _ & H4). eauto.
Qed.

Lemma round_trip_witness :
  run new_EventBus [Register "r1"; Respond 200 late_answer; Resume 210 "r1"]
  = Some (mk_EventBus (delete "r1" (_pending_requests new_EventBus))
                      (delete "r1" (_results new_EventBus))
                      (delivered new_EventBus
                       ++ [("r1", response_context 200 "r1" late_answer)])
                      ({["r1"]} ∪ issued new_EventBus)).
Proof.
  apply (answered_request_round_trip new_EventBus "r1" 200 210 late_answer).
  - apply not_elem_of_empty.
  - reflexivity.
  - discriminate.
Defined.

Lemma delivered_context_witness :
  exists now data,
    In (Respond now data) busy_afterwards /\
    get data "request_id" = JStr "r2" /\
    response_context 300 "r2" answer_r2 = response_context now "r2" data.
Proof.
  apply (delivered_contexts_answer_their_request busy_afterwards answered_bus "r2"
           (response_context 300 "r2" answer_r2)).
  - vm_compute. reflexivity.
  - vm_compute. left. reflexivity.
Defined.

End BusMoreFacts.

(** ** Selection and composition of the prompt *)

Module SelectionFacts.
Import Py Py.Notations Composer Samples.
Local Open Scope string_scope.
Local Open Scope Z_scope.

Section Selection.

Variable max_tokens : Z.
Variable min_relevance : float.

Lemma fold_add_shift (l : list Z) (a : Z) : fold_left Z.add l a = a + fold_left Z.add l 0.
Proof.
  revert a. induction l as [|x l IH]; intros a; cbn [fold_left]; [lia|].
  rewrite (IH (a + x)), (IH (0 + x)). lia.
Qed.

Lemma tokens_cons e l : tokens (e :: l) = token_estimate e + tokens l.
Proof. unfold tokens. cbn [List.map fold_left]. rewrite fold_add_shift. lia. Qed.

Lemma tokens_app l l' : tokens (l ++ l') = tokens l + tokens l'.
Proof.
  induction l as [|e l IH]; [reflexivity|].
  cbn [app]. rewrite !tokens_cons, IH. lia.
Qed.

Lemma tokens_rev l : tokens (rev l) = tokens l.
Proof.
  induction l as [|e l IH]; [reflexivity|].
  cbn [rev]. rewrite tokens_app, !tokens_cons, IH.
  change (tokens []) with 0. lia.
Qed.

Lemma relevance_eqb_eq a b : ContextRelevance_eqb a b = true <-> a = b.
Proof. destruct a, b; cbn; split; congruence. Qed.

Lemma relevance_eqb_neq a b : ContextRelevance_eqb a b = false -> a <> b.
Proof. intros H E. apply relevance_eqb_eq in E. congruence. Qed.

Lemma select_loop_spec elements : forall included excluded current_tokens inc exc,
  select_loop max_tokens min_relevance elements included excluded current_tokens
  = Ok (inc, exc) ->
  kept max_tokens min_relevance included current_tokens ->
  exists inc' exc',
    inc = (rev included ++ inc')%list /\ exc = (rev excluded ++ exc')%list /\
    Permutation (inc' ++ exc') elements /\
    (forall e, In e elements -> relevance e = CRITICAL ->
               lt_float (confidence e) min_relevance = Ok false -> In e inc') /\
    kept max_tokens min_relevance (rev inc) (tokens inc).
Proof.
  induction elements as [|x rest IH]; intros included excluded cur inc exc Hsel Hk.
  - cbn in Hsel. inversion Hsel; subst. exists [], [].
    rewrite !List.app_nil_r. split; [reflexivity|]. split; [reflexivity|].
    split; [reflexivity|]. split; [intros e []|].
    rewrite rev_involutive, tokens_rev. destruct Hk as (Hc & Hf & Hb).
    rewrite <- Hc. split; [exact Hc|]. split; assumption.
  - cbn [select_loop] in Hsel.
    assert (Hexc : select_loop max_tokens min_relevance rest included (x :: excluded) cur
                   = Ok (inc, exc) ->
                   (relevance x = CRITICAL ->
                    lt_float (confidence x) min_relevance = Ok false -> False) ->
                   exists inc' exc',
                     inc = (rev included ++ inc')%list /\ exc = (rev excluded ++ exc')%list /\
                     Permutation (inc' ++ exc') (x :: rest) /\
                     (forall e, In e (x :: rest) -> relevance e = CRITICAL ->
                                lt_float (confidence e) min_relevance = Ok false -> In e inc') /\
                     kept max_tokens min_relevance (rev inc) (tokens inc)).
    { intros Hsel' Hnot.
      destruct (IH _ _ _ _ _ Hsel' Hk) as (i & e & Hi & He & Hp & Hcr & Hkept).
      exists i, (x :: e). split; [exact Hi|]. split.
      { rewrite He. cbn [rev]. rewrite <- List.app_assoc. reflexivity. }
      split; [rewrite <- Hp; symmetry; apply Permutation_middle|].
      split; [|exact Hkept].
      intros y [<-|Hy] Hc Hl; [exfalso; auto|apply Hcr; assumption]. }
    assert (Hinc : select_loop max_tokens min_relevance rest (x :: included) excluded
                     (cur + token_estimate x) = Ok (inc, exc) ->
                   kept max_tokens min_relevance (x :: included) (cur + token_estimate x) ->
                   exists inc' exc',
                     inc = (rev included ++ inc')%list /\ exc = (rev excluded ++ exc')%list /\
                     Permutation (inc' ++ exc') (x :: rest) /\
                     (forall e, In e (x :: rest) -> relevance e = CRITICAL ->
                                lt_float (confidence e) min_relevance = Ok false -> In e inc') /\
                     kept max_tokens min_relevance (rev inc) (tokens inc)).
    { intros Hsel' Hk'.
      destruct (IH _ _ _ _ _ Hsel' Hk') as (i & e & Hi & He & Hp & Hcr & Hkept).
      exists (x :: i), e. split.
      { rewrite Hi. cbn [rev]. rewrite <- List.app_assoc. reflexivity. }
      split; [exact He|]. split; [cbn [app]; rewrite Hp; reflexivity|].
      split; [|exact Hkept].
      intros y [<-|Hy] Hc Hl; [left; reflexivity|right; apply Hcr; assumption]. }
    destruct (ContextRelevance_eqb (relevance x) IRRELEVANT) eqn:Hirr.
    { apply Hexc; [exact Hsel|]. apply relevance_eqb_eq in Hirr. congruence. }
    destruct (lt_float (confidence x) min_relevance) as [[|]|err] eqn:Hlow;
      cbn [bind] in Hsel; [| |discriminate].
    { apply Hexc; [exact Hsel|]. congruence. }
    assert (Hnirr : relevance x <> IRRELEVANT).
    { intros H. apply relevance_eqb_eq in H. congruence. }
    assert (Hk' : (cur + token_estimate x <= max_tokens \/ relevance x = CRITICAL) ->
                  kept max_tokens min_relevance (x :: included) (cur + token_estimate x)).
    { destruct Hk as (Hc & Hf & Hb).
      intros Hwhy. split; [rewrite tokens_cons; lia|]. split; [constructor; auto|].
      right. destruct Hwhy as [Hle|Hcrit]; [left; exact Hle|].
      right. exists x. split; [left; reflexivity|exact Hcrit]. }
    destruct (cur + token_estimate x <=? max_tokens) eqn:Hfit.
    { apply Z.leb_le in Hfit. apply Hinc; auto. }
    destruct (ContextRelevance_eqb (relevance x) CRITICAL) eqn:Hcrit.
    { apply relevance_eqb_eq in Hcrit. apply Hinc; auto. }
    apply Hexc; [exact Hsel|]. intros H. apply relevance_eqb_eq in H. congruence.
Qed.

Lemma kept_nil : kept max_tokens min_relevance [] 0.
Proof. split; [reflexivity|]. split; [constructor|left; reflexivity]. Qed.

(** X15.  [_select_elements] files every candidate exactly once, under
    [included] or under [excluded].  An included element is never
    irrelevant and never has a confidence below [min_relevance]; a
    critical element whose confidence is not below [min_relevance] is
    always included, whatever the budget. *)
Theorem selection_partitions_candidates :
  forall elements included excluded,
    _select_elements max_tokens min_relevance elements = Ok (included, excluded) ->
    Permutation (included ++ excluded) elements /\
    (forall e, In e included ->
               relevance e <> IRRELEVANT /\
               lt_float (confidence e) min_relevance = Ok false) /\
    (forall e, In e elements -> relevance e = CRITICAL ->
               lt_float (confidence e) min_relevance = Ok false -> In e included).
Proof.
  intros elements included excluded Hsel.
  destruct (select_loop_spec _ _ _ _ _ _ Hsel kept_nil)
    as (i & e & -> & -> & Hp & Hcr & (_ & Hf & _)).
  cbn [rev app] in *. split; [exact Hp|]. split; [|exact Hcr].
  intros x Hx. rewrite List.Forall_forall in Hf. apply Hf, List.in_rev.
  rewrite rev_involutive. exact Hx.
Qed.

Theorem budget_exceeded_only_by_critical :
  forall elements included excluded,
    0 <= max_tokens ->
    _select_elements max_tokens min_relevance elements = Ok (included, excluded) ->
    tokens included <= max_tokens \/
    exists e, In e included /\ relevance e = CRITICAL.
Proof.
  intros elements included excluded Hmax Hsel.
  destruct (select_loop_spec _ _ _ _ _ _ Hsel kept_nil)
    as (i & e & -> & -> & _ & _ & (_ & _ & Hb)).
  cbn [rev app] in *. destruct Hb as [Hnil|[Hle|(x & Hx & Hc)]].
  - left. assert (i = []) as -> by (destruct i; [reflexivity|];
      cbn [rev] in Hnil; destruct (rev i); discriminate). exact Hmax.
  - left. exact Hle.
  - right. exists x. split; [|exact Hc]. apply List.in_rev. exact Hx.
Qed.

End Selection.

(** *** Sorting *)

Lemma insert_desc_perm x l : Permutation (insert_desc x l) (x :: l).
Proof.
  induction l as [|y l IH]; [reflexivity|]. cbn [insert_desc].
  destruct (PrimFloat.ltb (fst x) (fst y)); [|reflexivity].
  rewrite IH. apply perm_swap.
Qed.

Lemma with_scores_snd elements : forall keyed,
  with_scores elements = Ok keyed -> List.map snd keyed = elements.
Proof.
  induction elements as [|e rest IH]; intros keyed H; cbn [with_scores] in H.
  - inversion H. reflexivity.
  - destruct (inclusion_score e) as [k|err]; cbn [bind] in H; [|discriminate].
    destruct (with_scores rest) as [rest'|err]; cbn [bind] in H; [|discriminate].
    inversion H; subst. cbn [List.map snd]. f_equal. apply IH. reflexivity.
Qed.

Lemma sort_by_score_perm elements sorted :
  sort_by_score elements = Ok sorted -> Permutation sorted elements.
Proof.
  unfold sort_by_score. destruct (with_scores elements) as [keyed|err] eqn:E;
    cbn [bind]; [|discriminate].
  intros H. inversion H; subst. clear H.
  rewrite <- (with_scores_snd _ _ E). apply Permutation_map.
  clear E. induction keyed as [|k keyed IH]; [reflexivity|].
  cbn [fold_right]. rewrite insert_desc_perm. constructor. exact IH.
Qed.

(** *** What the builders produce *)

Lemma keyword_matches_bound kws msg : (keyword_matches kws msg <= length kws)%nat.
Proof. apply List.filter_length_le. Qed.

Lemma analyze_message_signals msg :
  _analyze_message msg
  = {| temporal := signal (keyword_matches TEMPORAL_KEYWORDS (lower msg));
       spatial := signal (keyword_matches SPATIAL_KEYWORDS (lower msg));
       situational := signal (keyword_matches SITUATIONAL_KEYWORDS (lower msg)) |}.
Proof. unfold _analyze_message, signal. cbv zeta. reflexivity. Qed.

Lemma below_two (n : nat) : (n < 2)%nat -> n = 0%nat \/ n = 1%nat.
Proof. lia. Qed.

Lemma weak_signal_is_irrelevant (n : nat) :
  (n < 2)%nat ->
  _score_to_relevance (signal n * 0.8) = IRRELEVANT /\
  _score_to_relevance (signal n * 0.7) = IRRELEVANT /\
  _score_to_relevance (signal n * 0.5) = IRRELEVANT.
Proof.
  intros H. destruct (below_two n H) as [->| ->]; vm_compute; auto.
Qed.

Lemma baseline_scores (n : nat) : (n <= 24)%nat -> relevant_at_all n = true.
Proof.
  intros H. do 25 (destruct n as [|n]; [vm_compute; reflexivity|]). lia.
Qed.


Ltac crunch H :=
  repeat match type of H with
  | context [bind (attr_get ?a ?b ?c) _] =>
      destruct (attr_get a b c); cbn [bind] in H; [|discriminate H]
  | context [bind (first_item ?a) _] =>
      destruct (first_item a); cbn [bind] in H; [|discriminate H]
  | context [bind (gt_int ?a ?b) _] =>
      destruct (gt_int a b); cbn [bind] in H; [|discriminate H]
  | context [if ?c then _ else _] => destruct c; cbn [bind] in H
  | context [match dict_get ?d ?k with _ => _ end] =>
      destruct (dict_get d k); cbn [bind] in H
  end.

Ltac shapes :=
  repeat match goal with
         | |- Forall _ (_ :: _) => constructor
         | |- Forall _ [] => constructor
         end;
  first [ left; split; reflexivity
        | right; split; reflexivity
        | right; left; split; reflexivity
        | right; right; split; reflexivity ].

Lemma temporal_elements_shape float_repr ctx signals els :
  _build_temporal_elements float_repr ctx signals = Ok els ->
  Forall (temporal_shape signals) els.
Proof.
  unfold _build_temporal_elements, temporal_shape. intros H. crunch H;
    inversion H; subst; cbn [app]; shapes.
Qed.

Lemma spatial_elements_shape ctx signals els :
  _build_spatial_elements ctx signals = Ok els ->
  Forall (spatial_shape signals) els.
Proof.
  unfold _build_spatial_elements, spatial_shape. intros H. crunch H;
    inversion H; subst; cbn [app]; shapes.
Qed.

Lemma situational_elements_shape float_repr ctx signals els :
  _build_situational_elements float_repr ctx signals = Ok els ->
  Forall (situational_shape signals) els.
Proof.
  unfold _build_situational_elements, situational_shape. intros H. crunch H;
    inversion H; subst; cbn [app]; shapes.
Qed.


(** *** [compose] *)

Lemma compose_spec float_repr json_dumps max_tokens min_relevance msg tc sc uc style r :
  compose float_repr json_dumps max_tokens min_relevance msg tc sc uc style = Ok r ->
  exists elements sorted,
    built msg tc sc uc elements /\
    Permutation sorted elements /\
    _select_elements max_tokens min_relevance sorted
    = Ok (included_context r, excluded_context r) /\
    user_message r = msg /\
    total_tokens r = tokens (included_context r) /\
    system_context r = _format_context float_repr json_dumps (included_context r) style.
Proof.
  unfold compose. intros H.
  destruct (match given tc with
            | Some c => _build_temporal_elements float_repr c (_analyze_message msg)
            | None => Ok []
            end) as [t|err] eqn:Ht; cbn [bind] in H; [|discriminate].
  destruct (match given sc with
            | Some c => _build_spatial_elements c (_analyze_message msg)
            | None => Ok []
            end) as [s|err] eqn:Hs; cbn [bind] in H; [|discriminate].
  destruct (match given uc with
            | Some c => _build_situational_elements float_repr c (_analyze_message msg)
            | None => Ok []
            end) as [u|err] eqn:Hu; cbn [bind] in H; [|discriminate].
  destruct (sort_by_score (t ++ s ++ u)) as [sorted|err] eqn:Hsort; cbn [bind] in H;
    [|discriminate].
  destruct (_select_elements max_tokens min_relevance sorted) as [[inc exc]|err] eqn:Hsel;
    cbn [bind] in H; [|discriminate].
  inversion H; subst; clear H. cbn.
  exists (t ++ s ++ u)%list, sorted. split.
  { exists t, s, u. split; [reflexivity|].
    split.
    { destruct (given tc); [eapply temporal_elements_shape; eauto|].
      inversion Ht. constructor. }
    split.
    { destruct (given sc); [eapply spatial_elements_shape; eauto|].
      inversion Hs. constructor. }
    split.
    { destruct (given uc); [eapply situational_elements_shape; eauto|].
      inversion Hu. constructor. }
    split; [intros E; rewrite E in Ht; inversion Ht; reflexivity|].
    split; [intros E; rewrite E in Hs; inversion Hs; reflexivity|].
    intros E; rewrite E in Hu; inversion Hu; reflexivity. }
  split; [apply sort_by_score_perm, Hsort|].
  split; [exact Hsel|]. repeat split; reflexivity.
Qed.

(** X16.  For a non-negative [max_tokens], the prompt [compose] returns
    carries the user's message unchanged and the token total of its
    included elements, and this total exceeds [max_tokens] only when a
    critical element is among them. *)
Theorem prompt_stays_within_budget :
  forall float_repr json_dumps max_tokens min_relevance msg tc sc uc style r,
    0 <= max_tokens ->
    compose float_repr json_dumps max_tokens min_relevance msg tc sc uc style = Ok r ->
    user_message r = msg /\
    total_tokens r = tokens (included_context r) /\
    (total_tokens r <= max_tokens \/
     exists e, In e (included_context r) /\ relevance e = CRITICAL).
Proof.
  intros float_repr json_dumps max_tokens min_relevance msg tc sc uc style r Hmax H.
  destruct (compose_spec _ _ _ _ _ _ _ _ _ _ H)
    as (elements & sorted & _ & _ & Hsel & Hmsg & Htok & _).
  split; [exact Hmsg|]. split; [exact Htok|]. rewrite Htok.
  eapply budget_exceeded_only_by_critical; eauto.
Qed.

Lemma included_is_built float_repr json_dumps max_tokens min_relevance msg tc sc uc style r e :
  compose float_repr json_dumps max_tokens min_relevance msg tc sc uc style = Ok r ->
  In e (included_context r) ->
  relevance e <> IRRELEVANT /\
  (temporal_shape (_analyze_message msg) e \/
   spatial_shape (_analyze_message msg) e \/
   situational_shape (_analyze_message msg) e).
Proof.
  intros H He.
  destruct (compose_spec _ _ _ _ _ _ _ _ _ _ H)
    as (elements & sorted & (t & s & u & -> & Ht & Hs & Hu & _) & Hperm & Hsel & _).
  destruct (selection_partitions_candidates _ _ _ _ _ Hsel) as (Hp & Hinc & _).
  split; [apply Hinc, He|].
  assert (Hin : In e (t ++ s ++ u)).
  { eapply Permutation_in; [exact Hperm|]. eapply Permutation_in; [exact Hp|].
    apply List.in_app_iff. left. exact He. }
  rewrite List.Forall_forall in Ht, Hs, Hu.
  apply List.in_app_iff in Hin. destruct Hin as [Hin|Hin]; [left; auto|].
  apply List.in_app_iff in Hin. destruct Hin as [Hin|Hin]; [right; left; auto|right; right; auto].
Qed.

(** X17.  An element keyed [time_semantics], [locale],
    [conversation_context] or [assumptions] is among the included elements
    of a composed prompt only if the message contains at least two of the
    temporal, spatial respectively situational keywords: with fewer, its
    relevance is [IRRELEVANT] and it is excluded. *)
Theorem secondary_context_needs_two_keywords :
  forall float_repr json_dumps max_tokens min_relevance msg tc sc uc style r e,
    compose float_repr json_dumps max_tokens min_relevance msg tc sc uc style = Ok r ->
    In e (included_context r) ->
    (key e = "time_semantics" ->
     (2 <= keyword_matches TEMPORAL_KEYWORDS (lower msg))%nat) /\
    (key e = "locale" ->
     (2 <= keyword_matches SPATIAL_KEYWORDS (lower msg))%nat) /\
    (key e = "conversation_context" \/ key e = "assumptions" ->
     (2 <= keyword_matches SITUATIONAL_KEYWORDS (lower msg))%nat).
Proof.
  intros float_repr json_dumps max_tokens min_relevance msg tc sc uc style r e H He.
  destruct (included_is_built _ _ _ _ _ _ _ _ _ _ _ H He) as (Hrel & Hshape).
  rewrite analyze_message_signals in Hshape.
  unfold temporal_shape, spatial_shape, situational_shape in Hshape.
  cbn [temporal spatial situational] in Hshape.
  assert (Hweak : forall n, (relevance e = _score_to_relevance (signal n * 0.8) \/
                             relevance e = _score_to_relevance (signal n * 0.7) \/
                             relevance e = _score_to_relevance (signal n * 0.5)) ->
                            (2 <= n)%nat).
  { intros n Hn. destruct (Nat.lt_ge_cases n 2) as [Hlt|Hge]; [|exact Hge].
    destruct (weak_signal_is_irrelevant n Hlt) as (H8 & H7 & H5).
    exfalso. apply Hrel. destruct Hn as [->|[->| ->]]; assumption. }
  split; [|split].
  - intros Hk. apply Hweak. left.
    destruct Hshape as [[[K R]|[K R]]|[[[K R]|[K R]]|[[K R]|[[K R]|[K R]]]]];
      rewrite K in Hk; try discriminate Hk. exact R.
  - intros Hk. apply Hweak. right. right.
    destruct Hshape as [[[K R]|[K R]]|[[[K R]|[K R]]|[[K R]|[[K R]|[K R]]]]];
      rewrite K in Hk; try discriminate Hk. exact R.
  - intros Hk. apply Hweak.
    destruct Hshape as [[[K R]|[K R]]|[[[K R]|[K R]]|[[K R]|[[K R]|[K R]]]]];
      rewrite K in Hk; destruct Hk as [Hk|Hk]; try discriminate Hk; auto.
Qed.

Lemma temporal_signal msg :
  temporal (_analyze_message msg) = signal (keyword_matches TEMPORAL_KEYWORDS (lower msg)).
Proof. unfold _analyze_message, signal. cbv zeta. reflexivity. Qed.

Lemma spatial_signal msg :
  spatial (_analyze_message msg) = signal (keyword_matches SPATIAL_KEYWORDS (lower msg)).
Proof. unfold _analyze_message, signal. cbv zeta. reflexivity. Qed.

Lemma situational_signal msg :
  situational (_analyze_message msg)
  = signal (keyword_matches SITUATIONAL_KEYWORDS (lower msg)).
Proof. unfold _analyze_message, signal. cbv zeta. reflexivity. Qed.

Lemma baseline_relevance (n : nat) :
  (n <= 24)%nat ->
  _score_to_relevance (0.3 + signal n * 0.7) <> IRRELEVANT /\
  _score_to_relevance (0.2 + signal n * 0.6) <> IRRELEVANT /\
  _score_to_relevance (0.4 + signal n * 0.6) <> IRRELEVANT /\
  _score_to_relevance (0.4 + signal n * 0.6) <> LOW.
Proof.
  intros H. pose proof (baseline_scores n H) as Hn. unfold relevant_at_all in Hn.
  rewrite !Bool.andb_true_iff, !negb_true_iff in Hn.
  destruct Hn as [[[H1 H2] H3] H4].
  repeat split; apply relevance_eqb_neq; assumption.
Qed.

Lemma current_time_relevant msg :
  _score_to_relevance (0.3 + temporal (_analyze_message msg) * 0.7) <> IRRELEVANT.
Proof.
  rewrite temporal_signal. apply baseline_relevance.
  apply (keyword_matches_bound TEMPORAL_KEYWORDS).
Qed.

Lemma location_relevant msg :
  _score_to_relevance (0.2 + spatial (_analyze_message msg) * 0.6) <> IRRELEVANT.
Proof.
  rewrite spatial_signal. apply baseline_relevance.
  etransitivity; [apply (keyword_matches_bound SPATIAL_KEYWORDS)|].
  change (length SPATIAL_KEYWORDS) with 16%nat. lia.
Qed.

Lemma current_task_relevant msg :
  _score_to_relevance (0.4 + situational (_analyze_message msg) * 0.6) <> IRRELEVANT /\
  _score_to_relevance (0.4 + situational (_analyze_message msg) * 0.6) <> LOW.
Proof.
  rewrite situational_signal.
  assert (H : (keyword_matches SITUATIONAL_KEYWORDS (lower msg) <= 24)%nat).
  { etransitivity; [apply (keyword_matches_bound SITUATIONAL_KEYWORDS)|].
    change (length SITUATIONAL_KEYWORDS) with 15%nat. lia. }
  destruct (baseline_relevance _ H) as (_ & _ & H3 & H4). split; assumption.
Qed.

(** X18.  Whatever the message, the elements [current_time] and
    [location] are built with a relevance other than [IRRELEVANT], and
    [current_task] with a relevance of at least [MEDIUM]: the location is
    a candidate even for a message without any spatial keyword. *)
Theorem baseline_elements_are_never_irrelevant :
  forall float_repr msg ctx els e,
    _build_temporal_elements float_repr ctx (_analyze_message msg) = Ok els \/
    _build_spatial_elements ctx (_analyze_message msg) = Ok els \/
    _build_situational_elements float_repr ctx (_analyze_message msg) = Ok els ->
    In e els ->
    (key e = "current_time" \/ key e = "location" -> relevance e <> IRRELEVANT) /\
    (key e = "current_task" -> relevance e <> IRRELEVANT /\ relevance e <> LOW).
Proof.
  intros float_repr msg ctx els e Hb He.
  assert (Hshape : temporal_shape (_analyze_message msg) e \/
                   spatial_shape (_analyze_message msg) e \/
                   situational_shape (_analyze_message msg) e).
  { destruct Hb as [Hb|[Hb|Hb]].
    - left. apply temporal_elements_shape in Hb. rewrite List.Forall_forall in Hb. auto.
    - right. left. apply spatial_elements_shape in Hb. rewrite List.Forall_forall in Hb. auto.
    - right. right. apply situational_elements_shape in Hb.
      rewrite List.Forall_forall in Hb. auto. }
  clear Hb He. unfold temporal_shape, spatial_shape, situational_shape in Hshape.
  split.
  - intros Hk.
    destruct Hshape as [[[K R]|[K R]]|[[[K R]|[K R]]|[[K R]|[[K R]|[K R]]]]];
      rewrite K in Hk; destruct Hk as [Hk|Hk]; try discriminate Hk; rewrite R.
    + apply current_time_relevant.
    + apply location_relevant.
  - intros Hk.
    destruct Hshape as [[[K R]|[K R]]|[[[K R]|[K R]]|[[K R]|[[K R]|[K R]]]]];
      rewrite K in Hk; try discriminate Hk.
    rewrite R. apply current_task_relevant.
Qed.

(** X19.  When every context passed to [compose] is missing or empty,
    the call returns a prompt with an empty [system_context], no included
    and no excluded element and zero tokens, and
    [get_full_system_prompt] of a base prompt is the base prompt
    itself. *)
Theorem no_context_leaves_prompt_unchanged :
  forall float_repr json_dumps max_tokens min_relevance msg tc sc uc style base,
    given tc = None -> given sc = None -> given uc = None ->
    exists r,
      compose float_repr json_dumps max_tokens min_relevance msg tc sc uc style = Ok r /\
      system_context r = "" /\
      included_context r = [] /\ excluded_context r = [] /\
      total_tokens r = 0 /\
      user_message r = msg /\
      get_full_system_prompt r (Some base) = base.
Proof.
  intros float_repr json_dumps max_tokens min_relevance msg tc sc uc style base Ht Hs Hu.
  unfold compose. rewrite Ht, Hs, Hu. cbn.
  eexists. split; [reflexivity|]. cbn. repeat split.
  unfold get_full_system_prompt. cbn.
  destruct (String.eqb base "") eqn:E; [|reflexivity].
  apply String.eqb_eq in E. subst. reflexivity.
Qed.

Lemma selection_witness :
  exists included excluded,
    _select_elements 50 0.3 three_candidates = Ok (included, excluded) /\
    Permutation (included ++ excluded) three_candidates /\
    List.map key included = ["a"; "c"] /\
    List.map key excluded = ["b"].
Proof.
  exists [nth 0 three_candidates no_element; nth 2 three_candidates no_element],
         [nth 1 three_candidates no_element].
  split; [vm_compute; reflexivity|]. split; [|split; reflexivity].
  apply (selection_partitions_candidates 50 0.3 three_candidates).
  vm_compute. reflexivity.
Defined.

Lemma budget_witness :
  user_message weather_prompt = weather_message /\
  total_tokens weather_prompt = tokens (included_context weather_prompt) /\
  (total_tokens weather_prompt <= 500 \/
   exists e, In e (included_context weather_prompt) /\ relevance e = CRITICAL).
Proof.
  apply (prompt_stays_within_budget no_floats no_json 500 0.3 weather_message
           (Some morning_context) None None SYSTEM_PROMPT weather_prompt).
  - lia.
  - vm_compute. reflexivity.
Defined.

Lemma two_keywords_witness :
  (2 <= keyword_matches SITUATIONAL_KEYWORDS (lower "Continue this project"))%nat.
Proof.
  apply (secondary_context_needs_two_keywords no_floats no_json 500 0.3
           "Continue this project" None None (Some leaky_situation) SYSTEM_PROMPT
           leaky_result assumptions_element).
  - vm_compute. reflexivity.
  - vm_compute. left. reflexivity.
  - right. reflexivity.
Defined.

Lemma baseline_witness :
  relevance current_time_element <> IRRELEVANT.
Proof.
  destruct (baseline_elements_are_never_irrelevant no_floats weather_message
              morning_context [current_time_element] current_time_element) as [H _].
  - left. vm_compute. reflexivity.
  - left. reflexivity.
  - apply H. left. reflexivity.
Defined.

Lemma no_context_witness :
  exists r,
    compose no_floats no_json 500 0.3 "hello" None (Some []) None INLINE = Ok r /\
    system_context r = "" /\
    included_context r = [] /\ excluded_context r = [] /\
    total_tokens r = 0 /\
    user_message r = "hello" /\
    get_full_system_prompt r (Some "You are a helpful assistant.")
    = "You are a helpful assistant.".
Proof.
  apply (no_context_leaves_prompt_unchanged no_floats no_json 500 0.3 "hello" None
           (Some []) None INLINE "You are a helpful assistant.");
    reflexivity.
Defined.

End SelectionFacts.

(** ** Interpreted readings *)

Module InterpretationFacts.
Import Py Py.Notations Calendar Temporal Samples TemporalFacts.
Local Open Scope string_scope.
Local Open Scope Z_scope.

Lemma hour_of_wall_range (w : Z) : 0 <= hour_of_wall w < 24.
Proof.
  unfold hour_of_wall, US_PER_DAY, US_PER_HOUR, US_PER_MINUTE, US_PER_SECOND.
  assert (H : 0 <= w mod (24 * (60 * (60 * 1000000))) < 24 * (60 * (60 * 1000000)))
    by (apply Z.mod_pos_bound; lia).
  split.
  - apply Z.div_pos; lia.
  - apply Z.div_lt_upper_bound; lia.
Qed.

Lemma weekday_of_range (d : date) : 0 <= weekday_of d < 7.
Proof. unfold weekday_of. apply Z.mod_pos_bound. lia. Qed.

Lemma get_time_of_day_buckets (h : Z) :
  0 <= h < 24 -> _get_time_of_day h = part_of_day h.
Proof.
  intros H.
  assert (E : h = 0 \/ h = 1 \/ h = 2 \/ h = 3 \/ h = 4 \/ h = 5 \/ h = 6 \/ h = 7 \/
              h = 8 \/ h = 9 \/ h = 10 \/ h = 11 \/ h = 12 \/ h = 13 \/ h = 14 \/
              h = 15 \/ h = 16 \/ h = 17 \/ h = 18 \/ h = 19 \/ h = 20 \/ h = 21 \/
              h = 22 \/ h = 23) by lia.
  repeat (destruct E as [->|E]; [reflexivity|]). subst. reflexivity.
Qed.

(** X20.  When the zone asked for (or the default zone) and "UTC" are
    known and the session start, if given, is aware, [interpret] returns.
    The context names the zone it was asked for, denotes the instant of an
    aware timestamp (a naive one is read as a wall clock of the zone),
    has an hour in 0..23, a minute in 0..59, a weekday in 0..6, the part
    of the day that the ranges of [TIME_OF_DAY_RANGES] assign to its hour
    (they cover the 24 hours without overlap), and is a weekend day
    exactly on weekdays 5 and 6. *)
Theorem interpret_fields_are_consistent :
  forall db default_timezone ts tz_name session z u,
    db (str_or tz_name default_timezone) = Some z ->
    db "UTC" = Some u ->
    match session with Some (Naive _) => False | _ => True end ->
    exists ctx,
      interpret db default_timezone ts tz_name session = Ok ctx /\
      timezone ctx = str_or tz_name default_timezone /\
      instant (utc_timestamp ctx) = instant (timestamp ctx) /\
      match ts with
      | Aware dt => instant (timestamp ctx) = instant dt
      | Naive w => instant (timestamp ctx) = w - utcoffset_of_wall z w
      end /\
      0 <= hour ctx < 24 /\ 0 <= minute ctx < 60 /\ 0 <= weekday ctx < 7 /\
      time_of_day ctx = part_of_day (hour ctx) /\
      (day_type ctx = WEEKEND <-> 5 <= weekday ctx) /\
      (day_type ctx = WEEKDAY <-> weekday ctx < 5).
Proof.
  intros db default_timezone ts tz_name session z u Hz Hu Hs.
  unfold interpret, ZoneInfo. rewrite Hz. cbn [bind]. rewrite Hu. cbn [bind].
  set (t := match ts with Naive w => localize w z | Aware dt => astimezone dt z end).
  destruct (civil_from_days (dt_date t)) as [[yy mm] dd].
  assert (Hsession : exists d,
            match session with
            | None => Ok None
            | Some (Aware s) => Ok (Some (total_minutes (dt_sub t s)))
            | Some (Naive _) => Raise TypeError
            end = Ok d).
  { destruct session as [[s|w]|]; [eauto|contradiction|eauto]. }
  destruct Hsession as [d ->]. cbn [bind].
  eexists. split; [reflexivity|]. cbn.
  split; [reflexivity|]. split; [reflexivity|].
  split; [destruct ts; reflexivity|].
  split; [apply hour_of_wall_range|].
  split; [apply minute_of_wall_range|].
  split; [apply weekday_of_range|].
  split; [apply get_time_of_day_buckets, hour_of_wall_range|].
  unfold _get_day_type.
  destruct (Z.leb_spec 5 (weekday_of (dt_date t))); split; split;
    intros; try reflexivity; try discriminate; try lia.
Qed.


Lemma interpret_coherent db default_timezone ts tz_name session ctx :
  interpret db default_timezone ts tz_name session = Ok ctx -> coherent ctx.
Proof.
  unfold interpret. intros H.
  destruct (ZoneInfo db (str_or tz_name default_timezone)) as [z|e]; cbn [bind] in H;
    [|discriminate].
  destruct (ZoneInfo db "UTC") as [u|e]; cbn [bind] in H; [|discriminate].
  set (t := match ts with Naive w => localize w z | Aware dt => astimezone dt z end) in H.
  destruct (civil_from_days (dt_date t)) as [[yy mm] dd].
  destruct (match session with
            | None => Ok None
            | Some (Aware s) => Ok (Some (total_minutes (dt_sub t s)))
            | Some (Naive _) => Raise TypeError
            end) as [d|e]; cbn [bind] in H; [|discriminate].
  inversion H; subst; clear H. unfold coherent. cbn.
  split; [apply hour_of_wall_range|]. split; [apply weekday_of_range|].
  split; [apply get_time_of_day_buckets, hour_of_wall_range|]. reflexivity.
Qed.

(** X21.  For every context [interpret] returns, [get_interpretation]
    returns.  The default urgency is never high; it is moderate exactly on
    weekdays from 09:00 on (until midnight), low otherwise.  Business
    hours are 09:00 to 16:59 on weekdays, and then the availability is
    "likely working".  [days_until_weekend] is 0 exactly at the weekend
    and otherwise leads to Saturday, and the availability is "likely
    sleeping or winding down" exactly before 05:00. *)
Theorem interpretation_follows_the_clock :
  forall db default_timezone ts tz_name session ctx,
    interpret db default_timezone ts tz_name session = Ok ctx ->
    exists i,
      get_interpretation ctx = Ok i /\
      default_urgency i <> URGENCY_HIGH /\
      (default_urgency i = URGENCY_MODERATE <-> weekday ctx < 5 /\ 9 <= hour ctx) /\
      (is_business_hours i = true <->
       weekday ctx < 5 /\ 9 <= hour ctx < 17) /\
      (is_business_hours i = true -> likely_availability i = "likely working") /\
      (is_weekend i = true <-> 5 <= weekday ctx) /\
      (days_until_weekend i = 0 <-> is_weekend i = true) /\
      (is_weekend i = false -> weekday ctx + days_until_weekend i = 5) /\
      (likely_availability i = "likely sleeping or winding down" <-> hour ctx < 5).
Proof.
  intros db default_timezone ts tz_name session ctx H.
  destruct (interpret_coherent _ _ _ _ _ _ H) as (Hh & Hw & Htod & Hday).
  unfold get_interpretation, _infer_urgency, _infer_availability, _days_until_weekend.
  rewrite Htod, Hday. generalize (hour ctx) (weekday ctx) Hh Hw. clear.
  intros h w Hh Hw. unfold part_of_day.
  assert (Hcase : h < 5 \/ 5 <= h < 8 \/ 8 <= h < 9 \/ 9 <= h < 10 \/ 10 <= h < 12 \/
                  12 <= h < 16 \/ 16 <= h < 17 \/ 17 <= h < 21 \/ 21 <= h) by lia.
  assert (Hday : w < 5 \/ 5 <= w) by lia.
  destruct Hday as [Hday|Hday];
  destruct Hcase as [Hc|[Hc|[Hc|[Hc|[Hc|[Hc|[Hc|[Hc|Hc]]]]]]]];
    repeat match goal with
           | |- context [?a <? ?b] =>
               destruct (Z.ltb_spec a b); [try (exfalso; lia)|try (exfalso; lia)]
           | |- context [?a <=? ?b] =>
               destruct (Z.leb_spec a b); [try (exfalso; lia)|try (exfalso; lia)]
           end;
    cbn; eexists; (split; [reflexivity|]); cbn;
    repeat split; intros; try discriminate; try reflexivity; try lia.
Qed.


(** X22.  For a known zone [handle_midnight_crossover] returns, whatever
    the two instants: "yesterday" is the day before "today", "today" is
    the current date or the date the session started on, no crossing is
    reported exactly when the two local dates agree, and then "today" is
    the current calendar date with confidence 0.95. *)
Theorem crossover_days_are_consecutive :
  forall db name z s t,
    db name = Some z ->
    exists r,
      handle_midnight_crossover db s t name = Ok r /\
      yesterday_date r = today_date r - 1 /\
      (today_date r = current_date r \/ today_date r = session_started_date r) /\
      (has_crossed_midnight r = false <->
       dt_date (astimezone s z) = dt_date (astimezone t z)) /\
      (has_crossed_midnight r = false ->
       today_date r = dt_date (astimezone t z) /\
       crossover_confidence r = 0.95%float /\
       today_interpretation r = "the current calendar day").
Proof.
  intros db name z s t Hz. unfold handle_midnight_crossover, ZoneInfo.
  rewrite Hz. cbn [bind].
  destruct (Z.eqb_spec (dt_date (astimezone s z)) (dt_date (astimezone t z))) as [E|E];
    cbn [negb].
  - eexists. split; [reflexivity|]. cbn. repeat split; auto.
  - match goal with
    | |- context [if ?c then _ else _] => destruct c
    end; eexists; (split; [reflexivity|]); cbn; repeat split; auto;
      intros; try discriminate; contradiction.
Qed.

Lemma interpret_witness :
  exists ctx,
    interpret sample_tzdata "UTC" (Naive reading) (Some "Etc/GMT+5") None = Ok ctx /\
    timezone ctx = "Etc/GMT+5" /\
    instant (timestamp ctx) = reading + td_hours 5 /\
    hour ctx = 5 /\ time_of_day ctx = EARLY_MORNING.
Proof.
  destruct (interpret_fields_are_consistent sample_tzdata "UTC" (Naive reading)
              (Some "Etc/GMT+5") None gmt_plus_5 utc)
    as (ctx & Hctx & Hzone & _ & Hinstant & _).
  - reflexivity.
  - reflexivity.
  - exact I.
  - exists ctx. split; [exact Hctx|]. split; [exact Hzone|].
    split; [rewrite Hinstant; reflexivity|].
    vm_compute in Hctx. inversion Hctx. split; reflexivity.
Defined.

Lemma interpretation_witness :
  exists i,
    get_interpretation reading_context = Ok i /\
    default_urgency i <> URGENCY_HIGH /\
    is_weekend i = true /\ days_until_weekend i = 0.
Proof.
  destruct (interpretation_follows_the_clock sample_tzdata "UTC"
              (Aware (mk_datetime reading utc)) None None reading_context)
    as (i & Hi & Hhigh & _ & _ & _ & Hweekend & Hdays & _).
  - vm_compute. reflexivity.
  - exists i. split; [exact Hi|]. split; [exact Hhigh|].
    assert (Hw : is_weekend i = true) by (apply Hweekend; vm_compute; discriminate).
    split; [exact Hw|]. apply Hdays, Hw.
Defined.

Lemma crossover_witness :
  exists r,
    handle_midnight_crossover sample_tzdata session_2300 now_0030 "UTC" = Ok r /\
    yesterday_date r = today_date r - 1 /\
    has_crossed_midnight r = false.
Proof.
  destruct (crossover_days_are_consecutive sample_tzdata "UTC" utc session_2300 now_0030)
    as (r & Hr & Hy & _ & Hcross & _).
  - reflexivity.
  - exists r. split; [exact Hr|]. split; [exact Hy|]. apply Hcross. reflexivity.
Defined.

End InterpretationFacts.

(** ** Resolution of time references *)

Module ResolutionFacts.
Import Py Py.Notations Calendar Temporal Samples TemporalFacts.
Local Open Scope string_scope.
Local Open Scope Z_scope.


Section Resolution.

Variable strptime : string -> string -> option Z.
Variable db : tzdata.

Lemma relative_day_flagged text off anchor z :
  db (timezone anchor) = Some z ->
  exists r, _resolve_relative_day db text off anchor = Ok r /\ flagged_by_confidence r.
Proof.
  intros Hz. unfold _resolve_relative_day, ZoneInfo. rewrite Hz. cbn [bind].
  eexists. split; [reflexivity|]. split; [cbn; tauto|reflexivity].
Qed.

Lemma relative_time_flagged text ty anchor z :
  db (timezone anchor) = Some z ->
  exists r, _resolve_relative_time db text ty anchor = Ok r /\ flagged_by_confidence r.
Proof.
  intros Hz. unfold _resolve_relative_time, ZoneInfo. rewrite Hz.
  destruct (String.eqb ty "current");
    [eexists; split; [reflexivity|]; split; [cbn; tauto|reflexivity]|].
  destruct (String.eqb ty "recent");
    [eexists; split; [reflexivity|]; split; [cbn; tauto|reflexivity]|].
  destruct (String.eqb ty "past_session").
  { destruct (session_start anchor); cbn [bind];
      eexists; (split; [reflexivity|]); (split; [cbn; tauto|reflexivity]). }
  destruct (String.eqb ty "near_future" || String.eqb ty "future_session");
    eexists; (split; [reflexivity|]); (split; [cbn; tauto|reflexivity]).
Qed.

Lemma try_formats_flagged text anchor z formats :
  db (timezone anchor) = Some z ->
  try_formats strptime db text anchor formats = Ok None \/
  exists r, try_formats strptime db text anchor formats = Ok (Some r) /\
            flagged_by_confidence r /\ confidence r = 0.9%float.
Proof.
  intros Hz. induction formats as [|fmt rest IH]; [left; reflexivity|].
  cbn [try_formats]. destruct (strptime text fmt) as [parsed|]; [|exact IH].
  destruct (civil_from_days (date_of_wall parsed)) as [[yy mm] dd].
  destruct (yy =? 1900).
  - unfold replace_year.
    destruct (civil_from_days (date_of_wall parsed)) as [[y1 m1] d1].
    destruct (let '(y', m', d') := civil_from_days (days_from_civil (year anchor) m1 d1) in
              (y' =? year anchor) && (m' =? m1) && (d' =? d1)); [|exact IH].
    unfold ZoneInfo. rewrite Hz. cbn [bind]. right.
    eexists. split; [reflexivity|]. split; [split; [cbn; tauto|reflexivity]|reflexivity].
  - unfold ZoneInfo. rewrite Hz. cbn [bind]. right.
    eexists. split; [reflexivity|]. split; [split; [cbn; tauto|reflexivity]|reflexivity].
Qed.

(** X23.  When the zone of the anchor context is known,
    [resolve_reference] returns for every reference text and every
    parser: the confidence is one of the nine values the engine assigns,
    the resolution is marked ambiguous exactly when its confidence is
    below 0.9, and an absolute resolution has confidence 0.9. *)
Theorem resolve_reference_flags_low_confidence :
  forall reference anchor z,
    db (timezone anchor) = Some z ->
    exists r,
      resolve_reference strptime db reference anchor = Ok r /\
      In (confidence r) CONFIDENCES /\
      is_ambiguous r = PrimFloat.ltb (confidence r) 0.9 /\
      (reference_type r = ABSOLUTE -> confidence r = 0.9%float).
Proof.
  intros reference anchor z Hz. unfold resolve_reference.
  destruct (find _ RELATIVE_DAY_PATTERNS) as [[p off]|].
  { destruct (relative_day_flagged (strip (lower (reference_text reference))) off anchor z Hz)
      as (r & Hr & Hc & Ha).
    exists r. split; [exact Hr|]. split; [exact Hc|]. split; [exact Ha|].
    unfold _resolve_relative_day, ZoneInfo in Hr. rewrite Hz in Hr. cbn [bind] in Hr.
    inversion Hr; subst. cbn. discriminate. }
  destruct (find _ RELATIVE_TIME_PATTERNS) as [[p ty]|].
  { destruct (relative_time_flagged (strip (lower (reference_text reference))) ty anchor z Hz)
      as (r & Hr & Hc & Ha).
    exists r. split; [exact Hr|]. split; [exact Hc|]. split; [exact Ha|].
    intros Habs. exfalso. revert Hr Habs. unfold _resolve_relative_time, ZoneInfo.
    rewrite Hz. cbn [bind].
    repeat match goal with
           | |- context [if ?c then _ else _] => destruct c
           | |- context [match session_start anchor with _ => _ end] =>
               destruct (session_start anchor)
           end; intros Hr Habs; inversion Hr; subst; discriminate. }
  unfold _try_parse_absolute.
  destruct (try_formats_flagged (strip (lower (reference_text reference))) anchor z
              ABSOLUTE_FORMATS Hz) as [->|(r & -> & (Hc & Ha) & H9)]; cbn [bind].
  - eexists. split; [reflexivity|]. split; [cbn; tauto|]. split; [reflexivity|].
    cbn. discriminate.
  - exists r. auto.
Qed.


(** X24.  Each of the five relative-day phrases -- "day before
    yesterday" and "day after tomorrow" among them -- in any letter case
    and with surrounding blanks resolves to its own day offset: the whole
    day from 00:00:00 to 23:59:59 in the anchor's zone, confidence 0.95,
    not ambiguous, the normalised phrase as [original_reference]. *)
Theorem relative_day_phrases_resolve_to_whole_days :
  forall phrase offset raw hint1 hint2 anchor z,
    In (phrase, offset) RELATIVE_DAY_PATTERNS ->
    strip (lower raw) = phrase ->
    db (timezone anchor) = Some z ->
    resolve_reference strptime db (mk_TimeReference raw hint1 hint2) anchor
    = Ok {| original_reference := phrase;
            reference_type := RELATIVE_DAY;
            resolved_start := Aware (combine (date_ anchor + offset) 0 z);
            resolved_end :=
              Some (Aware (combine (date_ anchor + offset)
                             (td_hours 23 + td_minutes 59 + td_seconds 59) z));
            resolution_method := "relative_day_offset_" ++ str_of_Z offset;
            confidence := 0.95;
            is_ambiguous := false;
            alternative_resolutions := [];
            human_readable := date_strftime (date_ anchor + offset) "%A, %B %d, %Y" |}.
Proof.
  intros phrase offset raw hint1 hint2 anchor z Hin Hraw Hz.
  unfold resolve_reference. cbn [reference_text]. rewrite Hraw.
  assert (Hfind : find (fun p => search_word (fst p) phrase) RELATIVE_DAY_PATTERNS
                  = Some (phrase, offset)).
  { cbn in Hin.
    destruct Hin as [H|[H|[H|[H|[H|[]]]]]]; inversion H; subst; vm_compute; reflexivity. }
  rewrite Hfind. unfold _resolve_relative_day, ZoneInfo. rewrite Hz. reflexivity.
Qed.


End Resolution.

Lemma resolve_flags_witness :
  exists r,
    resolve_reference no_parse sample_tzdata (mk_TimeReference "later" None None)
      reading_context = Ok r /\
    In (confidence r) CONFIDENCES /\
    is_ambiguous r = PrimFloat.ltb (confidence r) 0.9 /\
    (reference_type r = ABSOLUTE -> confidence r = 0.9%float).
Proof.
  apply (resolve_reference_flags_low_confidence no_parse sample_tzdata
           (mk_TimeReference "later" None None) reading_context utc).
  reflexivity.
Defined.

Lemma relative_day_witness :
  resolve_reference no_parse sample_tzdata
    (mk_TimeReference "  Day Before Yesterday " None None) reading_context
  = Ok {| original_reference := "day before yesterday";
          reference_type := RELATIVE_DAY;
          resolved_start := Aware (combine (date_ reading_context + -2) 0 utc);
          resolved_end :=
            Some (Aware (combine (date_ reading_context + -2)
                           (td_hours 23 + td_minutes 59 + td_seconds 59) utc));
          resolution_method := "relative_day_offset_" ++ str_of_Z (-2);
          confidence := 0.95;
          is_ambiguous := false;
          alternative_resolutions := [];
          human_readable :=
            date_strftime (date_ reading_context + -2) "%A, %B %d, %Y" |}.
Proof.
  apply (relative_day_phrases_resolve_to_whole_days no_parse sample_tzdata
           "day before yesterday" (-2) "  Day Before Yesterday " None None
           reading_context utc).
  - left. reflexivity.
  - vm_compute. reflexivity.
  - reflexivity.
Defined.


End ResolutionFacts.

(** ** The fast path of the bus *)

Module FastPathFacts.
Import Py Py.Notations Calendar Bus Samples.
Local Open Scope string_scope.
Local Open Scope Z_scope.

Lemma append_empty_r (s : string) : s ++ "" = s.
Proof.
  induction s as [|a s IH]; [reflexivity|].
  change (String a (s ++ "") = String a s). f_equal. exact IH.
Qed.

Lemma length_append (s t : string) :
  String.length (s ++ t) = (String.length s + String.length t)%nat.
Proof.
  induction s as [|a s IH]; [reflexivity|].
  change (S (String.length (s ++ t)) = S (String.length s + String.length t)).
  f_equal. exact IH.
Qed.

Lemma strftime_offset (dt : datetime) : strftime dt "%z" = fmt_offset (utcoffset dt).
Proof.
  unfold strftime. cbn [strftime_wall]. unfold directive.
  destruct (civil_from_days (date_of_wall (wall dt))) as [[yy mm] dd].
  cbn. apply append_empty_r.
Qed.

Lemma resolve_atomic_context_known db now name z loc lang cur :
  db name = Some z ->
  timestamp (resolve_atomic_context db now name loc lang cur) = mk_datetime now z /\
  timezone (resolve_atomic_context db now name loc lang cur) = name /\
  timezone_offset (resolve_atomic_context db now name loc lang cur)
  = offset_formatted (fmt_offset (utcoffset_at z now)).
Proof.
  intros Hz. unfold resolve_atomic_context, ZoneInfo. rewrite Hz.
  cbv beta iota delta [try_except bind]. rewrite strftime_offset.
  unfold new_AtomicContext. cbn [timestamp timezone timezone_offset].
  repeat split.
Qed.

(** Offsets of whole minutes, by enumeration. *)
Lemma minute_offsets_ok :
  forallb minute_offset_ok (List.map (fun k => Z.of_nat k - 1439) (seq 0 2879)) = true.
Proof. vm_compute. reflexivity. Qed.

Lemma minute_offset_formatted (m : Z) :
  -1440 < m < 1440 ->
  offset_formatted (fmt_offset (td_minutes m)) = iso_offset (td_minutes m).
Proof.
  intros H. apply String.eqb_eq. change (minute_offset_ok m = true).
  pose proof minute_offsets_ok as Hall. rewrite forallb_forall in Hall.
  apply Hall. apply List.in_map_iff. exists (Z.to_nat (m + 1439)).
  split; [lia|]. apply List.in_seq. lia.
Qed.

Lemma pad2_length (n : Z) : 0 <= n < 100 -> String.length (pad2 n) = 2%nat.
Proof.
  intros H.
  assert (Hall : forallb (fun k => (String.length (pad2 (Z.of_nat k)) =? 2)%nat) (seq 0 100)
                 = true) by (vm_compute; reflexivity).
  rewrite forallb_forall in Hall.
  specialize (Hall (Z.to_nat n)). rewrite Z2Nat.id in Hall by lia.
  apply Nat.eqb_eq, Hall. apply List.in_seq. lia.
Qed.

Lemma second_offset_length (off : timedelta) :
  Z.abs off < US_PER_DAY ->
  (Z.abs off / US_PER_SECOND) mod 60 <> 0 ->
  String.length (fmt_offset off) = 7%nat.
Proof.
  unfold US_PER_DAY, US_PER_HOUR, US_PER_MINUTE, US_PER_SECOND. intros Hday Hsec.
  unfold fmt_offset, US_PER_SECOND.
  set (a := Z.abs off / 1000000) in *.
  assert (Ha : 0 <= a < 86400).
  { unfold a. split; [apply Z.div_pos; lia|apply Z.div_lt_upper_bound; lia]. }
  destruct (a mod 60 =? 0) eqn:E; [apply Z.eqb_eq in E; contradiction|].
  assert (H1 : 0 <= a / 3600 < 100).
  { split; [apply Z.div_pos; lia|]. apply Z.div_lt_upper_bound; lia. }
  assert (H2 : 0 <= (a mod 3600) / 60 < 100).
  { pose proof (Z.mod_pos_bound a 3600 ltac:(lia)).
    split; [apply Z.div_pos; lia|]. apply Z.div_lt_upper_bound; lia. }
  assert (H3 : 0 <= a mod 60 < 100).
  { pose proof (Z.mod_pos_bound a 60 ltac:(lia)). lia. }
  rewrite !length_append, (pad2_length _ H1), (pad2_length _ H2), (pad2_length _ H3).
  destruct (off <? 0); reflexivity.
Qed.

(** X26.  For a known zone [resolve_atomic_context] keeps the zone and
    its name.  When the zone's offset is a whole number of minutes (less
    than a day), [timezone_offset] is the offset in the form [+HH:MM] or
    [-HH:MM]; when the offset has a seconds part, [timezone_offset] is
    "+00:00". *)
Theorem known_zone_offset_is_formatted :
  forall db now name z loc lang cur,
    db name = Some z ->
    let a := resolve_atomic_context db now name loc lang cur in
    let off := utcoffset_at z now in
    timestamp a = mk_datetime now z /\
    timezone a = name /\
    ((exists m, off = td_minutes m /\ -1440 < m < 1440) ->
     timezone_offset a = iso_offset off) /\
    (Z.abs off < US_PER_DAY -> (Z.abs off / US_PER_SECOND) mod 60 <> 0 ->
     timezone_offset a = "+00:00").
Proof.
  intros db now name z loc lang cur Hz a off.
  destruct (resolve_atomic_context_known db now name z loc lang cur Hz) as (Ht & Hn & Ho).
  split; [exact Ht|]. split; [exact Hn|]. unfold a. rewrite Ho. fold off. split.
  - intros (m & -> & Hm). apply minute_offset_formatted, Hm.
  - intros Hday Hsec. unfold offset_formatted.
    rewrite (second_offset_length off Hday Hsec). reflexivity.
Qed.


Lemma offset_witness :
  timezone_offset (resolve_atomic_context sample_tzdata reading "Etc/GMT+5" "en-US" "en" "USD")
  = iso_offset (td_hours (-5)).
Proof.
  destruct (known_zone_offset_is_formatted sample_tzdata reading "Etc/GMT+5" gmt_plus_5
              "en-US" "en" "USD") as (_ & _ & H & _).
  - reflexivity.
  - apply H. exists (-300). split; [reflexivity|lia].
Defined.

End FastPathFacts.

(** ** The drift detector *)

Module DetectorFacts.
Import Py Py.Notations Calendar Models Drift Samples DriftFacts.
Local Open Scope string_scope.
Local Open Scope Z_scope.

Lemma DriftType_eqb_eq a b : DriftType_eqb a b = true <-> a = b.
Proof. destruct a, b; cbn; split; congruence. Qed.

Lemma fold_py_max_in (l : list float) (a : float) : In (fold_left py_max l a) (a :: l).
Proof.
  revert a. induction l as [|x l IH]; intros a; [left; reflexivity|].
  cbn [fold_left]. destruct (IH (py_max a x)) as [H|H].
  - rewrite <- H. unfold py_max. destruct (PrimFloat.ltb a x); [right; left|left]; reflexivity.
  - right. right. exact H.
Qed.

(** X27.  [update_drift_status] assigns the status it returns and changes
    nothing else.  The status is stable exactly for an empty signal list,
    conflicting exactly when some signal is a conflict or a correction
    pattern, and stale only when some staleness signal has a severity
    above 0.7. *)
Theorem drift_status_follows_signals :
  forall (c : Context) (signals : list DriftSignal),
    let c' := fst (update_drift_status c signals) in
    let status := snd (update_drift_status c signals) in
    c' = set_drift_status status c /\
    (status = STABLE <-> signals = []) /\
    (status = CONFLICTING <->
     exists s, In s signals /\
               (drift_type s = CONFLICT \/ drift_type s = CORRECTION_PATTERN)) /\
    (status = STALE ->
     exists s, In s signals /\ drift_type s = STALENESS /\
               PrimFloat.ltb 0.7 (severity s) = true).
Proof.
  intros c signals c' status. split; [reflexivity|].
  unfold status, update_drift_status. cbn [snd]. clear c' status.
  destruct signals as [|s0 rest]; [|set (signals := s0 :: rest)].
  { split; [tauto|]. split; [|discriminate].
    split; [discriminate|]. intros (s & [] & _). }
  destruct (existsb (fun s => DriftType_eqb (drift_type s) CONFLICT) signals) eqn:Hc.
  { apply existsb_exists in Hc. destruct Hc as (s & Hs & Ht). apply DriftType_eqb_eq in Ht.
    split; [split; discriminate|]. split; [|discriminate].
    split; [intros _; exists s; auto|reflexivity]. }
  destruct (existsb (fun s => DriftType_eqb (drift_type s) CORRECTION_PATTERN) signals) eqn:Hp.
  { apply existsb_exists in Hp. destruct Hp as (s & Hs & Ht). apply DriftType_eqb_eq in Ht.
    split; [split; discriminate|]. split; [|discriminate].
    split; [intros _; exists s; auto|reflexivity]. }
  assert (Hnone : ~ exists s, In s signals /\
                    (drift_type s = CONFLICT \/ drift_type s = CORRECTION_PATTERN)).
  { intros (s & Hs & [Ht|Ht]).
    - assert (existsb (fun s => DriftType_eqb (drift_type s) CONFLICT) signals = true)
        by (apply existsb_exists; exists s; split; [exact Hs|apply DriftType_eqb_eq, Ht]).
      congruence.
    - assert (existsb (fun s => DriftType_eqb (drift_type s) CORRECTION_PATTERN) signals = true)
        by (apply existsb_exists; exists s; split; [exact Hs|apply DriftType_eqb_eq, Ht]).
      congruence. }
  destruct (List.filter (fun s => DriftType_eqb (drift_type s) STALENESS) signals)
    as [|s stale] eqn:Hf.
  { split; [split; discriminate|]. split; [|discriminate].
    split; [discriminate|]. intros H. contradiction. }
  destruct (PrimFloat.ltb 0.7 (max_severity s stale)) eqn:Hm.
  - split; [split; discriminate|]. split.
    + split; [discriminate|]. intros H. contradiction.
    + intros _. unfold max_severity in Hm.
      pose proof (fold_py_max_in (List.map severity stale) (severity s)) as Hin.
      change (severity s :: List.map severity stale) with (List.map severity (s :: stale)) in Hin.
      apply List.in_map_iff in Hin. destruct Hin as (x & Hx & Hin).
      rewrite <- Hf in Hin. apply List.filter_In in Hin. destruct Hin as [Hin Ht].
      exists x. split; [exact Hin|]. split; [apply DriftType_eqb_eq, Ht|].
      rewrite Hx. exact Hm.
  - split; [split; discriminate|]. split; [|discriminate].
    split; [discriminate|]. intros H. contradiction.
Qed.

Lemma in_appended (l : list DriftSignal) (x : option DriftSignal) (s : DriftSignal) :
  In s (appended l x) <-> In s l \/ x = Some s.
Proof.
  destruct x as [y|]; cbn [appended].
  - rewrite List.in_app_iff. cbn [In]. split.
    + intros [H|[H|[]]]; [left; exact H|right; congruence].
    + intros [H|H]; [left; exact H|right; left; congruence].
  - split; [auto|]. intros [H|H]; [exact H|discriminate].
Qed.

Section Detector.

Variable staleness_hours : Z.
Variable correction_threshold : Z.

Lemma check_staleness_type now c s :
  _check_staleness staleness_hours now c = Done (Some s) -> drift_type s = STALENESS.
Proof.
  unfold _check_staleness.
  destruct (float_lt_int _ _); [discriminate|].
  destruct (float_sub_int _ _) as [past|]; cbn [and_then]; [|discriminate].
  destruct (float_div_int _ _) as [ratio|]; cbn [and_then]; [|discriminate].
  destruct (lift (int_of_float _)) as [hours|]; cbn [and_then]; [|discriminate].
  intros H. inversion H. reflexivity.
Qed.

Lemma check_corrections_spec now c x :
  _check_corrections correction_threshold now c = Done x ->
  match x with
  | Some s => drift_type s = CORRECTION_PATTERN /\
              correction_threshold <= correction_count c /\
              recommended_action s = "confirm_with_user"
  | None => correction_count c < correction_threshold
  end.
Proof.
  unfold _check_corrections.
  destruct (Z.ltb_spec (correction_count c) correction_threshold) as [Hlt|Hge].
  - intros H. inversion H. exact Hlt.
  - destruct (int_truediv _ _) as [ratio|]; cbn [and_then]; [|discriminate].
    intros H. inversion H. cbn. auto.
Qed.

Lemma check_confidence_spec now c :
  match _check_confidence now c with
  | Some s => drift_type s = STALENESS /\
              PrimFloat.leb LOW_CONFIDENCE_THRESHOLD (confidence c) = false
  | None => PrimFloat.leb LOW_CONFIDENCE_THRESHOLD (confidence c) = true
  end.
Proof.
  unfold _check_confidence.
  destruct (PrimFloat.leb LOW_CONFIDENCE_THRESHOLD (confidence c)); cbn; auto.
Qed.

(** X28.  Whenever [check_single] returns, its signals are staleness or
    correction-pattern signals only, and the status
    [update_drift_status] derives from them is conflicting exactly when
    the correction count has reached the detector's threshold -- also for
    a record that [confirm] had set back to stable -- and stable only
    for a record below the threshold whose confidence is at least 0.4. *)
Theorem detector_reflags_corrected_records :
  forall now1 now2 now3 c signals,
    check_single staleness_hours correction_threshold now1 now2 now3 c = Done signals ->
    (forall s, In s signals ->
               drift_type s = STALENESS \/ drift_type s = CORRECTION_PATTERN) /\
    (snd (update_drift_status c signals) = CONFLICTING <->
     correction_threshold <= correction_count c) /\
    (snd (update_drift_status c signals) = STABLE ->
     correction_count c < correction_threshold /\
     PrimFloat.leb LOW_CONFIDENCE_THRESHOLD (confidence c) = true).
Proof.
  intros now1 now2 now3 c signals H. unfold check_single in H.
  destruct (_check_staleness staleness_hours now1 c) as [st|] eqn:Hst;
    cbn [and_then] in H; [|discriminate].
  destruct (_check_corrections correction_threshold now2 c) as [co|] eqn:Hco;
    cbn [and_then] in H; [|discriminate].
  assert (Hsig : appended (appended (appended [] st) co) (_check_confidence now3 c)
                 = signals) by (inversion H; reflexivity).
  clear H.
  pose proof (check_corrections_spec _ _ _ Hco) as Hcs.
  pose proof (check_confidence_spec now3 c) as Hcf.
  assert (Hst' : forall s, st = Some s -> drift_type s = STALENESS)
    by (intros s ->; eapply check_staleness_type; eauto).
  assert (Hin : forall s, In s signals <->
                          st = Some s \/ co = Some s \/ _check_confidence now3 c = Some s).
  { intros s. rewrite <- Hsig, !in_appended. cbn [In]. tauto. }
  destruct (drift_status_follows_signals c signals) as (_ & Hstable & Hconf & _).
  cbv zeta in Hstable, Hconf.
  split; [|split].
  - intros s Hs. apply Hin in Hs. destruct Hs as [Hs|[Hs|Hs]].
    + left. apply Hst', Hs.
    + right. rewrite Hs in Hcs. apply Hcs.
    + left. rewrite Hs in Hcf. apply Hcf.
  - rewrite Hconf. split.
    + intros (s & Hs & Ht). apply Hin in Hs. destruct Hs as [Hs|[Hs|Hs]].
      * apply Hst' in Hs. destruct Ht; congruence.
      * rewrite Hs in Hcs. apply Hcs.
      * rewrite Hs in Hcf. destruct Hcf as [Hty _]. destruct Ht; congruence.
    + intros Hge. destruct co as [s|]; [|lia].
      exists s. split; [apply Hin; auto|]. right. apply Hcs.
  - rewrite Hstable. intros ->.
    destruct co as [s|]; [exfalso; apply (proj2 (Hin s)); auto|].
    split; [exact Hcs|].
    destruct (_check_confidence now3 c) as [s|]; [exfalso; apply (proj2 (Hin s)); auto|].
    exact Hcf.
Qed.

(** X29.  [should_refresh] answers [(True, "Context has expired")] for an
    expired record.  For a record that is conflicting or whose confidence
    is below 0.2 it never answers [False], and it answers [True] with a
    reason whenever the record's age is finite. *)
Theorem refresh_is_asked_for_bad_records :
  forall now later c,
    (is_expired later c = true ->
     should_refresh staleness_hours now later c = Ok (true, "Context has expired")) /\
    (drift_status c = CONFLICTING \/
     PrimFloat.ltb (confidence c) CRITICAL_CONFIDENCE_THRESHOLD = true ->
     (forall reason, should_refresh staleness_hours now later c <> Ok (false, reason)) /\
     (PrimFloat.eqb (age_hours now c) infinity = false ->
      exists reason, should_refresh staleness_hours now later c = Ok (true, reason))).
Proof.
  intros now later c. unfold should_refresh. split.
  - intros ->. reflexivity.
  - intros Hbad.
    assert (Hint : PrimFloat.eqb (age_hours now c) infinity = false ->
                   int_lt_float CRITICAL_STALENESS_HOURS (age_hours now c) = true ->
                   exists h, int_of_float (age_hours now c) = Ok h).
    { unfold int_of_float, int_lt_float. rewrite FloatAxioms.eqb_spec.
      change (Prim2SF infinity) with (S754_infinity false).
      destruct (Prim2SF (age_hours now c)) as [s|s| |s m e]; cbn; eauto.
      - destruct s; cbn; discriminate.
      - discriminate. }
    destruct (is_expired later c); [split; [discriminate|eauto]|].
    destruct (int_lt_float CRITICAL_STALENESS_HOURS (age_hours now c)) eqn:Hcrit.
    { split.
      - intros reason. destruct (int_of_float (age_hours now c)); cbn [bind]; discriminate.
      - intros Hfin. destruct (Hint Hfin eq_refl) as [h ->]. cbn [bind]. eauto. }
    destruct Hbad as [Hbad|Hbad].
    + rewrite Hbad. cbn [DriftStatus_eqb]. split; [discriminate|eauto].
    + destruct (DriftStatus_eqb (drift_status c) CONFLICTING);
        [split; [discriminate|eauto]|].
      rewrite Hbad. split; [discriminate|eauto].
Qed.

End Detector.

Lemma leb_refl_0 : PrimFloat.leb 0 0 = true.
Proof. reflexivity. Qed.

(** X30.  [_calculate_health] returns a value between 0.0 and 1.0 for
    all contexts and signals (whatever their severities and however the
    confidences are summed), and 1.0 when there is no context. *)
Theorem health_is_a_fraction :
  forall (py_sum : list float -> float) contexts signals,
    PrimFloat.leb 0.0 (_calculate_health py_sum contexts signals) = true /\
    PrimFloat.leb (_calculate_health py_sum contexts signals) 1.0 = true /\
    (contexts = [] -> _calculate_health py_sum contexts signals = 1.0%float).
Proof.
  intros py_sum contexts signals. unfold _calculate_health.
  destruct contexts as [|c rest]; [repeat split; reflexivity|].
  match goal with
  | |- context [py_min 1.0 ?h] => generalize h
  end.
  intros h. unfold py_max, py_min.
  destruct (PrimFloat.ltb h 1.0) eqn:H1.
  - destruct (PrimFloat.ltb 0 h) eqn:H0.
    + split; [apply ModelsFacts.ltb_leb, H0|]. split; [apply ModelsFacts.ltb_leb, H1|discriminate].
    + split; [reflexivity|]. split; [reflexivity|discriminate].
  - cbn. split; [reflexivity|]. split; [reflexivity|discriminate].
Qed.

Lemma reflag_witness :
  drift_status reconfirmed_record = STABLE /\
  snd (update_drift_status reconfirmed_record reconfirmed_signals) = CONFLICTING.
Proof.
  split; [reflexivity|].
  destruct (detector_reflags_corrected_records 24 3 (td_minutes 1) (td_minutes 1)
              (td_minutes 1) reconfirmed_record reconfirmed_signals) as (_ & H & _).
  - vm_compute. reflexivity.
  - apply H. vm_compute. discriminate.
Defined.

End DetectorFacts.
